(** * Stock dashboard: a shallow embedding of [stock_dashboard_app.py]

    The development follows the layout of the script: Python values and
    exceptions, the metric helper [pct_change], the two fetchers
    [fetch_intraday_history] and [fetch_quote], the TTL memoisation that
    [@st.cache_data(ttl=...)] puts around them, the watchlist parser and the
    top metrics grid.  Floats are IEEE 754 binary64 numbers, as in Python. *)

From Stdlib Require Import ZArith List String Ascii Bool Floats Lia.
From stdpp Require Import base option list gmap strings.

Local Open Scope Z_scope.

(** ** Exceptions and fallible computations *)

(** The subclasses of Python's [Exception] that the script can meet; this is
    the set that [except Exception] catches. *)
Inductive exn : Type :=
  | TypeError
  | ValueError
  | ZeroDivisionError
  | IndexError
  | AttributeError
  | StreamlitAPIException
  | ProviderError (msg : string).

Inductive result (A : Type) : Type :=
  | Ok (a : A)
  | Raise (e : exn).
Arguments Ok {A} a.
Arguments Raise {A} e.

Definition rbind {A B} (r : result A) (k : A -> result B) : result B :=
  match r with
  | Ok a => k a
  | Raise e => Raise e
  end.

Notation "x <-- r ;; k" := (rbind r (fun x => k))
  (at level 100, r at next level, right associativity).

(** [try: body except Exception: handler]. *)
Definition try_except {A} (body : result A) (handler : exn -> result A) : result A :=
  match body with
  | Ok a => Ok a
  | Raise e => handler e
  end.

Definition returns {A} (r : result A) : bool :=
  match r with Ok _ => true | Raise _ => false end.

(** ** Python values *)

(** The values that reach the numeric code: [None], a float (with [nan] and
    the infinities) or a string. *)
Inductive pyval : Type :=
  | PyNone
  | PyFloat (f : float)
  | PyStr (s : string).

Definition np_nan : float := nan.

(** [pd.isna(v)] on a scalar. *)
Definition pd_isna (v : pyval) : bool :=
  match v with
  | PyNone => true
  | PyFloat f => PrimFloat.is_nan f
  | PyStr _ => false
  end.

(** [v == 0]: true for the two float zeros only. *)
Definition py_eq_zero (v : pyval) : bool :=
  match v with
  | PyFloat f => PrimFloat.eqb f 0%float
  | _ => false
  end.

(** [a - b]; a [None] or [str] operand is a [TypeError]. *)
Definition py_sub (a b : pyval) : result pyval :=
  match a, b with
  | PyFloat x, PyFloat y => Ok (PyFloat (x - y)%float)
  | _, _ => Raise TypeError
  end.

(** [a / b]; Python raises [ZeroDivisionError] on a zero float divisor. *)
Definition py_truediv (a b : pyval) : result pyval :=
  match a, b with
  | PyFloat x, PyFloat y =>
      if PrimFloat.eqb y 0%float then Raise ZeroDivisionError
      else Ok (PyFloat (x / y)%float)
  | _, _ => Raise TypeError
  end.

(** [a * b] for the operands the script multiplies. *)
Definition py_mul (a b : pyval) : result pyval :=
  match a, b with
  | PyFloat x, PyFloat y => Ok (PyFloat (x * y)%float)
  | _, _ => Raise TypeError
  end.

(** Truthiness, as used by [x or ""]. *)
Definition py_truthy (v : pyval) : bool :=
  match v with
  | PyNone => false
  | PyFloat f => negb (PrimFloat.eqb f 0%float)
  | PyStr s => negb (String.eqb s EmptyString)
  end.

Definition py_or (a b : pyval) : pyval := if py_truthy a then a else b.

(** ** Metric engine *)

(** [pct_change(curr, prev)], lines 72-75. *)
Definition pct_change (curr prev : pyval) : result pyval :=
  if pd_isna curr || pd_isna prev || py_eq_zero prev then Ok (PyFloat np_nan)
  else
    d <-- py_sub curr prev ;;
    q <-- py_truediv d prev ;;
    py_mul q (PyFloat 100%float).


(** ** Strings: the three [str] methods the watchlist parser uses

    The watchlist is modelled as a string of ASCII characters.  [is_space]
    is [str.isspace] on that range (tab, newline, vertical tab, form feed,
    carriage return, the four separators 28-31 and the blank) and
    [to_upper] moves [a]-[z] to [A]-[Z] and leaves every other character
    alone.  Outside ASCII Python does more (U+00A0 and U+0085 are spaces,
    [str.upper] maps letters such as [e] with an accent, and the sharp s to
    two letters), which these functions do not follow: what is said about
    the parser is said for ASCII text, [is_ascii]. *)

(** A character of the ASCII range, code below 128. *)
Definition is_ascii_char (c : ascii) : bool := (N_of_ascii c <? 128)%N.

(** A text made of ASCII characters only. *)
Fixpoint is_ascii (s : string) : bool :=
  match s with
  | EmptyString => true
  | String c r => is_ascii_char c && is_ascii r
  end.

Definition is_space (c : ascii) : bool :=
  let n := N_of_ascii c in
  ((9 <=? n) && (n <=? 13) || (28 <=? n) && (n <=? 32))%N.

Definition to_upper (c : ascii) : ascii :=
  let n := N_of_ascii c in
  if ((97 <=? n) && (n <=? 122))%N then ascii_of_N (n - 32) else c.


(** [s.upper()]. *)
Fixpoint upper (s : string) : string :=
  match s with
  | EmptyString => EmptyString
  | String c r => String (to_upper c) (upper r)
  end.

Fixpoint lstrip (s : string) : string :=
  match s with
  | EmptyString => EmptyString
  | String c r => if is_space c then lstrip r else s
  end.

Fixpoint rstrip (s : string) : string :=
  match s with
  | EmptyString => EmptyString
  | String c r =>
      match rstrip r with
      | EmptyString => if is_space c then EmptyString else String c EmptyString
      | r' => String c r'
      end
  end.

(** [s.strip()]. *)
Definition strip (s : string) : string := rstrip (lstrip s).

(** [s.split(sep)] for a one-character separator: never an empty list, and
    [n] separators give [n + 1] pieces. *)
Fixpoint split (sep : ascii) (s : string) : list string :=
  match s with
  | EmptyString => [EmptyString]
  | String c r =>
      if Ascii.eqb c sep then EmptyString :: split sep r
      else match split sep r with
           | p :: ps => String c p :: ps
           | [] => [String c EmptyString]
           end
  end.

(** Truthiness of a [str]: non-empty. *)
Definition str_truthy (s : string) : bool := negb (String.eqb s EmptyString).

(** ** Watchlist parsing, line 87

    [[t.strip().upper() for t in watchlist.split(",") if t.strip()]] *)
Definition tickers (watchlist : string) : list string :=
  (fun t => upper (strip t)) <$>
    filter (fun t => Is_true (str_truthy (strip t))) (split "," watchlist).

Definition default_watchlist : list string :=
  ["AAPL"; "MSFT"; "GOOGL"; "TSLA"; "AMZN"; "META"; "NVDA"]%string.

(** The sidebar pre-fills the text input with [",".join(default_watchlist)]. *)
Fixpoint join (sep : string) (l : list string) : string :=
  match l with
  | [] => EmptyString
  | [x] => x
  | x :: r => (x ++ sep ++ join sep r)%string
  end.

(** ** Chart presets, lines 29-34 *)

(** The two options of the [selectbox]. *)
Inductive chart_type : Type := Line_1m | Candlestick_5m.

(** [range_map[chart_type]]: the (period, interval) pair of each preset. *)
Definition range_map (c : chart_type) : string * string :=
  match c with
  | Line_1m => ("1d", "1m")%string
  | Candlestick_5m => ("5d", "5m")%string
  end.

(** ** Data frames and their index *)

Inductive tzinfo : Type :=
  | UTC
  | America_New_York
  | Zone (name : string).

(** A [DatetimeIndex] stores wall-clock readings when it is naive
    ([tz = None]) and UTC instants when it is aware; [pd.DataFrame()] has an
    empty [RangeIndex], which has no [tz] attribute. *)
Inductive Index : Type :=
  | RangeIndex (n : nat)
  | DatetimeIndex (tz : option tzinfo) (stamps : list Z).

Record DataFrame : Type := mkDataFrame {
  index : Index;
  columns : list string;
  rows : list (list float)
}.

Definition index_len (i : Index) : nat :=
  match i with
  | RangeIndex n => n
  | DatetimeIndex _ st => length st
  end.

(** [df.empty]: some axis has length zero. *)
Definition df_empty (df : DataFrame) : bool :=
  (index_len (index df) =? 0)%nat || (length (columns df) =? 0)%nat.

(** [pd.DataFrame()]. *)
Definition pd_DataFrame : DataFrame :=
  {| index := RangeIndex 0; columns := []; rows := [] |}.

(** [idx.tz]. *)
Definition index_tz (i : Index) : result (option tzinfo) :=
  match i with
  | RangeIndex _ => Raise AttributeError
  | DatetimeIndex tz _ => Ok tz
  end.

(** [idx.tz_localize("UTC")]: a naive reading taken as UTC is the instant
    itself; pandas refuses an index that is already aware. *)
Definition tz_localize_UTC (i : Index) : result Index :=
  match i with
  | RangeIndex _ => Raise AttributeError
  | DatetimeIndex None st => Ok (DatetimeIndex (Some UTC) st)
  | DatetimeIndex (Some _) _ => Raise TypeError
  end.

(** [idx.tz_convert(z)]: same instants, shown in zone [z]; pandas refuses a
    naive index. *)
Definition tz_convert (z : tzinfo) (i : Index) : result Index :=
  match i with
  | RangeIndex _ => Raise AttributeError
  | DatetimeIndex None _ => Raise TypeError
  | DatetimeIndex (Some _) st => Ok (DatetimeIndex (Some z) st)
  end.

Definition set_index (df : DataFrame) (i : Index) : DataFrame :=
  {| index := i; columns := columns df; rows := rows df |}.

(** The UTC offsets an index shows, given the zone table [db] (zone and
    instant to offset); a naive index has none. *)
Definition utcoffsets (db : tzinfo -> Z -> Z) (i : Index) : list (option Z) :=
  match i with
  | RangeIndex _ => []
  | DatetimeIndex None st => map (fun _ => None) st
  | DatetimeIndex (Some z) st => map (fun t => Some (db z t)) st
  end.

(** ** The upstream provider *)

(** [info.get(key)] on a [fast_info] object: each read may raise. *)
Definition fast_info : Type := string -> result pyval.

(** What yfinance answers at one moment: [yf.download(tickers=..,
    period=.., interval=..)] gives [None], a frame, or raises;
    [yf.Ticker(t).fast_info] gives the lazy [info] object or raises. *)
Record provider : Type := mkProvider {
  yf_download : string -> string -> string -> result (option DataFrame);
  yf_fast_info : string -> result fast_info
}.

(** ** Fetchers *)

(** [fetch_intraday_history], lines 40-50, without its decorator. *)
Definition fetch_intraday_history (up : provider)
    (ticker period interval : string) : result DataFrame :=
  data <-- yf_download up ticker period interval ;;
  match data with
  | None => Ok pd_DataFrame
  | Some df =>
      if df_empty df then Ok pd_DataFrame
      else
        tz <-- index_tz (index df) ;;
        match tz with
        | None =>
            i <-- tz_localize_UTC (index df) ;;
            j <-- tz_convert America_New_York i ;;
            Ok (set_index df j)
        | Some _ =>
            j <-- tz_convert America_New_York (index df) ;;
            Ok (set_index df j)
        end
  end.

Record quote : Type := mkQuote {
  last_price : float;
  open : float;
  previous_close : float;
  currency : pyval;
  exchange : pyval
}.

(** The dict of the [except] branch, lines 64-70. *)
Definition unavailable_quote : quote :=
  {| last_price := np_nan; open := np_nan; previous_close := np_nan;
     currency := PyStr ""; exchange := PyStr "" |}.

Definition is_None (v : pyval) : bool :=
  match v with PyNone => true | _ => false end.

(** * Smart home login: a shallow embedding of [smart_home_auth.py]

    The Flask application keeps one global dict [USERS] (username to
    password) and, per client, a [session] dict of which it uses the key
    ["user"].  A handler is a function from the two dicts to a response and
    the two dicts after it.  Requests are [GET] or [POST]; a client is taken
    to present the session it was last given. *)

Module SmartHome.

(** The [USERS] dict as the module creates it, lines 8-11. *)
Definition USERS : gmap string string :=
  {[ "admin"%string := "1234"%string; "guest"%string := "guestpass"%string ]}.

Inductive template : Type := login_page | register_page | control_panel.

Inductive http_method : Type := GET | POST.

Record request : Type := mkRequest {
  path : string;
  method : http_method;
  form : gmap string string
}.

(** [render_template_string(t, **ctx)], [redirect(url_for("home"))] (the
    route of [home] is ["/"]), or Flask's own answer to a request that no
    route takes: 404, or 405 for a known path with another method. *)
Inductive response : Type :=
  | Render (t : template) (ctx : gmap string string)
  | Redirect (location : string)
  | Abort (status : Z).

(** The global dict and the session of the requesting client. *)
Record state : Type := mkState {
  users : gmap string string;
  session : gmap string string
}.

(** [not v] for the result of [request.form.get]: [None] or the empty
    string. *)
Definition py_not (v : option string) : bool :=
  match v with
  | None => true
  | Some s => String.eqb s EmptyString
  end.

(** [k in d] for a key that may be [None]. *)
Definition py_in (k : option string) (d : gmap string string) : bool :=
  match k with
  | None => false
  | Some u => bool_decide (is_Some (d !! u))
  end.

(** [home], lines 71-74. *)
Definition home (st : state) : response * state :=
  match session st !! "user"%string with
  | Some u => (Render control_panel {[ "user"%string := u ]}, st)
  | None => (Render login_page ∅, st)
  end.

Definition invalid_login : response :=
  Render login_page {[ "error"%string := "Invalid username or password."%string ]}.

(** [login], lines 77-84: [username in USERS and USERS[username] ==
    password]. *)
Definition login (f : gmap string string) (st : state) : response * state :=
  let username := f !! "username"%string in
  let password := f !! "password"%string in
  match username with
  | Some u =>
      match users st !! u with
      | Some stored =>
          if bool_decide (Some stored = password)
          then (Redirect "/",
                {| users := users st;
                   session := <["user"%string := u]> (session st) |})
          else (invalid_login, st)
      | None => (invalid_login, st)
      end
  | None => (invalid_login, st)
  end.

Definition username_taken : response :=
  Render register_page {[ "error"%string := "Username already taken."%string ]}.

Definition fill_all_fields : response :=
  Render register_page {[ "error"%string := "Please fill all fields."%string ]}.

(** [register], lines 87-98. *)
Definition register (m : http_method) (f : gmap string string) (st : state)
    : response * state :=
  match m with
  | POST =>
      let username := f !! "username"%string in
      let password := f !! "password"%string in
      if py_in username (users st) then (username_taken, st)
      else if py_not username || py_not password then (fill_all_fields, st)
      else
        match username, password with
        | Some u, Some p =>
            (Redirect "/",
             {| users := <[u := p]> (users st);
                session := <["user"%string := u]> (session st) |})
        | _, _ => (fill_all_fields, st)
        end
  | GET => (Render register_page ∅, st)
  end.

(** [logout], lines 101-103: [session.pop("user", None)]. *)
Definition logout (st : state) : response * state :=
  (Redirect "/",
   {| users := users st; session := delete "user"%string (session st) |}).

(** The four routes, lines 70, 76, 86 and 100. *)
Definition dispatch (r : request) (st : state) : response * state :=
  if String.eqb (path r) "/" then
    match method r with GET => home st | POST => (Abort 405, st) end
  else if String.eqb (path r) "/login" then
    match method r with POST => login (form r) st | GET => (Abort 405, st) end
  else if String.eqb (path r) "/register" then register (method r) (form r) st
  else if String.eqb (path r) "/logout" then
    match method r with GET => logout st | POST => (Abort 405, st) end
  else (Abort 404, st).

(** The server with several clients: the global dict and one session per
    client name; a client without an entry has the empty session. *)
Record server : Type := mkServer {
  accounts : gmap string string;
  sessions : gmap string (gmap string string)
}.

Definition session_of (c : string) (sv : server) : gmap string string :=
  default ∅ (sessions sv !! c).

(** One request of client [c]. *)
Definition serve (c : string) (r : request) (sv : server) : response * server :=
  let (resp, st) := dispatch r {| users := accounts sv; session := session_of c sv |} in
  (resp, {| accounts := users st; sessions := <[c := session st]> (sessions sv) |}).

(** A sequence of requests, each with its client, served in order. *)
Fixpoint serve_all (rs : list (string * request)) (sv : server) : server :=
  match rs with
  | [] => sv
  | (c, r) :: rest => serve_all rest (serve c r sv).2
  end.

(** The server as the module starts it. *)
Definition boot : server := {| accounts := USERS; sessions := ∅ |}.

(** The user a session is logged in as. *)
Definition logged_in (s : gmap string string) : option string := s !! "user"%string.

(** Sample requests: a client that registers as [alice], and one that tries
    to take over [admin]. *)

Definition alice_form : gmap string string :=
  {[ "username"%string := "alice"%string; "password"%string := "wonder"%string ]}.

Definition takeover_form : gmap string string :=
  {[ "username"%string := "admin"%string; "password"%string := "mine"%string ]}.

Definition admin_form : gmap string string :=
  {[ "username"%string := "admin"%string; "password"%string := "1234"%string ]}.

Definition busy_day : list (string * request) :=
  [ ("mallory", mkRequest "/register" POST takeover_form);
    ("alice", mkRequest "/logout" GET ∅);
    ("mallory", mkRequest "/login" POST takeover_form) ]%string.

End SmartHome.

(** ** [st.cache_data(ttl=...)]: memoisation by arguments with a time to live

    The decorator is Streamlit's; the model follows its documented
    behaviour.  Each decorated function owns one store.  A call looks its key up; an
    entry younger than [ttl] is returned and the function is not run.
    Otherwise the function runs: a returned value is stored under the key
    with the time of the call, replacing what was there, and an exception
    goes to the caller with nothing stored.  [calls] logs every run of the
    decorated function. *)

Record entry (V : Type) : Type := mkEntry { value : V; stored_at : Z }.
Arguments mkEntry {V} _ _.
Arguments value {V} _.
Arguments stored_at {V} _.

Record memo (K V : Type) `{Countable K} : Type := mkMemo {
  store : gmap K (entry V);
  calls : list (Z * K)
}.
Arguments mkMemo {K V _ _} _ _.
Arguments store {K V _ _} _.
Arguments calls {K V _ _} _.

Definition is_fresh {V} (ttl now : Z) (e : entry V) : bool :=
  now - stored_at e <? ttl.

(** The valid entry of a key, if any. *)
Definition cache_hit {K V} `{Countable K}
    (ttl now : Z) (k : K) (m : memo K V) : option V :=
  match store m !! k with
  | Some e => if is_fresh ttl now e then Some (value e) else None
  | None => None
  end.

Definition cache_data {K V} `{Countable K}
    (ttl : Z) (f : K -> result V) (now : Z) (k : K) (m : memo K V)
    : result V * memo K V :=
  match cache_hit ttl now k m with
  | Some v => (Ok v, m)
  | None =>
      let log := calls m ++ [(now, k)] in
      match f k with
      | Ok v => (Ok v, {| store := <[k := mkEntry v now]> (store m); calls := log |})
      | Raise e => (Raise e, {| store := store m; calls := log |})
      end
  end.

Section Dashboard.

(** Python's [float(s)] on a [str]: [None] where it raises [ValueError]. *)
Variable float_of_str : string -> option float.

(** [float(v)]. *)
Definition py_float (v : pyval) : result float :=
  match v with
  | PyNone => Raise TypeError
  | PyFloat f => Ok f
  | PyStr s =>
      match float_of_str s with
      | Some f => Ok f
      | None => Raise ValueError
      end
  end.

(** [float(info.get(k)) if info.get(k) is not None else np.nan]: the
    condition is read first, then the value is read again and converted. *)
Definition quote_field (info : fast_info) (k : string) : result float :=
  c <-- info k ;;
  if negb (is_None c) then (v <-- info k ;; py_float v) else Ok np_nan.

(** [info.get(k) or ""]. *)
Definition quote_text (info : fast_info) (k : string) : result pyval :=
  v <-- info k ;; Ok (py_or v (PyStr "")).

(** The [try] block of [fetch_quote], lines 55-62. *)
Definition fetch_quote_try (up : provider) (ticker : string) : result quote :=
  info <-- yf_fast_info up ticker ;;
  lp <-- quote_field info "last_price" ;;
  op <-- quote_field info "open" ;;
  pc <-- quote_field info "previous_close" ;;
  cu <-- quote_text info "currency" ;;
  ex <-- quote_text info "exchange" ;;
  Ok {| last_price := lp; open := op; previous_close := pc;
        currency := cu; exchange := ex |}.

(** [fetch_quote], lines 53-70, without its decorator. *)
Definition fetch_quote (up : provider) (ticker : string) : result quote :=
  try_except (fetch_quote_try up ticker) (fun _ => Ok unavailable_quote).

Definition quote_ttl : Z := 15.
Definition history_ttl : Z := 30.

(** The slider of line 28: the refresh interval, 5 to 60 seconds. *)
Definition valid_refresh_sec (r : Z) : bool := (5 <=? r) && (r <=? 60).

(** The decorated [fetch_quote] and [fetch_intraday_history] as the script
    calls them; [up] is what the provider answers at time [now]. *)
Definition cached_fetch_quote (up : provider) (now : Z) (ticker : string)
    (m : memo string quote) : result quote * memo string quote :=
  cache_data quote_ttl (fetch_quote up) now ticker m.

Definition cached_fetch_intraday_history (up : provider) (now : Z)
    (ticker period interval : string)
    (m : memo (string * string * string) DataFrame)
    : result DataFrame * memo (string * string * string) DataFrame :=
  cache_data history_ttl
    (fun k => fetch_intraday_history up k.1.1 k.1.2 k.2)
    now (ticker, period, interval) m.

(** The number of runs of the decorated function recorded in a log. *)
Definition runs {K V} `{Countable K} (m : memo K V) : nat := length (calls m).

(** ** Top metrics grid, lines 95-108 *)

(** [st.columns(n)]: [n] column handles, numbered from 0; Streamlit rejects
    [n <= 0]. *)
Definition st_columns (n : nat) : result (list nat) :=
  if (n =? 0)%nat then Raise StreamlitAPIException else Ok (seq 0 n).

(** [l[i]] for a non-negative [i]. *)
Definition py_index {A} (l : list A) (i : nat) : result A :=
  match l !! i with
  | Some x => Ok x
  | None => Raise IndexError
  end.

(** [enumerate(l)]. *)
Definition enumerate {A} (l : list A) : list (nat * A) := imap pair l.

(** What one [st.metric] call shows, before it is formatted: the column it
    is placed in, the ticker, its quote, and the two deltas. *)
Record metric : Type := mkMetric {
  m_column : nat;
  m_ticker : string;
  m_quote : quote;
  m_change : float;
  m_change_pct : pyval
}.

(** The body of the loop for one [(i, t)], given the quote [q]. *)
Definition metric_cell (cols : list nat) (i : nat) (t : string) (q : quote)
    : result metric :=
  let lp := last_price q in
  let pcl := previous_close q in
  let change :=
    if negb (pd_isna (PyFloat lp)) && negb (pd_isna (PyFloat pcl))
    then (lp - pcl)%float else np_nan in
  change_pct <-- pct_change (PyFloat lp) (PyFloat pcl) ;;
  col <-- py_index cols (i mod 4)%nat ;;
  Ok {| m_column := col; m_ticker := t; m_quote := q;
        m_change := change; m_change_pct := change_pct |}.

Fixpoint metrics_loop (up : provider) (now : Z) (cols : list nat)
    (its : list (nat * string)) (m : memo string quote)
    : result (list metric) * memo string quote :=
  match its with
  | [] => (Ok [], m)
  | (i, t) :: rest =>
      let (rq, m1) := cached_fetch_quote up now t m in
      match (q <-- rq ;; metric_cell cols i t q) with
      | Raise e => (Raise e, m1)
      | Ok c =>
          let (r, m2) := metrics_loop up now cols rest m1 in
          (cs <-- r ;; Ok (c :: cs), m2)
      end
  end.

(** Lines 95-96: the columns, then the loop over [tickers[:4]]. *)
Definition top_metrics_grid (up : provider) (now : Z) (tks : list string)
    (m : memo string quote) : result (list metric) * memo string quote :=
  match st_columns (Nat.min 4 (length tks)) with
  | Raise e => (Raise e, m)
  | Ok cols => metrics_loop up now cols (enumerate (take 4 tks)) m
  end.

(** ** One run of the script

    Streamlit reruns the whole script; the two memo stores live across
    runs.  [script_run] is the fetching part of a run, lines 87-133 and
    188-189: which calls are made, on which keys, and what they return; the
    drawing of lines 137-176 is added by [script_page] further down.  Both
    take one clock reading [now] and one provider for the whole run;
    [script_page_at] reads the clock at every decorated call. *)

Record session : Type := mkSession {
  quote_memo : memo string quote;
  history_memo : memo (string * string * string) DataFrame
}.

(** [st.tabs(labels)]: one handle per label; Streamlit rejects an empty
    list. *)
Definition st_tabs (labels : list string) : result (list nat) :=
  match labels with
  | [] => Raise StreamlitAPIException
  | _ => Ok (seq 0 (length labels))
  end.

(** What one tab is given to draw: the frame and the quote of its ticker. *)
Record tab_view : Type := mkTabView {
  tab_handle : nat;
  tab_ticker : string;
  tab_history : DataFrame;
  tab_quote : quote
}.

(** Lines 114-178: the loop over [enumerate(tabs)]; [tickers[i]] is read
    once per round here, the script reads it again with the same result. *)
Fixpoint tabs_loop (up : provider) (now : Z) (tks : list string)
    (period interval : string) (its : list (nat * nat)) (s : session)
    : result (list tab_view) * session :=
  match its with
  | [] => (Ok [], s)
  | (i, t) :: rest =>
      match py_index tks i with
      | Raise e => (Raise e, s)
      | Ok tk =>
          let (rdf, hm) :=
            cached_fetch_intraday_history up now tk period interval
              (history_memo s) in
          match rdf with
          | Raise e => (Raise e, {| quote_memo := quote_memo s; history_memo := hm |})
          | Ok df =>
              let (rq, qm) := cached_fetch_quote up now tk (quote_memo s) in
              let s2 := {| quote_memo := qm; history_memo := hm |} in
              match rq with
              | Raise e => (Raise e, s2)
              | Ok q =>
                  let (r, s3) := tabs_loop up now tks period interval rest s2 in
                  (vs <-- r ;; Ok (mkTabView t tk df q :: vs), s3)
              end
          end
      end
  end.

(** How a run ends: stopped on an empty watchlist (lines 88-90), aborted by
    an uncaught exception, or rendered, after which the script sleeps
    [refresh_sec] and reruns (lines 188-189). *)
Inductive outcome : Type :=
  | Stopped
  | Crashed (e : exn)
  | Rendered (grid : list metric) (tabs : list tab_view) (rerun_at : Z).

Definition script_run (up : provider) (now : Z) (watchlist : string)
    (refresh_sec : Z) (chart : chart_type) (s : session) : outcome * session :=
  let (period, interval) := range_map chart in
  let tks := tickers watchlist in
  match tks with
  | [] => (Stopped, s)
  | _ =>
      let (rg, qm) := top_metrics_grid up now tks (quote_memo s) in
      let s1 := {| quote_memo := qm; history_memo := history_memo s |} in
      match rg with
      | Raise e => (Crashed e, s1)
      | Ok grid =>
          match st_tabs tks with
          | Raise e => (Crashed e, s1)
          | Ok tabs =>
              let (rt, s2) :=
                tabs_loop up now tks period interval (enumerate tabs) s1 in
              match rt with
              | Raise e => (Crashed e, s2)
              | Ok views => (Rendered grid views (now + refresh_sec), s2)
              end
          end
      end
  end.

(** ** What a tab draws, lines 121-176

    A run can also be ended by a [KeyError]: [df["Close"]] on a frame
    without that column.  Widgets are kept as data, before Streamlit and
    Plotly format them; the calls into Streamlit and Plotly, given their
    arguments, are taken to return. *)

Inductive failure : Type :=
  | Uncaught (e : exn)
  | KeyError (column : string).

Inductive attempt (A : Type) : Type :=
  | Done (a : A)
  | Failed (f : failure).
Arguments Done {A} a.
Arguments Failed {A} f.

Definition abind {A B} (r : attempt A) (k : A -> attempt B) : attempt B :=
  match r with
  | Done a => k a
  | Failed f => Failed f
  end.

Notation "x <~~ r ;; k" := (abind r (fun x => k))
  (at level 100, r at next level, right associativity).

Definition attempt_of {A} (r : result A) : attempt A :=
  match r with
  | Ok a => Done a
  | Raise e => Failed (Uncaught e)
  end.

(** The position of a column label. *)
Fixpoint column_position (c : string) (cols : list string) : option nat :=
  match cols with
  | [] => None
  | c' :: rest =>
      if String.eqb c c' then Some 0%nat
      else S <$> column_position c rest
  end.

(** How many columns carry a label. *)
Fixpoint label_count (c : string) (cols : list string) : nat :=
  match cols with
  | [] => 0%nat
  | c' :: rest => ((if String.eqb c c' then 1 else 0) + label_count c rest)%nat
  end.

(** [df[c]] for a frame with flat labels: a [KeyError] when no column
    carries the label, and the column, one value per row, when exactly one
    does.  For a repeated label pandas gives a sub-frame instead of a
    column; [volume_chart] treats that case itself, and what is said about
    the charts is said for frames whose labels are distinct. *)
Definition df_getitem (df : DataFrame) (c : string) : attempt (list float) :=
  match column_position c (columns df) with
  | Some j => Done ((fun row => nth j row np_nan) <$> rows df)
  | None => Failed (KeyError c)
  end.

Inductive widget : Type :=
  | ChangeMetric (delta : option (float * pyval))
  | Info
  | Scatter (x : Index) (y : list float)
  | Candlestick (x : Index) (o h l c : list float)
  | Bar (x : Index) (y : list float).

(** Lines 129-133: the "Change vs Prev Close" metric, a dash when a price
    is unavailable. *)
Definition change_metric (q : quote) : result widget :=
  if negb (pd_isna (PyFloat (last_price q)))
     && negb (pd_isna (PyFloat (previous_close q)))
  then
    delta_pct <-- pct_change (PyFloat (last_price q)) (PyFloat (previous_close q)) ;;
    Ok (ChangeMetric (Some ((last_price q - previous_close q)%float, delta_pct)))
  else Ok (ChangeMetric None).

(** Lines 140-169: the chart of the selected type. *)
Definition main_chart (chart : chart_type) (df : DataFrame) : attempt widget :=
  match chart with
  | Line_1m =>
      y <~~ df_getitem df "Close" ;;
      Done (Scatter (index df) y)
  | Candlestick_5m =>
      o <~~ df_getitem df "Open" ;;
      h <~~ df_getitem df "High" ;;
      l <~~ df_getitem df "Low" ;;
      c <~~ df_getitem df "Close" ;;
      Done (Candlestick (index df) o h l c)
  end.

(** Lines 172-176: the volume bars, when there is a [Volume] column that
    is not all [nan].  With the label repeated, [df["Volume"]] is a
    sub-frame, [.isna().all()] has one truth value per column, and [not]
    of it raises [ValueError]. *)
Definition volume_chart (df : DataFrame) : attempt (list widget) :=
  match label_count "Volume" (columns df) with
  | 0%nat => Done []
  | 1%nat =>
      v <~~ df_getitem df "Volume" ;;
      if forallb PrimFloat.is_nan v then Done [] else Done [Bar (index df) v]
  | _ => Failed (Uncaught ValueError)
  end.

(** Lines 137-176. *)
Definition charts (chart : chart_type) (df : DataFrame) : attempt (list widget) :=
  if df_empty df then Done [Info]
  else
    m <~~ main_chart chart df ;;
    v <~~ volume_chart df ;;
    Done (m :: v).

(** Lines 121-176: the quote row, then the charts. *)
Definition draw_tab (chart : chart_type) (q : quote) (df : DataFrame)
    : attempt (list widget) :=
  c <~~ attempt_of (change_metric q) ;;
  ws <~~ charts chart df ;;
  Done (c :: ws).

Record drawn_tab : Type := mkDrawnTab {
  dt_view : tab_view;
  dt_widgets : list widget
}.

(** Lines 114-178 with the drawing: a tab is fetched and drawn before the
    next one is fetched. *)
Fixpoint tabs_loop_drawn (up : provider) (now : Z) (tks : list string)
    (period interval : string) (chart : chart_type)
    (its : list (nat * nat)) (s : session)
    : attempt (list drawn_tab) * session :=
  match its with
  | [] => (Done [], s)
  | (i, t) :: rest =>
      match py_index tks i with
      | Raise e => (Failed (Uncaught e), s)
      | Ok tk =>
          let (rdf, hm) :=
            cached_fetch_intraday_history up now tk period interval
              (history_memo s) in
          match rdf with
          | Raise e =>
              (Failed (Uncaught e),
               {| quote_memo := quote_memo s; history_memo := hm |})
          | Ok df =>
              let (rq, qm) := cached_fetch_quote up now tk (quote_memo s) in
              let s2 := {| quote_memo := qm; history_memo := hm |} in
              match rq with
              | Raise e => (Failed (Uncaught e), s2)
              | Ok q =>
                  match draw_tab chart q df with
                  | Failed fl => (Failed fl, s2)
                  | Done ws =>
                      let (r, s3) :=
                        tabs_loop_drawn up now tks period interval chart rest s2 in
                      (ds <~~ r ;; Done (mkDrawnTab (mkTabView t tk df q) ws :: ds), s3)
                  end
              end
          end
      end
  end.

(** How a run of the whole script ends. *)
Inductive page : Type :=
  | PageStopped
  | PageFailed (f : failure)
  | PageRendered (grid : list metric) (tabs : list drawn_tab) (rerun_at : Z).

(** The script from line 87 to line 189, every call of the run seeing the
    clock reading [now] and the provider [up]. *)
Definition script_page (up : provider) (now : Z) (watchlist : string)
    (refresh_sec : Z) (chart : chart_type) (s : session) : page * session :=
  let (period, interval) := range_map chart in
  let tks := tickers watchlist in
  match tks with
  | [] => (PageStopped, s)
  | _ =>
      let (rg, qm) := top_metrics_grid up now tks (quote_memo s) in
      let s1 := {| quote_memo := qm; history_memo := history_memo s |} in
      match rg with
      | Raise e => (PageFailed (Uncaught e), s1)
      | Ok grid =>
          match st_tabs tks with
          | Raise e => (PageFailed (Uncaught e), s1)
          | Ok tabs =>
              let (rt, s2) :=
                tabs_loop_drawn up now tks period interval chart
                  (enumerate tabs) s1 in
              match rt with
              | Failed fl => (PageFailed fl, s2)
              | Done drawn => (PageRendered grid drawn (now + refresh_sec), s2)
              end
          end
      end
  end.

(** ** One run, with the clock read at every call

    The decorator reads the clock whenever a decorated function is called,
    and the provider may take time to answer, so the calls of one run see
    different times and, possibly, different answers.  A [feed] gives the
    clock reading and the provider's answers at the n-th decorated call; a
    run carries the number of calls made so far.  [script_page] above is the
    run under a [constant_feed]. *)

Record feed : Type := mkFeed {
  reading : nat -> Z;
  answers : nat -> provider
}.

Record run_state : Type := mkRunState {
  rs_session : session;
  rs_tick : nat
}.

(** The feed in which every call reads [now] and is answered by [up]. *)
Definition constant_feed (up : provider) (now : Z) : feed :=
  mkFeed (fun _ => now) (fun _ => up).

(** A call of the decorated [fetch_quote]. *)
Definition quote_call (fd : feed) (t : string) (st : run_state)
    : result quote * run_state :=
  let c := cached_fetch_quote (answers fd (rs_tick st)) (reading fd (rs_tick st)) t
             (quote_memo (rs_session st)) in
  (c.1, {| rs_session := {| quote_memo := c.2;
                            history_memo := history_memo (rs_session st) |};
           rs_tick := S (rs_tick st) |}).

(** A call of the decorated [fetch_intraday_history]. *)
Definition history_call (fd : feed) (t period interval : string) (st : run_state)
    : result DataFrame * run_state :=
  let c := cached_fetch_intraday_history (answers fd (rs_tick st))
             (reading fd (rs_tick st)) t period interval
             (history_memo (rs_session st)) in
  (c.1, {| rs_session := {| quote_memo := quote_memo (rs_session st);
                            history_memo := c.2 |};
           rs_tick := S (rs_tick st) |}).

(** Lines 96-108. *)
Fixpoint metrics_loop_at (fd : feed) (cols : list nat)
    (its : list (nat * string)) (st : run_state)
    : result (list metric) * run_state :=
  match its with
  | [] => (Ok [], st)
  | (i, t) :: rest =>
      let c := quote_call fd t st in
      match (q <-- c.1 ;; metric_cell cols i t q) with
      | Raise e => (Raise e, c.2)
      | Ok cell =>
          let l := metrics_loop_at fd cols rest c.2 in
          (cs <-- l.1 ;; Ok (cell :: cs), l.2)
      end
  end.

(** Lines 95-108. *)
Definition top_metrics_grid_at (fd : feed) (tks : list string) (st : run_state)
    : result (list metric) * run_state :=
  match st_columns (Nat.min 4 (length tks)) with
  | Raise e => (Raise e, st)
  | Ok cols => metrics_loop_at fd cols (enumerate (take 4 tks)) st
  end.

(** Lines 114-178. *)
Fixpoint tabs_loop_at (fd : feed) (tks : list string)
    (period interval : string) (chart : chart_type)
    (its : list (nat * nat)) (st : run_state)
    : attempt (list drawn_tab) * run_state :=
  match its with
  | [] => (Done [], st)
  | (i, t) :: rest =>
      match py_index tks i with
      | Raise e => (Failed (Uncaught e), st)
      | Ok tk =>
          let h := history_call fd tk period interval st in
          match h.1 with
          | Raise e => (Failed (Uncaught e), h.2)
          | Ok df =>
              let c := quote_call fd tk h.2 in
              match c.1 with
              | Raise e => (Failed (Uncaught e), c.2)
              | Ok q =>
                  match draw_tab chart q df with
                  | Failed fl => (Failed fl, c.2)
                  | Done ws =>
                      let l := tabs_loop_at fd tks period interval chart rest c.2 in
                      (ds <~~ l.1 ;;
                       Done (mkDrawnTab (mkTabView t tk df q) ws :: ds), l.2)
                  end
              end
          end
      end
  end.

(** The script from line 87 to line 189; the rerun is due [refresh_sec]
    after the clock reading at the end of the run. *)
Definition script_page_at (fd : feed) (watchlist : string) (refresh_sec : Z)
    (chart : chart_type) (st : run_state) : page * run_state :=
  let tks := tickers watchlist in
  match tks with
  | [] => (PageStopped, st)
  | _ =>
      let g := top_metrics_grid_at fd tks st in
      match g.1 with
      | Raise e => (PageFailed (Uncaught e), g.2)
      | Ok grid =>
          match st_tabs tks with
          | Raise e => (PageFailed (Uncaught e), g.2)
          | Ok tabs =>
              let l := tabs_loop_at fd tks (range_map chart).1 (range_map chart).2
                         chart (enumerate tabs) g.2 in
              match l.1 with
              | Failed fl => (PageFailed fl, l.2)
              | Done drawn =>
                  (PageRendered grid drawn (reading fd (rs_tick l.2) + refresh_sec),
                   l.2)
              end
          end
      end
  end.

(** The parts of a rendered page; empty for a page that was not rendered. *)
Definition page_grid (p : page) : list metric :=
  match p with PageRendered g _ _ => g | _ => [] end.

Definition page_tabs (p : page) : list drawn_tab :=
  match p with PageRendered _ t _ => t | _ => [] end.

Definition page_rerun_at (p : page) : Z :=
  match p with PageRendered _ _ a => a | _ => 0 end.

(** ** Sample data for the worked examples *)

(** A [float()] for strings that agrees with Python's on the strings the
    examples convert: ["1.5"] is accepted, anything else is rejected. *)
Definition float_of_str_sample (s : string) : option float :=
  if String.eqb s "1.5" then Some 1.5%float else None.

(** The provider during an outage: both operations raise. *)
Definition provider_down : provider :=
  {| yf_download := fun _ _ _ => Raise (ProviderError "timeout");
     yf_fast_info := fun _ => Raise (ProviderError "timeout") |}.

Definition quote_aapl : quote :=
  {| last_price := 189.5%float; open := 188%float;
     previous_close := 187.25%float;
     currency := PyStr "USD"; exchange := PyStr "NMS" |}.

(** A quote store holding one entry for AAPL, written at time 0. *)
Definition memo_aapl : memo string quote :=
  {| store := {[ "AAPL"%string := mkEntry quote_aapl 0 ]}; calls := [] |}.

(** A provider whose [open] value for every symbol is the string ["abc"]. *)
Definition info_malformed_open : fast_info :=
  fun k =>
    if String.eqb k "last_price" then Ok (PyFloat 189.5%float)
    else if String.eqb k "open" then Ok (PyStr "abc")
    else if String.eqb k "previous_close" then Ok (PyFloat 187.25%float)
    else if String.eqb k "currency" then Ok (PyStr "USD")
    else if String.eqb k "exchange" then Ok (PyStr "NMS")
    else Ok PyNone.

Definition provider_malformed_open : provider :=
  {| yf_download := fun _ _ _ => Ok None;
     yf_fast_info := fun _ => Ok info_malformed_open |}.

(** A provider with no [open] value: [fast_info.get] gives [None] for it. *)
Definition info_absent_open : fast_info :=
  fun k =>
    if String.eqb k "last_price" then Ok (PyFloat 189.5%float)
    else if String.eqb k "previous_close" then Ok (PyFloat 187.25%float)
    else if String.eqb k "currency" then Ok (PyStr "USD")
    else if String.eqb k "exchange" then Ok (PyStr "NMS")
    else Ok PyNone.

Definition provider_absent_open : provider :=
  {| yf_download := fun _ _ _ => Ok None;
     yf_fast_info := fun _ => Ok info_absent_open |}.

(** Two one-minute bars, as instants in seconds since the epoch, once with a
    naive index and once with an index already in UTC. *)
Definition sample_stamps : list Z := [1700000000; 1700000060].
Definition sample_rows : list (list float) := [[189.5%float]; [189.75%float]].

Definition frame_with (tz : option tzinfo) : DataFrame :=
  {| index := DatetimeIndex tz sample_stamps;
     columns := ["Close"%string]; rows := sample_rows |}.

Definition provider_frame (tz : option tzinfo) : provider :=
  {| yf_download := fun _ _ _ => Ok (Some (frame_with tz));
     yf_fast_info := fun _ => Ok info_absent_open |}.

(** A history store holding the Line preset's frame for AAPL, written at
    time 0. *)
Definition memo_line : memo (string * string * string) DataFrame :=
  {| store := {[ ("AAPL", "1d", "1m")%string :=
                   mkEntry (frame_with (Some America_New_York)) 0 ]};
     calls := [] |}.

(** A zone table for the examples: a fixed offset per zone, in seconds. *)
Definition db_fixed (z : tzinfo) (t : Z) : Z :=
  match z with
  | America_New_York => -18000
  | _ => 0
  end.

Definition memo_empty {K V} `{Countable K} : memo K V :=
  {| store := ∅; calls := [] |}.

Definition session_empty : session :=
  {| quote_memo := memo_empty; history_memo := memo_empty |}.

(** * Properties *)

(** ** Metric engine *)

(** A float or [None]: what a quote field, an optional real number, is. *)
Definition is_price (v : pyval) : bool :=
  match v with PyStr _ => false | _ => true end.

Lemma pct_change_guarded (curr prev : pyval) :
  pd_isna curr || pd_isna prev || py_eq_zero prev = true ->
  pct_change curr prev = Ok (PyFloat np_nan).
Proof. intros Hg. unfold pct_change. now rewrite Hg. Qed.

Lemma pct_change_defined (x y : float) :
  PrimFloat.is_nan x = false -> PrimFloat.is_nan y = false ->
  PrimFloat.eqb y 0%float = false ->
  pct_change (PyFloat x) (PyFloat y) = Ok (PyFloat ((x - y) / y * 100)%float).
Proof.
  intros Hx Hy Hz. unfold pct_change. cbn [pd_isna py_eq_zero].
  rewrite Hx, Hy, Hz. cbn [orb py_sub rbind py_truediv]. rewrite Hz.
  reflexivity.
Qed.

Lemma pct_change_floats_return (x y : float) :
  exists v, pct_change (PyFloat x) (PyFloat y) = Ok (PyFloat v).
Proof.
  unfold pct_change. cbn [pd_isna py_eq_zero].
  destruct (PrimFloat.is_nan x); [eauto|].
  destruct (PrimFloat.is_nan y); [eauto|].
  destruct (PrimFloat.eqb y 0%float) eqn:Hz; [eauto|].
  cbn [orb py_sub rbind py_truediv]. rewrite Hz. cbn. eauto.
Qed.

(** C4. [pct_change(curr, prev)] is the undefined value [nan] when an input
    is unavailable ([pd.isna]) or [prev == 0]; otherwise it is exactly
    [(curr - prev) / prev * 100.0] in float arithmetic; on floats and [None]
    it never raises (no [ZeroDivisionError], no [TypeError]); and
    [pct_change(110, 100) = 10.0], [pct_change(90, 0)] and
    [pct_change(None, 100)] are undefined. *)
Theorem pct_change_contract :
  (forall curr prev : pyval,
     pd_isna curr || pd_isna prev || py_eq_zero prev = true ->
     pct_change curr prev = Ok (PyFloat np_nan))
  /\ (forall x y : float,
        pd_isna (PyFloat x) || pd_isna (PyFloat y) || py_eq_zero (PyFloat y) = false ->
        pct_change (PyFloat x) (PyFloat y) = Ok (PyFloat ((x - y) / y * 100)%float))
  /\ (forall curr prev : pyval,
        is_price curr = true -> is_price prev = true ->
        returns (pct_change curr prev) = true)
  /\ pct_change (PyFloat 110%float) (PyFloat 100%float) = Ok (PyFloat 10%float)
  /\ pct_change (PyFloat 90%float) (PyFloat 0%float) = Ok (PyFloat np_nan)
  /\ pct_change PyNone (PyFloat 100%float) = Ok (PyFloat np_nan).
Proof.
  split; [exact pct_change_guarded|].
  split.
  { intros x y Hg. cbn [pd_isna py_eq_zero] in Hg.
    apply orb_false_iff in Hg as [Hg Hz]. apply orb_false_iff in Hg as [Hx Hy].
    now apply pct_change_defined. }
  split.
  { intros [|x|?] [|y|?] Hc Hp; try discriminate; try reflexivity.
    - unfold pct_change. cbn [pd_isna orb]. now rewrite orb_true_r.
    - destruct (pct_change_floats_return x y) as [v ->]. reflexivity. }
  repeat split; reflexivity.
Qed.

(** ** Watchlist parsing *)

Lemma to_upper_space (c : ascii) : is_space (to_upper c) = is_space c.
Proof. destruct c as [[] [] [] [] [] [] [] []]; reflexivity. Qed.

Lemma to_upper_idem (c : ascii) : to_upper (to_upper c) = to_upper c.
Proof. destruct c as [[] [] [] [] [] [] [] []]; reflexivity. Qed.


Lemma upper_idem (s : string) : upper (upper s) = upper s.
Proof. induction s as [|c r IH]; cbn; [|rewrite to_upper_idem, IH]; reflexivity. Qed.

Lemma lstrip_upper (s : string) : lstrip (upper s) = upper (lstrip s).
Proof.
  induction s as [|c r IH]; cbn; [reflexivity|].
  rewrite to_upper_space. destruct (is_space c); [exact IH | reflexivity].
Qed.

Lemma rstrip_upper (s : string) : rstrip (upper s) = upper (rstrip s).
Proof.
  induction s as [|c r IH]; cbn; [reflexivity|].
  rewrite IH, to_upper_space.
  destruct (rstrip r); cbn; [destruct (is_space c)|]; reflexivity.
Qed.

Lemma strip_upper (s : string) : strip (upper s) = upper (strip s).
Proof. unfold strip. now rewrite lstrip_upper, rstrip_upper. Qed.

Lemma lstrip_length (s : string) : (String.length (lstrip s) <= String.length s)%nat.
Proof.
  induction s as [|c r IH]; cbn; [lia|].
  destruct (is_space c); cbn; lia.
Qed.

(** After [lstrip] the string is empty or starts with a non-blank. *)
Definition starts_clean (s : string) : Prop :=
  match s with
  | EmptyString => True
  | String c _ => is_space c = false
  end.

Lemma lstrip_starts_clean (s : string) : starts_clean (lstrip s).
Proof.
  induction s as [|c r IH]; cbn; [exact I|].
  destruct (is_space c) eqn:Hc; [exact IH | exact Hc].
Qed.

Lemma lstrip_clean (s : string) : starts_clean s -> lstrip s = s.
Proof. destruct s as [|c r]; cbn; [reflexivity|]. now intros ->. Qed.

Lemma rstrip_starts_clean (s : string) : starts_clean s -> starts_clean (rstrip s).
Proof.
  destruct s as [|c r]; cbn; [exact id|]. intros Hc.
  destruct (rstrip r); [rewrite Hc|]; exact Hc.
Qed.

Lemma rstrip_idem (s : string) : rstrip (rstrip s) = rstrip s.
Proof.
  induction s as [|c r IH]; cbn; [reflexivity|].
  destruct (rstrip r) as [|d r'] eqn:Hr.
  - destruct (is_space c) eqn:Hc; cbn; [reflexivity|]. now rewrite Hc.
  - change (rstrip (String c (String d r'))) with
      (match rstrip (String d r') with
       | EmptyString => if is_space c then EmptyString else String c EmptyString
       | String a b => String c (String a b)
       end).
    now rewrite IH.
Qed.

Lemma strip_idem (s : string) : strip (strip s) = strip s.
Proof.
  unfold strip.
  rewrite (lstrip_clean (rstrip (lstrip s))).
  - apply rstrip_idem.
  - apply rstrip_starts_clean, lstrip_starts_clean.
Qed.

Lemma upper_empty (s : string) : upper s = EmptyString -> s = EmptyString.
Proof. destruct s; [reflexivity | discriminate]. Qed.

Lemma str_truthy_spec (s : string) : Is_true (str_truthy s) <-> s <> EmptyString.
Proof.
  unfold str_truthy. destruct (String.eqb_spec s EmptyString) as [->|Hne]; cbn.
  - split; [intros [] | intros H; now apply H].
  - split; [intros _; exact Hne | intros _; exact I].
Qed.

Lemma split_nonempty (sep : ascii) (s : string) : split sep s <> [].
Proof.
  induction s as [|c r IH]; cbn [split]; [discriminate|].
  destruct (Ascii.eqb c sep); [discriminate|].
  destruct (split sep r); [contradiction | discriminate].
Qed.

(** Splitting distributes over a separator: the pieces of [a] followed by
    the pieces of [b]. *)
Lemma split_app (sep : ascii) (a b : string) :
  split sep (a ++ String sep b)%string = split sep a ++ split sep b.
Proof.
  induction a as [|c r IH].
  - change (EmptyString ++ String sep b)%string with (String sep b).
    cbn [split]. now rewrite Ascii.eqb_refl.
  - change (String c r ++ String sep b)%string
      with (String c (r ++ String sep b)).
    cbn [split]. destruct (Ascii.eqb c sep); [now rewrite IH|].
    rewrite IH. pose proof (split_nonempty sep r) as Hne.
    destruct (split sep r); [contradiction | reflexivity].
Qed.


Lemma tickers_elem (w t : string) :
  t ∈ tickers w ->
  exists p, p ∈ split "," w /\ strip p <> EmptyString /\ t = upper (strip p).
Proof.
  unfold tickers. intros Ht.
  apply list_elem_of_fmap in Ht as (p & -> & Hp).
  apply list_elem_of_filter in Hp as [Hnz Hp].
  exists p. split; [exact Hp|]. split; [now apply str_truthy_spec | reflexivity].
Qed.



(** The pre-filled text of the sidebar parses back to the default list. *)
Lemma tickers_default_watchlist :
  tickers (join "," default_watchlist) = default_watchlist.
Proof. reflexivity. Qed.

(** What one comma-separated entry becomes, said in words: trimmed,
    dropped when nothing is left, upper-cased otherwise. *)
Definition ticker_of_entry (e : string) : option string :=
  let t := strip e in
  if String.eqb t EmptyString then None else Some (upper t).

Lemma tickers_entries (w : string) :
  tickers w = omap ticker_of_entry (split "," w).
Proof.
  unfold tickers. induction (split "," w) as [|p ps IH]; [reflexivity|].
  cbn [omap list_omap]. unfold ticker_of_entry at 1.
  destruct (String.eqb (strip p) EmptyString) eqn:He.
  - rewrite filter_cons_False; [exact IH|].
    unfold str_truthy. rewrite He. exact id.
  - rewrite filter_cons_True.
    + rewrite fmap_cons. now f_equal.
    + unfold str_truthy. rewrite He. exact I.
Qed.








(** ** Fetchers *)

Definition raises {A} (r : result A) : Prop := exists e, r = Raise e.

Lemma raises_bind_l {A B} (r : result A) (k : A -> result B) :
  raises r -> raises (rbind r k).
Proof. intros [e ->]. now exists e. Qed.

Lemma raises_bind_r {A B} (r : result A) (k : A -> result B) :
  (forall a, raises (k a)) -> raises (rbind r k).
Proof. intros Hk. destruct r as [a|e]; [apply Hk | now exists e]. Qed.

Lemma fetch_quote_returns (up : provider) (ticker : string) :
  exists q, fetch_quote up ticker = Ok q.
Proof. unfold fetch_quote. destruct (fetch_quote_try up ticker); cbn; eauto. Qed.

Lemma fetch_quote_failed (up : provider) (ticker : string) :
  raises (fetch_quote_try up ticker) ->
  fetch_quote up ticker = Ok unavailable_quote.
Proof. intros [e He]. unfold fetch_quote. now rewrite He. Qed.

Lemma quote_field_read_raises (info : fast_info) (k : string) :
  raises (info k) -> raises (quote_field info k).
Proof. intros H. now apply raises_bind_l. Qed.

Lemma quote_field_malformed (info : fast_info) (k : string) (v : pyval) :
  info k = Ok v -> v <> PyNone -> raises (py_float v) ->
  raises (quote_field info k).
Proof.
  intros Hv Hn Hf. unfold quote_field. rewrite Hv. cbn [rbind].
  destruct v; [contradiction| |]; cbn [is_None negb]; exact Hf.
Qed.

Lemma quote_field_absent (info : fast_info) (k : string) :
  info k = Ok PyNone -> quote_field info k = Ok np_nan.
Proof. intros Hv. unfold quote_field. now rewrite Hv. Qed.

Lemma quote_field_float (info : fast_info) (k : string) (f : float) :
  info k = Ok (PyFloat f) -> quote_field info k = Ok f.
Proof. intros Hv. unfold quote_field. now rewrite Hv. Qed.

Lemma quote_text_read_raises (info : fast_info) (k : string) :
  raises (info k) -> raises (quote_text info k).
Proof. intros H. now apply raises_bind_l. Qed.

(** The three numeric keys and the two text keys that [fetch_quote] reads. *)
Definition numeric_keys : list string :=
  ["last_price"; "open"; "previous_close"]%string.
Definition text_keys : list string := ["currency"; "exchange"]%string.

Ltac raise_at_step H :=
  first [ apply raises_bind_l; exact H
        | apply raises_bind_r; intros ?; raise_at_step H ].

Lemma fetch_quote_try_numeric_raises (up : provider) (ticker : string)
    (info : fast_info) (k : string) :
  yf_fast_info up ticker = Ok info -> k ∈ numeric_keys ->
  raises (quote_field info k) -> raises (fetch_quote_try up ticker).
Proof.
  intros Hi Hk Hr. unfold fetch_quote_try. rewrite Hi. cbn [rbind].
  unfold numeric_keys in Hk.
  repeat (apply elem_of_cons in Hk as [->|Hk]); [| | |inversion Hk];
    raise_at_step Hr.
Qed.

Lemma fetch_quote_try_text_raises (up : provider) (ticker : string)
    (info : fast_info) (k : string) :
  yf_fast_info up ticker = Ok info -> k ∈ text_keys ->
  raises (info k) -> raises (fetch_quote_try up ticker).
Proof.
  intros Hi Hk Hr. apply quote_text_read_raises in Hr.
  unfold fetch_quote_try. rewrite Hi. cbn [rbind].
  unfold text_keys in Hk.
  repeat (apply elem_of_cons in Hk as [->|Hk]); [| |inversion Hk];
    raise_at_step Hr.
Qed.

(** A provider value for an optional number: [None] when absent. *)
Definition price (o : option float) : pyval :=
  match o with
  | None => PyNone
  | Some f => PyFloat f
  end.

Lemma quote_field_price (info : fast_info) (k : string) (o : option float) :
  info k = Ok (price o) -> quote_field info k = Ok (default np_nan o).
Proof.
  destruct o as [f|]; cbn [price default]; intros Hv.
  - now apply quote_field_float.
  - now apply quote_field_absent.
Qed.

Lemma fetch_quote_well_formed (up : provider) (ticker : string)
    (info : fast_info) (lp op pc : option float) (cu ex : pyval) :
  yf_fast_info up ticker = Ok info ->
  info "last_price"%string = Ok (price lp) ->
  info "open"%string = Ok (price op) ->
  info "previous_close"%string = Ok (price pc) ->
  info "currency"%string = Ok cu ->
  info "exchange"%string = Ok ex ->
  fetch_quote up ticker =
    Ok {| last_price := default np_nan lp; open := default np_nan op;
          previous_close := default np_nan pc;
          currency := py_or cu (PyStr ""); exchange := py_or ex (PyStr "") |}.
Proof.
  intros Hi Hl Ho Hp Hc He. unfold fetch_quote, fetch_quote_try.
  rewrite Hi. cbn [rbind].
  rewrite (quote_field_price _ _ _ Hl), (quote_field_price _ _ _ Ho),
    (quote_field_price _ _ _ Hp).
  unfold quote_text. rewrite Hc, He. reflexivity.
Qed.

(** C9. [fetch_quote] always returns a quote, a record of the five fields
    [last_price], [open], [previous_close], [currency], [exchange]. Any
    exception inside its [try] block gives the fully unavailable quote
    (three [nan]s and two empty strings): the provider call raising, the
    read of any of the five keys raising, or [float()] raising on a value
    that is present but malformed; what the other fields held is lost.
    Only absence ([None]) is tolerated field by field: an absent number
    becomes [nan] and the other fields keep their values. *)
Theorem fetch_quote_all_or_nothing :
  (forall up t, exists q, fetch_quote up t = Ok q)
  /\ (forall up t,
        raises (fetch_quote_try up t) ->
        fetch_quote up t = Ok unavailable_quote)
  /\ (forall up t,
        raises (yf_fast_info up t) -> fetch_quote up t = Ok unavailable_quote)
  /\ (forall up t info k,
        yf_fast_info up t = Ok info -> k ∈ numeric_keys ++ text_keys ->
        raises (info k) -> fetch_quote up t = Ok unavailable_quote)
  /\ (forall up t info k v,
        yf_fast_info up t = Ok info -> k ∈ numeric_keys ->
        info k = Ok v -> v <> PyNone -> raises (py_float v) ->
        fetch_quote up t = Ok unavailable_quote)
  /\ (forall up t info (lp op pc : option float) (cu ex : pyval),
        yf_fast_info up t = Ok info ->
        info "last_price"%string = Ok (price lp) ->
        info "open"%string = Ok (price op) ->
        info "previous_close"%string = Ok (price pc) ->
        info "currency"%string = Ok cu ->
        info "exchange"%string = Ok ex ->
        fetch_quote up t =
          Ok {| last_price := default np_nan lp; open := default np_nan op;
                previous_close := default np_nan pc;
                currency := py_or cu (PyStr "");
                exchange := py_or ex (PyStr "") |})
  /\ (pd_isna (PyFloat (last_price unavailable_quote)) = true
      /\ pd_isna (PyFloat (open unavailable_quote)) = true
      /\ pd_isna (PyFloat (previous_close unavailable_quote)) = true
      /\ currency unavailable_quote = PyStr ""
      /\ exchange unavailable_quote = PyStr "").
Proof.
  split; [exact fetch_quote_returns|].
  split; [exact fetch_quote_failed|].
  split.
  { intros up t Hr. apply fetch_quote_failed. now apply raises_bind_l. }
  split.
  { intros up t info k Hi Hk Hr. apply fetch_quote_failed.
    apply elem_of_app in Hk as [Hk|Hk].
    - apply (fetch_quote_try_numeric_raises up t info k Hi Hk).
      now apply quote_field_read_raises.
    - now apply (fetch_quote_try_text_raises up t info k Hi Hk). }
  split.
  { intros up t info k v Hi Hk Hv Hn Hf. apply fetch_quote_failed.
    apply (fetch_quote_try_numeric_raises up t info k Hi Hk).
    now apply (quote_field_malformed info k v). }
  split; [exact fetch_quote_well_formed|].
  repeat split; reflexivity.
Qed.

(** ** History fetcher *)

Lemma fetch_history_none (up : provider) (t p i : string) :
  yf_download up t p i = Ok None ->
  fetch_intraday_history up t p i = Ok pd_DataFrame.
Proof. intros H. unfold fetch_intraday_history. now rewrite H. Qed.

Lemma fetch_history_empty (up : provider) (t p i : string) (df : DataFrame) :
  yf_download up t p i = Ok (Some df) -> df_empty df = true ->
  fetch_intraday_history up t p i = Ok pd_DataFrame.
Proof. intros H He. unfold fetch_intraday_history. rewrite H. cbn. now rewrite He. Qed.

Lemma fetch_history_raise (up : provider) (t p i : string) (e : exn) :
  yf_download up t p i = Raise e ->
  fetch_intraday_history up t p i = Raise e.
Proof. intros H. unfold fetch_intraday_history. now rewrite H. Qed.

Lemma fetch_history_rows (up : provider) (t p i : string)
    (tz : option tzinfo) (st : list Z) (cols : list string)
    (rws : list (list float)) :
  yf_download up t p i = Ok (Some (mkDataFrame (DatetimeIndex tz st) cols rws)) ->
  st <> [] -> cols <> [] ->
  fetch_intraday_history up t p i =
    Ok (mkDataFrame (DatetimeIndex (Some America_New_York) st) cols rws).
Proof.
  intros H Hs Hc. unfold fetch_intraday_history. rewrite H. cbn [rbind].
  assert (df_empty (mkDataFrame (DatetimeIndex tz st) cols rws) = false) as ->.
  { unfold df_empty. cbn. destruct st; [contradiction|].
    destruct cols; [contradiction | reflexivity]. }
  destruct tz; reflexivity.
Qed.

Lemma fetch_history_normalized (up : provider) (t p i : string) (df : DataFrame) :
  fetch_intraday_history up t p i = Ok df -> df_empty df = false ->
  exists st, index df = DatetimeIndex (Some America_New_York) st.
Proof.
  unfold fetch_intraday_history.
  destruct (yf_download up t p i) as [[d|]|e]; cbn [rbind]; [| |discriminate].
  - destruct (df_empty d).
    + intros [= <-]. discriminate.
    + destruct d as [[n|[z|] st] cols rws]; cbn; try discriminate;
        intros [= <-] _; now exists st.
  - intros [= <-]. discriminate.
Qed.

(** C5. A non-empty frame returned by [fetch_intraday_history] has a
    [DatetimeIndex] in zone America/New_York. A naive upstream index is
    first taken as UTC, an aware one is converted directly, and in both
    cases the instants are kept; so a naive series and an aware series with
    the same instants come out equal and show the same UTC offsets, those
    of America/New_York at each instant, whatever the zone table [db]. *)
Theorem history_timestamps_new_york :
  (forall up t p i df,
     fetch_intraday_history up t p i = Ok df -> df_empty df = false ->
     exists st, index df = DatetimeIndex (Some America_New_York) st)
  /\ (forall up t p i tz st cols rws,
        yf_download up t p i =
          Ok (Some (mkDataFrame (DatetimeIndex tz st) cols rws)) ->
        st <> [] -> cols <> [] ->
        fetch_intraday_history up t p i =
          Ok (mkDataFrame (DatetimeIndex (Some America_New_York) st) cols rws))
  /\ (forall (db : tzinfo -> Z -> Z) up1 up2 t p i z st cols rws,
        yf_download up1 t p i =
          Ok (Some (mkDataFrame (DatetimeIndex None st) cols rws)) ->
        yf_download up2 t p i =
          Ok (Some (mkDataFrame (DatetimeIndex (Some z) st) cols rws)) ->
        st <> [] -> cols <> [] ->
        exists df1 df2,
          fetch_intraday_history up1 t p i = Ok df1
          /\ fetch_intraday_history up2 t p i = Ok df2
          /\ df1 = df2
          /\ utcoffsets db (index df1) = utcoffsets db (index df2)
          /\ utcoffsets db (index df1) =
               map (fun x => Some (db America_New_York x)) st).
Proof.
  split; [exact fetch_history_normalized|].
  split; [exact fetch_history_rows|].
  intros db up1 up2 t p i z st cols rws H1 H2 Hs Hc.
  eexists _, _.
  split; [exact (fetch_history_rows _ _ _ _ _ _ _ _ H1 Hs Hc)|].
  split; [exact (fetch_history_rows _ _ _ _ _ _ _ _ H2 Hs Hc)|].
  repeat split; reflexivity.
Qed.

(** C8. When the provider answers [None] or a frame with an empty axis,
    [fetch_intraday_history] returns the empty frame [pd.DataFrame()] and
    does not raise; a provider exception is a different outcome: it is
    raised, not turned into the empty frame. *)
Theorem no_rows_gives_empty_frame :
  (forall up t p i,
     yf_download up t p i = Ok None ->
     fetch_intraday_history up t p i = Ok pd_DataFrame)
  /\ (forall up t p i df,
        yf_download up t p i = Ok (Some df) -> df_empty df = true ->
        fetch_intraday_history up t p i = Ok pd_DataFrame)
  /\ df_empty pd_DataFrame = true
  /\ (forall up t p i e,
        yf_download up t p i = Raise e ->
        fetch_intraday_history up t p i <> Ok pd_DataFrame).
Proof.
  split; [exact fetch_history_none|].
  split; [exact fetch_history_empty|].
  split; [reflexivity|].
  intros up t p i e H. now rewrite (fetch_history_raise _ _ _ _ _ H).
Qed.

(** ** The TTL memoisation *)

Section Memo.
Context {K V : Type} `{Countable K}.
Implicit Types (m : memo K V) (k : K) (f : K -> result V).

Lemma cache_data_hit ttl f now k m v :
  cache_hit ttl now k m = Some v -> cache_data ttl f now k m = (Ok v, m).
Proof. intros Hh. unfold cache_data. now rewrite Hh. Qed.

Lemma cache_data_miss ttl f now k m v :
  cache_hit ttl now k m = None -> f k = Ok v ->
  cache_data ttl f now k m =
    (Ok v, {| store := <[k := mkEntry v now]> (store m);
              calls := calls m ++ [(now, k)] |}).
Proof. intros Hh Hf. unfold cache_data. now rewrite Hh, Hf. Qed.

Lemma cache_data_miss_raise ttl f now k m e :
  cache_hit ttl now k m = None -> f k = Raise e ->
  cache_data ttl f now k m =
    (Raise e, {| store := store m; calls := calls m ++ [(now, k)] |}).
Proof. intros Hh Hf. unfold cache_data. now rewrite Hh, Hf. Qed.

Lemma cache_hit_fresh ttl now k m e :
  store m !! k = Some e -> now - stored_at e < ttl ->
  cache_hit ttl now k m = Some (value e).
Proof.
  intros He Hf. unfold cache_hit, is_fresh. rewrite He.
  now rewrite (proj2 (Z.ltb_lt _ _) Hf).
Qed.

Lemma cache_hit_stale ttl now k m e :
  store m !! k = Some e -> ttl <= now - stored_at e ->
  cache_hit ttl now k m = None.
Proof.
  intros He Hf. unfold cache_hit, is_fresh. rewrite He.
  now rewrite (proj2 (Z.ltb_ge _ _) Hf).
Qed.

Lemma cache_hit_absent ttl now k m :
  store m !! k = None -> cache_hit ttl now k m = None.
Proof. intros He. unfold cache_hit. now rewrite He. Qed.

(** A call touches the entry of its own key only. *)
Lemma cache_data_frame ttl f now k k' m :
  k' <> k -> store (cache_data ttl f now k m).2 !! k' = store m !! k'.
Proof.
  intros Hne. unfold cache_data.
  destruct (cache_hit ttl now k m); [reflexivity|].
  destruct (f k); cbn; [|reflexivity].
  now rewrite lookup_insert_ne.
Qed.

(** An entry that is valid at both call times answers both calls, and the
    decorated function does not run. *)
Lemma cache_data_fresh_twice ttl f1 f2 t1 t2 k m e :
  store m !! k = Some e ->
  t1 - stored_at e < ttl -> t2 - stored_at e < ttl ->
  cache_data ttl f1 t1 k m = (Ok (value e), m)
  /\ cache_data ttl f2 t2 k (cache_data ttl f1 t1 k m).2 = (Ok (value e), m).
Proof.
  intros He H1 H2.
  rewrite (cache_data_hit ttl f1 t1 k m (value e)) by now apply cache_hit_fresh.
  split; [reflexivity|]. cbn [snd].
  apply cache_data_hit. now apply cache_hit_fresh.
Qed.

Lemma runs_cache_data ttl f now k m :
  (runs (cache_data ttl f now k m).2 <= S (runs m))%nat.
Proof.
  unfold cache_data, runs.
  destruct (cache_hit ttl now k m); cbn; [lia|].
  destruct (f k); cbn; rewrite length_app; cbn; lia.
Qed.

(** After a call that returned, a second call less than [ttl] later is a
    hit: it returns the same value and runs nothing. *)
Lemma cache_data_second_hit ttl f1 f2 t1 t2 k m v :
  (cache_data ttl f1 t1 k m).1 = Ok v ->
  cache_hit ttl t1 k m = None -> t2 - t1 < ttl ->
  cache_data ttl f2 t2 k (cache_data ttl f1 t1 k m).2 =
    (Ok v, (cache_data ttl f1 t1 k m).2).
Proof.
  intros Hr Hm Ht. destruct (f1 k) as [v'|e] eqn:Hf.
  - rewrite (cache_data_miss ttl f1 t1 k m v' Hm Hf) in Hr |- *.
    cbn [fst snd] in Hr |- *. injection Hr as ->. apply cache_data_hit.
    apply (cache_hit_fresh ttl t2 k _ (mkEntry v t1)); [|exact Ht].
    cbn [store]. apply lookup_insert_eq.
  - rewrite (cache_data_miss_raise ttl f1 t1 k m e Hm Hf) in Hr. discriminate.
Qed.

(** Two calls less than [ttl] apart, the first one returning: the decorated
    function runs at most once over both. *)
Lemma cache_data_twice ttl f1 f2 t1 t2 k m :
  returns (cache_data ttl f1 t1 k m).1 = true -> t2 - t1 < ttl ->
  (runs (cache_data ttl f2 t2 k (cache_data ttl f1 t1 k m).2).2 <= S (runs m))%nat.
Proof.
  intros Hr Ht.
  destruct (cache_hit ttl t1 k m) as [v|] eqn:Hh.
  - rewrite (cache_data_hit ttl f1 t1 k m v Hh). apply runs_cache_data.
  - destruct (cache_data ttl f1 t1 k m).1 as [v|e] eqn:Hv; [|discriminate].
    rewrite (cache_data_second_hit ttl f1 f2 t1 t2 k m v Hv Hh Ht).
    cbn [snd]. apply runs_cache_data.
Qed.

End Memo.

(** ** The two decorated fetchers *)

Lemma cached_fetch_quote_returns up now t (m : memo string quote) :
  returns (cached_fetch_quote up now t m).1 = true.
Proof.
  unfold cached_fetch_quote, cache_data.
  destruct (cache_hit quote_ttl now t m); [reflexivity|].
  destruct (fetch_quote_returns up t) as [q ->]. reflexivity.
Qed.

(** C1, as the code has it. There is no stale fallback. When the key has
    no valid entry (none, or an expired one) and the quote fetch fails
    inside its [try] block, the decorated [fetch_quote] returns the fully
    unavailable quote and stores it under the ticker with the time of the
    call, in place of whatever was there; when the history provider answers
    no rows, the decorated [fetch_intraday_history] returns the empty frame
    and stores it under its (ticker, period, interval) key likewise. *)
Theorem failed_fetch_is_stored :
  (forall up now t (m : memo string quote),
     cache_hit quote_ttl now t m = None ->
     raises (fetch_quote_try up t) ->
     cached_fetch_quote up now t m =
       (Ok unavailable_quote,
        {| store := <[t := mkEntry unavailable_quote now]> (store m);
           calls := calls m ++ [(now, t)] |}))
  /\ (forall up now t p i (m : memo (string * string * string) DataFrame),
        cache_hit history_ttl now (t, p, i) m = None ->
        (yf_download up t p i = Ok None
         \/ exists df, yf_download up t p i = Ok (Some df) /\ df_empty df = true) ->
        cached_fetch_intraday_history up now t p i m =
          (Ok pd_DataFrame,
           {| store := <[(t, p, i) := mkEntry pd_DataFrame now]> (store m);
              calls := calls m ++ [(now, (t, p, i))] |}))
  /\ (forall {K V} `{Countable K} ttl now (k : K) (m : memo K V) e,
        store m !! k = Some e -> ttl <= now - stored_at e ->
        cache_hit ttl now k m = None).
Proof.
  split.
  { intros up now t m Hh Hr. unfold cached_fetch_quote.
    apply cache_data_miss; [exact Hh | now apply fetch_quote_failed]. }
  split.
  { intros up now t p i m Hh Hu. unfold cached_fetch_intraday_history.
    apply cache_data_miss; [exact Hh|]. cbn [fst snd].
    destruct Hu as [Hn | (df & Hd & He)].
    - now apply fetch_history_none.
    - now apply (fetch_history_empty up t p i df). }
  intros K V ? ? ttl now k m e. apply cache_hit_stale.
Qed.

Lemma tabs_loop_history_frame up now tks period interval its s
    (k : string * string * string) :
  (k.1.2, k.2) <> (period, interval) ->
  store (history_memo (tabs_loop up now tks period interval its s).2) !! k =
  store (history_memo s) !! k.
Proof.
  intros Hk. revert s. induction its as [|[i t] rest IH]; intros s; [reflexivity|].
  cbn [tabs_loop]. destruct (py_index tks i) as [tk|e]; [|reflexivity].
  pose proof (cache_data_frame history_ttl
    (fun k0 => fetch_intraday_history up k0.1.1 k0.1.2 k0.2)
    now (tk, period, interval) k (history_memo s)) as Hf.
  unfold cached_fetch_intraday_history.
  destruct (cache_data history_ttl _ now (tk, period, interval) (history_memo s))
    as [rdf hm] eqn:Hc.
  cbn [snd] in Hf.
  assert (store hm !! k = store (history_memo s) !! k) as Hhm.
  { apply Hf. intros ->. now apply Hk. }
  destruct rdf as [df|e]; [|exact Hhm].
  destruct (cached_fetch_quote up now tk (quote_memo s)) as [rq qm].
  destruct rq as [q|e]; [|exact Hhm].
  specialize (IH {| quote_memo := qm; history_memo := hm |}).
  destruct (tabs_loop up now tks period interval rest _) as [r s3].
  cbn [snd] in IH |- *. now rewrite IH.
Qed.

Lemma script_run_history_frame up now w r chart s
    (k : string * string * string) :
  (k.1.2, k.2) <> range_map chart ->
  store (history_memo (script_run up now w r chart s).2) !! k =
  store (history_memo s) !! k.
Proof.
  intros Hk. unfold script_run.
  destruct (range_map chart) as [period interval].
  destruct (tickers w) as [|t0 tks0] eqn:Ht; [reflexivity|].
  destruct (top_metrics_grid up now (t0 :: tks0) (quote_memo s)) as [rg qm].
  destruct rg as [grid|e]; [|reflexivity].
  destruct (st_tabs (t0 :: tks0)) as [tabs|e]; [|reflexivity].
  pose proof (tabs_loop_history_frame up now (t0 :: tks0) period interval
    (enumerate tabs) {| quote_memo := qm; history_memo := history_memo s |} k Hk)
    as Hf.
  destruct (tabs_loop up now (t0 :: tks0) period interval (enumerate tabs) _)
    as [rt s2].
  cbn [snd history_memo] in Hf. destruct rt; exact Hf.
Qed.

(** C7. The history store is keyed by the triple (ticker, period,
    interval): a call changes no entry under another triple. The two chart
    presets map to different (period, interval) pairs, so a fetch for the
    Candlestick preset, and a whole run of the script in Candlestick mode,
    leaves every entry of the Line preset as it was, for every ticker. *)
Theorem history_cache_keyed_by_triple :
  (forall up now t p i (k : string * string * string)
          (m : memo (string * string * string) DataFrame),
     k <> (t, p, i) ->
     store (cached_fetch_intraday_history up now t p i m).2 !! k = store m !! k)
  /\ range_map Line_1m = ("1d", "1m")%string
  /\ range_map Candlestick_5m = ("5d", "5m")%string
  /\ (forall up now t t' (m : memo (string * string * string) DataFrame),
        store (cached_fetch_intraday_history up now t
                 (range_map Candlestick_5m).1 (range_map Candlestick_5m).2 m).2
          !! (t', (range_map Line_1m).1, (range_map Line_1m).2) =
        store m !! (t', (range_map Line_1m).1, (range_map Line_1m).2))
  /\ (forall up now w r s t',
        store (history_memo (script_run up now w r Candlestick_5m s).2)
          !! (t', (range_map Line_1m).1, (range_map Line_1m).2) =
        store (history_memo s)
          !! (t', (range_map Line_1m).1, (range_map Line_1m).2)).
Proof.
  split.
  { intros up now t p i k m Hk. unfold cached_fetch_intraday_history.
    now apply cache_data_frame. }
  split; [reflexivity|]. split; [reflexivity|].
  split.
  { intros up now t t' m. unfold cached_fetch_intraday_history.
    apply cache_data_frame. cbn. congruence. }
  intros up now w r s t'. apply script_run_history_frame. cbn. congruence.
Qed.

Lemma script_page_at_refresh_sec fd w r r' chart st :
  (script_page_at fd w r chart st).2 = (script_page_at fd w r' chart st).2.
Proof.
  unfold script_page_at. destruct (tickers w) as [|t0 tks0]; [reflexivity|].
  destruct (top_metrics_grid_at fd (t0 :: tks0) st).1; [|reflexivity].
  destruct (st_tabs (t0 :: tks0)); [|reflexivity].
  destruct (tabs_loop_at fd (t0 :: tks0) _ _ chart _ _).1; reflexivity.
Qed.

(** C6. The time to live is 15 for quotes and 30 for history, the first
    strictly shorter. An entry that is valid at the times of two calls
    answers both, whatever the provider would answer, and the fetcher does
    not run. When a key has no valid entry, the call runs the fetcher (its
    answer is the fetcher's, and one run is logged) and stores what it
    returned; a second call less than one time to live later returns that
    same value, whatever the provider would answer then, and changes
    nothing: over the two calls the fetcher ran once. Two calls less than
    one time to live apart run the fetcher at most once: always for quotes,
    and for history whenever the first call returned. The refresh interval
    plays no part: a run of the script leaves the same stores and the same
    log of fetcher runs whatever [refresh_sec] is. *)
Theorem cache_hit_within_ttl :
  quote_ttl = 15 /\ history_ttl = 30 /\ quote_ttl < history_ttl
  /\ (forall up1 up2 t1 t2 t (m : memo string quote) e,
        store m !! t = Some e ->
        t1 - stored_at e < quote_ttl -> t2 - stored_at e < quote_ttl ->
        cached_fetch_quote up1 t1 t m = (Ok (value e), m)
        /\ cached_fetch_quote up2 t2 t (cached_fetch_quote up1 t1 t m).2 =
             (Ok (value e), m))
  /\ (forall up1 up2 t1 t2 t p i
             (m : memo (string * string * string) DataFrame) e,
        store m !! (t, p, i) = Some e ->
        t1 - stored_at e < history_ttl -> t2 - stored_at e < history_ttl ->
        cached_fetch_intraday_history up1 t1 t p i m = (Ok (value e), m)
        /\ cached_fetch_intraday_history up2 t2 t p i
             (cached_fetch_intraday_history up1 t1 t p i m).2 =
             (Ok (value e), m))
  /\ (forall up1 up2 t1 t2 t (m : memo string quote),
        t2 - t1 < quote_ttl ->
        (runs (cached_fetch_quote up2 t2 t (cached_fetch_quote up1 t1 t m).2).2
         <= S (runs m))%nat)
  /\ (forall up1 up2 t1 t2 t p i
             (m : memo (string * string * string) DataFrame),
        returns (cached_fetch_intraday_history up1 t1 t p i m).1 = true ->
        t2 - t1 < history_ttl ->
        (runs (cached_fetch_intraday_history up2 t2 t p i
                 (cached_fetch_intraday_history up1 t1 t p i m).2).2
         <= S (runs m))%nat)
  /\ (forall up1 up2 t1 t2 t (m : memo string quote),
        cache_hit quote_ttl t1 t m = None -> t2 - t1 < quote_ttl ->
        exists q,
          fetch_quote up1 t = Ok q
          /\ cached_fetch_quote up1 t1 t m =
               (Ok q, {| store := <[t := mkEntry q t1]> (store m);
                         calls := calls m ++ [(t1, t)] |})
          /\ cached_fetch_quote up2 t2 t (cached_fetch_quote up1 t1 t m).2 =
               (Ok q, (cached_fetch_quote up1 t1 t m).2))
  /\ (forall up1 up2 t1 t2 t p i
             (m : memo (string * string * string) DataFrame) df,
        cache_hit history_ttl t1 (t, p, i) m = None ->
        fetch_intraday_history up1 t p i = Ok df -> t2 - t1 < history_ttl ->
        cached_fetch_intraday_history up1 t1 t p i m =
          (Ok df, {| store := <[(t, p, i) := mkEntry df t1]> (store m);
                     calls := calls m ++ [(t1, (t, p, i))] |})
        /\ cached_fetch_intraday_history up2 t2 t p i
             (cached_fetch_intraday_history up1 t1 t p i m).2 =
             (Ok df, (cached_fetch_intraday_history up1 t1 t p i m).2))
  /\ (forall up now t (m : memo string quote),
        cache_hit quote_ttl now t m = None ->
        (cached_fetch_quote up now t m).1 = fetch_quote up t
        /\ calls (cached_fetch_quote up now t m).2 = calls m ++ [(now, t)])
  /\ (forall up now t p i (m : memo (string * string * string) DataFrame),
        cache_hit history_ttl now (t, p, i) m = None ->
        (cached_fetch_intraday_history up now t p i m).1
          = fetch_intraday_history up t p i
        /\ calls (cached_fetch_intraday_history up now t p i m).2
           = calls m ++ [(now, (t, p, i))])
  /\ (forall fd w r r' chart st,
        (script_page_at fd w r chart st).2 = (script_page_at fd w r' chart st).2).
Proof.
  split; [reflexivity|]. split; [reflexivity|]. split; [reflexivity|].
  split.
  { intros up1 up2 t1 t2 t m e. unfold cached_fetch_quote.
    apply cache_data_fresh_twice. }
  split.
  { intros up1 up2 t1 t2 t p i m e. unfold cached_fetch_intraday_history.
    apply cache_data_fresh_twice. }
  split.
  { intros up1 up2 t1 t2 t m Ht. unfold cached_fetch_quote.
    apply cache_data_twice; [|exact Ht]. apply cached_fetch_quote_returns. }
  split.
  { intros up1 up2 t1 t2 t p i m Hr Ht. unfold cached_fetch_intraday_history.
    now apply cache_data_twice. }
  split.
  { intros up1 up2 t1 t2 t m Hm Ht.
    destruct (fetch_quote_returns up1 t) as [q Hq]. exists q.
    split; [exact Hq|]. unfold cached_fetch_quote.
    pose proof (cache_data_miss quote_ttl (fetch_quote up1) t1 t m q Hm Hq) as H1.
    split; [exact H1|].
    apply cache_data_second_hit; [now rewrite H1 | exact Hm | exact Ht]. }
  split.
  { intros up1 up2 t1 t2 t p i m df Hm Hf Ht.
    unfold cached_fetch_intraday_history.
    pose proof (cache_data_miss history_ttl
                  (fun k => fetch_intraday_history up1 k.1.1 k.1.2 k.2)
                  t1 (t, p, i) m df Hm Hf) as H1.
    split; [exact H1|].
    apply cache_data_second_hit; [now rewrite H1 | exact Hm | exact Ht]. }
  split.
  { intros up now t m Hm. unfold cached_fetch_quote, cache_data. rewrite Hm.
    destruct (fetch_quote up t); split; reflexivity. }
  split.
  { intros up now t p i m Hm. unfold cached_fetch_intraday_history, cache_data.
    rewrite Hm. cbn [fst snd].
    destruct (fetch_intraday_history up t p i); split; reflexivity. }
  exact script_page_at_refresh_sec.
Qed.

(** ** Top metrics grid *)

Lemma enumerate_lookup {A} (l : list A) (j : nat) :
  enumerate l !! j = pair j <$> l !! j.
Proof. unfold enumerate. apply list_lookup_imap. Qed.

Lemma enumerate_snd {A} (l : list A) : snd <$> enumerate l = l.
Proof.
  apply list_eq. intros j. rewrite list_lookup_fmap, enumerate_lookup.
  now destruct (l !! j).
Qed.

Lemma enumerate_fst {A} (l : list A) : fst <$> enumerate l = seq 0 (length l).
Proof.
  apply list_eq. intros j. rewrite list_lookup_fmap, enumerate_lookup.
  destruct (l !! j) as [x|] eqn:Hj; cbn.
  - symmetry. apply lookup_seq_lt. now apply lookup_lt_Some in Hj.
  - symmetry. apply lookup_seq_ge. now apply lookup_ge_None in Hj.
Qed.

Lemma enumerate_index_bound {A} (l : list A) :
  Forall (fun it => (it.1 < length l)%nat) (enumerate l).
Proof.
  apply Forall_lookup. intros j [i x]. rewrite enumerate_lookup.
  destruct (l !! j) as [y|] eqn:Hj; cbn; [|discriminate].
  intros [= <- <-]. cbn. now apply lookup_lt_Some in Hj.
Qed.

Lemma py_index_seq (n i : nat) : (i < n)%nat -> py_index (seq 0 n) i = Ok i.
Proof. intros Hi. unfold py_index. now rewrite lookup_seq_lt. Qed.

Lemma metric_cell_ok (n i : nat) (t : string) (q : quote) :
  (i mod 4 < n)%nat ->
  exists c, metric_cell (seq 0 n) i t q = Ok c
            /\ m_column c = (i mod 4)%nat /\ m_ticker c = t.
Proof.
  intros Hi. unfold metric_cell.
  destruct (pct_change_floats_return (last_price q) (previous_close q)) as [v ->].
  cbn [rbind]. rewrite (py_index_seq n _ Hi). cbn [rbind].
  eexists. split; [reflexivity|]. split; reflexivity.
Qed.

Lemma metrics_loop_ok up now (n : nat) (its : list (nat * string))
    (m : memo string quote) :
  Forall (fun it => (it.1 mod 4 < n)%nat) its ->
  exists ms, (metrics_loop up now (seq 0 n) its m).1 = Ok ms
             /\ m_ticker <$> ms = snd <$> its
             /\ m_column <$> ms = (fun it => (it.1 mod 4)%nat) <$> its.
Proof.
  intros Hall. revert m. induction Hall as [|[i t] rest Hi Hrest IH]; intros m.
  - exists []. repeat split; reflexivity.
  - cbn [metrics_loop].
    pose proof (cached_fetch_quote_returns up now t m) as Hq.
    destruct (cached_fetch_quote up now t m) as [[q|e] m1]; [|discriminate].
    cbn [rbind]. cbn [fst] in Hi.
    destruct (metric_cell_ok n i t q Hi) as (c & -> & Hcol & Htk).
    destruct (IH m1) as (ms & Hms & Ht & Hc).
    destruct (metrics_loop up now (seq 0 n) rest m1) as [r m2].
    cbn [fst] in Hms. subst r. exists (c :: ms).
    split; [reflexivity|]. rewrite !fmap_cons. cbn [fst snd].
    now rewrite Hcol, Htk, Ht, Hc.
Qed.


(** ** Calls at one clock reading

    Facts about calls that are all made at the same time [now]. *)

Section MemoRun.
Context {K V : Type} `{Countable K}.
Variables (ttl now : Z) (f : K -> result V).
Hypothesis ttl_pos : 0 < ttl.

Lemma cache_hit_other k k' m :
  k' <> k ->
  cache_hit ttl now k' (cache_data ttl f now k m).2 = cache_hit ttl now k' m.
Proof. intros Hne. unfold cache_hit. now rewrite cache_data_frame. Qed.

(** What a call returned is what the store then holds for its key. *)
Lemma cache_data_result_cached k m v :
  (cache_data ttl f now k m).1 = Ok v ->
  cache_hit ttl now k (cache_data ttl f now k m).2 = Some v.
Proof.
  intros Hr. destruct (cache_hit ttl now k m) as [v0|] eqn:Hh.
  - rewrite (cache_data_hit ttl f now k m v0 Hh) in Hr |- *.
    cbn [fst snd] in *. congruence.
  - destruct (f k) as [v'|e] eqn:Hf.
    + rewrite (cache_data_miss ttl f now k m v' Hh Hf) in Hr |- *.
      cbn [fst snd] in *. injection Hr as ->.
      apply (cache_hit_fresh ttl now k _ (mkEntry v now)).
      * cbn [store]. apply lookup_insert_eq.
      * cbn [stored_at]. lia.
    + rewrite (cache_data_miss_raise ttl f now k m e Hh Hf) in Hr. discriminate.
Qed.

(** A valid entry survives every later call at the same time. *)
Lemma cache_hit_kept k k' m v :
  cache_hit ttl now k' m = Some v ->
  cache_hit ttl now k' (cache_data ttl f now k m).2 = Some v.
Proof.
  intros Hh. destruct (decide (k' = k)) as [->|Hne].
  - now rewrite (cache_data_hit ttl f now k m v Hh).
  - now rewrite cache_hit_other.
Qed.

End MemoRun.

(** ** Drawing a tab *)

(** The columns the chart of each type reads, in the order it reads them. *)
Definition needed_columns (chart : chart_type) : list string :=
  match chart with
  | Line_1m => ["Close"]%string
  | Candlestick_5m => ["Open"; "High"; "Low"; "Close"]%string
  end.

Lemma column_position_None (c : string) (cols : list string) :
  column_position c cols = None <-> c ∉ cols.
Proof.
  clear float_of_str. induction cols as [|c' rest IH]; cbn.
  - split; [intros _ Hin; inversion Hin | reflexivity].
  - destruct (String.eqb_spec c c') as [->|Hne].
    + split; [discriminate|]. intros Hn. exfalso. apply Hn. constructor.
    + rewrite fmap_None, IH, not_elem_of_cons. tauto.
Qed.

Lemma df_getitem_present (df : DataFrame) (c : string) :
  c ∈ columns df -> exists v, df_getitem df c = Done v.
Proof.
  intros Hin. unfold df_getitem.
  destruct (column_position c (columns df)) as [j|] eqn:Hp; [eauto|].
  apply column_position_None in Hp. contradiction.
Qed.

Lemma df_getitem_missing (df : DataFrame) (c : string) :
  c ∉ columns df -> df_getitem df c = Failed (KeyError c).
Proof.
  intros Hn. unfold df_getitem.
  now rewrite (proj2 (column_position_None c (columns df)) Hn).
Qed.

Lemma label_count_zero (c : string) (cols : list string) :
  label_count c cols = 0%nat <-> c ∉ cols.
Proof.
  clear float_of_str. induction cols as [|c' rest IH]; cbn [label_count].
  - split; [intros _ Hin; inversion Hin | reflexivity].
  - rewrite not_elem_of_cons. destruct (String.eqb_spec c c') as [->|Hne].
    + split; [discriminate | intros [Hn _]; now contradiction Hn].
    + rewrite Nat.add_0_l, IH. split; [now split | now intros [_ H]].
Qed.

Lemma label_count_NoDup (c : string) (cols : list string) :
  NoDup cols -> (label_count c cols <= 1)%nat.
Proof.
  clear float_of_str. induction 1 as [|c' rest Hn _ IH]; cbn [label_count]; [lia|].
  destruct (String.eqb_spec c c') as [->|Hne]; [|lia].
  apply label_count_zero in Hn. lia.
Qed.

Lemma df_getitem_done_inv (df : DataFrame) (c : string) (v : list float) :
  df_getitem df c = Done v -> c ∈ columns df.
Proof.
  intros Hd. destruct (decide (c ∈ columns df)) as [Hin|Hn]; [exact Hin|].
  rewrite (df_getitem_missing df c Hn) in Hd. discriminate.
Qed.

(** The volume bars are drawn or left out when at most one column is
    labelled [Volume]; with more the tab fails. *)
Lemma volume_chart_cases (df : DataFrame) :
  ((label_count "Volume" (columns df) <= 1)%nat
   /\ exists v, volume_chart df = Done v
                /\ (v = [] \/ exists y, v = [Bar (index df) y]))
  \/ ((2 <= label_count "Volume" (columns df))%nat
      /\ volume_chart df = Failed (Uncaught ValueError)).
Proof.
  unfold volume_chart.
  destruct (label_count "Volume" (columns df)) as [|[|n]] eqn:Hc.
  - left. split; [lia|]. eauto.
  - left. split; [lia|].
    destruct (df_getitem_present df "Volume") as [y ->].
    { destruct (decide ("Volume"%string ∈ columns df)) as [Hin|Hn]; [exact Hin|].
      apply label_count_zero in Hn. rewrite Hn in Hc. discriminate. }
    cbn [abind]. destruct (forallb PrimFloat.is_nan y); eauto.
  - right. split; [lia | reflexivity].
Qed.

Lemma main_chart_done (chart : chart_type) (df : DataFrame) :
  (forall c, c ∈ needed_columns chart -> c ∈ columns df) ->
  exists m, main_chart chart df = Done m
            /\ match m with
               | Scatter x _ | Candlestick x _ _ _ _ => x = index df
               | _ => False
               end.
Proof.
  intros Hall. unfold main_chart. destruct chart; cbn [needed_columns] in Hall.
  - destruct (df_getitem_present df "Close") as [y ->]; [apply Hall; set_solver|].
    cbn [abind]. eexists. split; reflexivity.
  - destruct (df_getitem_present df "Open") as [o ->]; [apply Hall; set_solver|].
    destruct (df_getitem_present df "High") as [h ->]; [apply Hall; set_solver|].
    destruct (df_getitem_present df "Low") as [l ->]; [apply Hall; set_solver|].
    destruct (df_getitem_present df "Close") as [c ->]; [apply Hall; set_solver|].
    cbn [abind]. eexists. split; reflexivity.
Qed.

Lemma main_chart_failed (chart : chart_type) (df : DataFrame) (fl : failure) :
  main_chart chart df = Failed fl ->
  exists c, fl = KeyError c /\ c ∈ needed_columns chart /\ c ∉ columns df.
Proof.
  unfold main_chart. destruct chart; cbn [needed_columns].
  - destruct (decide ("Close"%string ∈ columns df)) as [Hin|Hn].
    + destruct (df_getitem_present df _ Hin) as [y ->]. discriminate.
    + rewrite (df_getitem_missing df _ Hn). intros [= <-].
      exists "Close"%string. split; [reflexivity|]. split; [set_solver | exact Hn].
  - destruct (decide ("Open"%string ∈ columns df)) as [Ho|Hn];
      [destruct (df_getitem_present df _ Ho) as [o ->]; cbn [abind]
      | rewrite (df_getitem_missing df _ Hn); intros [= <-];
        exists "Open"%string; split; [reflexivity|]; split; [set_solver | exact Hn]].
    destruct (decide ("High"%string ∈ columns df)) as [Hh|Hn];
      [destruct (df_getitem_present df _ Hh) as [h ->]; cbn [abind]
      | rewrite (df_getitem_missing df _ Hn); intros [= <-];
        exists "High"%string; split; [reflexivity|]; split; [set_solver | exact Hn]].
    destruct (decide ("Low"%string ∈ columns df)) as [Hl|Hn];
      [destruct (df_getitem_present df _ Hl) as [l ->]; cbn [abind]
      | rewrite (df_getitem_missing df _ Hn); intros [= <-];
        exists "Low"%string; split; [reflexivity|]; split; [set_solver | exact Hn]].
    destruct (decide ("Close"%string ∈ columns df)) as [Hc|Hn];
      [destruct (df_getitem_present df _ Hc) as [c ->]; discriminate
      | rewrite (df_getitem_missing df _ Hn); intros [= <-];
        exists "Close"%string; split; [reflexivity|]; split; [set_solver | exact Hn]].
Qed.

Lemma main_chart_done_inv (chart : chart_type) (df : DataFrame) (m : widget) :
  main_chart chart df = Done m ->
  forall c, c ∈ needed_columns chart -> c ∈ columns df.
Proof.
  unfold main_chart. destruct chart; cbn [needed_columns].
  - destruct (df_getitem df "Close") as [y|fl] eqn:Hy; [|discriminate].
    intros _ c Hc. apply list_elem_of_singleton in Hc as ->.
    now apply df_getitem_done_inv in Hy.
  - destruct (df_getitem df "Open") as [o|fl] eqn:Ho; [|discriminate].
    destruct (df_getitem df "High") as [h|fl] eqn:Hh; [|discriminate].
    destruct (df_getitem df "Low") as [l|fl] eqn:Hl; [|discriminate].
    destruct (df_getitem df "Close") as [c0|fl] eqn:Hc0; [|discriminate].
    apply df_getitem_done_inv in Ho, Hh, Hl, Hc0.
    intros _ c Hc. repeat (apply elem_of_cons in Hc as [->|Hc]; [assumption|]).
    inversion Hc.
Qed.

(** A missing chart column makes the chart fail with a [KeyError]. *)
Lemma main_chart_missing (chart : chart_type) (df : DataFrame) (c : string) :
  c ∈ needed_columns chart -> c ∉ columns df ->
  exists c', main_chart chart df = Failed (KeyError c')
             /\ c' ∈ needed_columns chart /\ c' ∉ columns df.
Proof.
  intros Hc Hn. destruct (main_chart chart df) as [m|fl] eqn:Hm.
  - exfalso. apply Hn. now apply (main_chart_done_inv chart df m Hm).
  - destruct (main_chart_failed chart df fl Hm) as (c' & -> & Hc' & Hn').
    now exists c'.
Qed.

Lemma charts_failed (chart : chart_type) (df : DataFrame) (fl : failure) :
  charts chart df = Failed fl ->
  df_empty df = false
  /\ ((exists c, fl = KeyError c /\ c ∈ needed_columns chart /\ c ∉ columns df)
      \/ (fl = Uncaught ValueError
          /\ (2 <= label_count "Volume" (columns df))%nat)).
Proof.
  unfold charts. destruct (df_empty df); [discriminate|].
  destruct (main_chart chart df) as [m|fl'] eqn:Hm; cbn [abind].
  - destruct (volume_chart_cases df) as [(_ & v & -> & _)|[Hc ->]]; [discriminate|].
    cbn [abind]. intros [= <-]. split; [reflexivity|]. right. now split.
  - intros [= <-]. split; [reflexivity|]. left. now apply main_chart_failed.
Qed.

(** The index a chart is drawn against. *)
Definition widget_x (w : widget) : option Index :=
  match w with
  | Scatter x _ | Candlestick x _ _ _ _ | Bar x _ => Some x
  | _ => None
  end.

(** X9. An empty frame is drawn as the "no data" message for either
    chart type and never fails. For a non-empty frame: if it lacks a column
    that the chart reads ([Close] for the line chart; [Open], [High],
    [Low], [Close] for the candlestick chart) the tab fails with a
    [KeyError] on such a column; if its labels are distinct and it has the
    columns the chart reads, what is drawn is the chart, followed by at
    most one volume bar chart, all against the frame's own index, a
    missing [Volume] column being no error; and with distinct labels a
    [KeyError] on a missing chart column is the only way the charts
    fail. *)
Theorem charts_need_their_columns :
  forall (chart : chart_type) (df : DataFrame),
    (df_empty df = true -> charts chart df = Done [Info])
    /\ (df_empty df = false ->
        forall c, c ∈ needed_columns chart -> c ∉ columns df ->
        exists c', charts chart df = Failed (KeyError c')
                   /\ c' ∈ needed_columns chart /\ c' ∉ columns df)
    /\ (df_empty df = false -> NoDup (columns df) ->
        (forall c, c ∈ needed_columns chart -> c ∈ columns df) ->
        exists m v,
          charts chart df = Done (m :: v)
          /\ widget_x m = Some (index df)
          /\ (v = [] \/ exists y, v = [Bar (index df) y]))
    /\ (NoDup (columns df) ->
        forall fl,
          charts chart df = Failed fl ->
          df_empty df = false
          /\ exists c, fl = KeyError c /\ c ∈ needed_columns chart /\ c ∉ columns df).
Proof.
  intros chart df. split; [|split; [|split]].
  - intros He. unfold charts. now rewrite He.
  - intros He c Hc Hn. unfold charts. rewrite He.
    destruct (main_chart_missing chart df c Hc Hn) as (c' & -> & Hc' & Hn').
    now exists c'.
  - intros He Hnd Hall. unfold charts. rewrite He.
    destruct (main_chart_done chart df Hall) as (m & -> & Hx).
    pose proof (label_count_NoDup "Volume" (columns df) Hnd) as Hle.
    destruct (volume_chart_cases df) as [(_ & v & -> & Hv)|[Hc _]]; [|lia].
    cbn [abind]. exists m, v. split; [reflexivity|]. split; [|exact Hv].
    destruct m; try contradiction; cbn; now rewrite Hx.
  - intros Hnd fl Hf. destruct (charts_failed chart df fl Hf) as [He [Hk|[_ Hc]]].
    + now split.
    + pose proof (label_count_NoDup "Volume" (columns df) Hnd). lia.
Qed.

(** X10. Every chart drawn from a frame that [fetch_intraday_history]
    returned has an index in America/New_York on its time axis, as the
    caption under the charts says. *)
Theorem fetched_charts_in_new_york :
  forall up t p i (chart : chart_type) (df : DataFrame) (ws : list widget) (w : widget)
         (x : Index),
    fetch_intraday_history up t p i = Ok df ->
    charts chart df = Done ws -> w ∈ ws -> widget_x w = Some x ->
    exists st, x = DatetimeIndex (Some America_New_York) st.
Proof.
  intros up t p i chart df ws w x Hf Hc Hw Hx.
  destruct (df_empty df) eqn:He.
  - unfold charts in Hc. rewrite He in Hc. injection Hc as <-.
    apply list_elem_of_singleton in Hw as ->. discriminate.
  - destruct (fetch_history_normalized up t p i df Hf He) as [st Hi].
    exists st. rewrite <- Hi. unfold charts in Hc. rewrite He in Hc.
    destruct (main_chart chart df) as [m|fl] eqn:Hm; [|discriminate].
    cbn [abind] in Hc.
    destruct (volume_chart_cases df) as [(_ & v & Hv & Hvs)|[_ Hv]];
      rewrite Hv in Hc; cbn [abind] in Hc; [|discriminate].
    injection Hc as <-.
    apply elem_of_cons in Hw as [->|Hw].
    + unfold main_chart in Hm. destruct chart.
      * destruct (df_getitem df "Close"); [|discriminate].
        injection Hm as <-. cbn in Hx. congruence.
      * destruct (df_getitem df "Open"); [|discriminate].
        destruct (df_getitem df "High"); [|discriminate].
        destruct (df_getitem df "Low"); [|discriminate].
        destruct (df_getitem df "Close"); [|discriminate].
        injection Hm as <-. cbn in Hx. congruence.
    + destruct Hvs as [->|[y ->]]; [inversion Hw|].
      apply list_elem_of_singleton in Hw as ->. cbn in Hx. congruence.
Qed.

(** ** One run: what the two loops do to the stores *)

(** The function under the [fetch_intraday_history] decorator, by key. *)
Definition history_by_key (up : provider) (k : string * string * string)
    : result DataFrame :=
  fetch_intraday_history up k.1.1 k.1.2 k.2.

Lemma cache_data_raise_inv {K V} `{Countable K} ttl (f : K -> result V) now k
    (m : memo K V) e :
  (cache_data ttl f now k m).1 = Raise e -> f k = Raise e.
Proof.
  unfold cache_data. destruct (cache_hit ttl now k m); [discriminate|].
  destruct (f k); cbn; [discriminate | congruence].
Qed.

(** A property of every stored value. *)
Definition store_forall {K V} `{Countable K} (P : V -> Prop) (m : memo K V) : Prop :=
  forall k e, store m !! k = Some e -> P (value e).

Lemma cache_data_store_forall {K V} `{Countable K} (P : V -> Prop) ttl
    (f : K -> result V) now k (m : memo K V) :
  store_forall P m -> (forall v, f k = Ok v -> P v) ->
  store_forall P (cache_data ttl f now k m).2.
Proof.
  intros Hm Hf. unfold cache_data.
  destruct (cache_hit ttl now k m); [exact Hm|].
  destruct (f k) as [v|e] eqn:Hv; cbn [snd]; [|exact Hm].
  intros k' e'. cbn [store]. destruct (decide (k = k')) as [<-|Hne].
  - rewrite lookup_insert_eq. intros [= <-]. now apply Hf.
  - rewrite lookup_insert_ne by exact Hne. apply Hm.
Qed.

Lemma cache_hit_stored {K V} `{Countable K} ttl now k (m : memo K V) v :
  cache_hit ttl now k m = Some v -> exists e, store m !! k = Some e /\ value e = v.
Proof.
  unfold cache_hit. destruct (store m !! k) as [e|]; [|discriminate].
  destruct (is_fresh ttl now e); [|discriminate]. intros [= <-]. now exists e.
Qed.

Lemma quote_ttl_pos : 0 < quote_ttl.
Proof. reflexivity. Qed.

Lemma history_ttl_pos : 0 < history_ttl.
Proof. reflexivity. Qed.

Lemma enumerate_elem {A} (l : list A) (it : nat * A) :
  it ∈ enumerate l -> l !! it.1 = Some it.2.
Proof.
  intros Hin. apply list_elem_of_lookup in Hin as [j Hj].
  rewrite enumerate_lookup in Hj. destruct (l !! j) as [x|] eqn:Hl; [|discriminate].
  cbn in Hj. injection Hj as <-. exact Hl.
Qed.

Lemma py_index_elem {A} (l : list A) (i : nat) (x : A) :
  py_index l i = Ok x -> l !! i = Some x.
Proof. unfold py_index. destruct (l !! i); [congruence | discriminate]. Qed.

Lemma metric_cell_fields cols i t q c :
  metric_cell cols i t q = Ok c -> m_ticker c = t /\ m_quote c = q.
Proof.
  unfold metric_cell.
  destruct (pct_change _ _); cbn [rbind]; [|discriminate].
  destruct (py_index cols _); cbn [rbind]; [|discriminate].
  intros [= <-]. split; reflexivity.
Qed.

Section Run.
Variables (up : provider) (now : Z).

Lemma metrics_loop_kept cols its (m : memo string quote) k v :
  cache_hit quote_ttl now k m = Some v ->
  cache_hit quote_ttl now k (metrics_loop up now cols its m).2 = Some v.
Proof.
  revert m. induction its as [|[i t] rest IH]; intros m Hh; [exact Hh|].
  cbn [metrics_loop].
  pose proof (cache_hit_kept quote_ttl now (fetch_quote up) t k m v Hh) as H1.
  fold (cached_fetch_quote up now t m) in H1.
  destruct (cached_fetch_quote up now t m) as [rq m1]. cbn [snd] in H1.
  destruct (q <-- rq ;; metric_cell cols i t q) as [c|e]; [|exact H1].
  specialize (IH m1 H1).
  now destruct (metrics_loop up now cols rest m1) as [r m2].
Qed.

Lemma top_metrics_grid_returns t0 rest (m : memo string quote) :
  exists ms, (top_metrics_grid up now (t0 :: rest) m).1 = Ok ms
             /\ m_ticker <$> ms = take 4 (t0 :: rest).
Proof.
  set (tks := t0 :: rest). set (n := Nat.min 4 (length tks)).
  assert (length (take 4 tks) = n) as Hlen by apply length_take.
  assert (Forall (fun it : nat * string => (it.1 mod 4 < n)%nat)
            (enumerate (take 4 tks))) as Hall.
  { eapply Forall_impl; [apply enumerate_index_bound|].
    intros [i t] Hi. cbn [fst] in Hi |- *. rewrite Hlen in Hi.
    rewrite Nat.mod_small; [exact Hi | subst n; lia]. }
  destruct (metrics_loop_ok up now n (enumerate (take 4 tks)) m Hall)
    as (ms & Hms & Ht & _).
  exists ms. unfold top_metrics_grid. fold n.
  assert (st_columns n = Ok (seq 0 n)) as ->.
  { unfold st_columns. subst n tks. cbn [length].
    destruct (Nat.min 4 (S (length rest))) eqn:Hn; [lia | reflexivity]. }
  split; [exact Hms|]. now rewrite enumerate_snd in Ht.
Qed.

End Run.

Lemma change_metric_returns (q : quote) : exists w, change_metric q = Ok w.
Proof.
  unfold change_metric.
  destruct (negb _ && negb _); [|eauto].
  destruct (pct_change_floats_return (last_price q) (previous_close q)) as [v ->].
  cbn. eauto.
Qed.

Lemma draw_tab_failed chart q df fl :
  draw_tab chart q df = Failed fl -> charts chart df = Failed fl.
Proof.
  unfold draw_tab. destruct (change_metric_returns q) as [w ->]. cbn [attempt_of abind].
  destruct (charts chart df) as [ws|fl'] eqn:Hc; cbn [abind]; [discriminate|].
  now intros [= <-].
Qed.

Section TabsRun.
Variables (up : provider) (now : Z) (tks : list string).
Variables (period interval : string) (chart : chart_type).

Abbreviation loop := (tabs_loop_drawn up now tks period interval chart).

Lemma tabs_loop_drawn_kept its s kq vq kh vh :
  (cache_hit quote_ttl now kq (quote_memo s) = Some vq ->
   cache_hit quote_ttl now kq (quote_memo (loop its s).2) = Some vq)
  /\ (cache_hit history_ttl now kh (history_memo s) = Some vh ->
      cache_hit history_ttl now kh (history_memo (loop its s).2) = Some vh).
Proof.
  revert s. induction its as [|[i t] rest IH]; intros s; [split; exact id|].
  cbn [tabs_loop_drawn].
  destruct (py_index tks i) as [tk|e]; [|split; exact id].
  pose proof (cache_hit_kept history_ttl now (history_by_key up)
                (tk, period, interval) kh (history_memo s) vh) as Hh.
  change (cache_data history_ttl (history_by_key up) now (tk, period, interval)
            (history_memo s))
    with (cached_fetch_intraday_history up now tk period interval (history_memo s))
    in Hh.
  destruct (cached_fetch_intraday_history up now tk period interval (history_memo s))
    as [[df|e] hm]; cbn [snd] in Hh; [|split; [exact id | exact Hh]].
  pose proof (cache_hit_kept quote_ttl now (fetch_quote up) tk kq (quote_memo s) vq)
    as Hq.
  fold (cached_fetch_quote up now tk (quote_memo s)) in Hq.
  destruct (cached_fetch_quote up now tk (quote_memo s)) as [[q|e] qm];
    cbn [snd] in Hq; [|split; [exact Hq | exact Hh]].
  destruct (draw_tab chart q df) as [ws|fl]; [|split; [exact Hq | exact Hh]].
  specialize (IH {| quote_memo := qm; history_memo := hm |}).
  destruct (loop rest _) as [r s3]. cbn [snd quote_memo history_memo] in IH |- *.
  destruct IH as [IHq IHh]. split; intros H0; [apply IHq, Hq, H0 | apply IHh, Hh, H0].
Qed.

(** Every drawn tab shows what the stores hold for its ticker after the
    loop, and its widgets are the drawing of that data. *)
Lemma tabs_loop_drawn_cached its s ds d :
  (loop its s).1 = Done ds -> d ∈ ds ->
  tab_ticker (dt_view d) ∈ tks
  /\ cache_hit quote_ttl now (tab_ticker (dt_view d)) (quote_memo (loop its s).2)
       = Some (tab_quote (dt_view d))
  /\ cache_hit history_ttl now (tab_ticker (dt_view d), period, interval)
       (history_memo (loop its s).2) = Some (tab_history (dt_view d))
  /\ draw_tab chart (tab_quote (dt_view d)) (tab_history (dt_view d))
       = Done (dt_widgets d).
Proof.
  revert s ds. induction its as [|[i t] rest IH]; intros s ds.
  - cbn. intros [= <-] Hin. inversion Hin.
  - cbn [tabs_loop_drawn].
    destruct (py_index tks i) as [tk|e] eqn:Hidx; [|discriminate].
    pose proof (cache_data_result_cached history_ttl now (history_by_key up)
                  history_ttl_pos (tk, period, interval) (history_memo s)) as Hh.
    change (cache_data history_ttl (history_by_key up) now (tk, period, interval)
              (history_memo s))
      with (cached_fetch_intraday_history up now tk period interval (history_memo s))
      in Hh.
    destruct (cached_fetch_intraday_history up now tk period interval (history_memo s))
      as [[df|e] hm]; cbn [fst snd] in Hh; [|discriminate].
    pose proof (cache_data_result_cached quote_ttl now (fetch_quote up)
                  quote_ttl_pos tk (quote_memo s)) as Hq.
    fold (cached_fetch_quote up now tk (quote_memo s)) in Hq.
    destruct (cached_fetch_quote up now tk (quote_memo s)) as [[q|e] qm];
      cbn [fst snd] in Hq; [|discriminate].
    destruct (draw_tab chart q df) as [ws|fl] eqn:Hd; [|discriminate].
    pose proof (tabs_loop_drawn_kept rest {| quote_memo := qm; history_memo := hm |}
                  tk q (tk, period, interval) df) as [Kq Kh].
    specialize (IH {| quote_memo := qm; history_memo := hm |}).
    destruct (loop rest _) as [[ds'|fl] s3]; [|discriminate].
    cbn [fst snd quote_memo history_memo abind] in *.
    intros [= <-] Hin. apply elem_of_cons in Hin as [->|Hin].
    + cbn [dt_view dt_widgets tab_ticker tab_quote tab_history].
      split; [apply py_index_elem in Hidx; eapply list_elem_of_lookup_2, Hidx|].
      split; [apply Kq, Hq; reflexivity|].
      split; [apply Kh, Hh; reflexivity | exact Hd].
    + now apply (IH ds').
Qed.

Lemma tabs_loop_drawn_shape its s ds :
  (loop its s).1 = Done ds ->
  (fun d => Some (tab_ticker (dt_view d))) <$> ds = (fun it => tks !! it.1) <$> its
  /\ (fun d => tab_handle (dt_view d)) <$> ds = snd <$> its.
Proof.
  revert s ds. induction its as [|[i t] rest IH]; intros s ds.
  - cbn. intros [= <-]. split; reflexivity.
  - cbn [tabs_loop_drawn].
    destruct (py_index tks i) as [tk|e] eqn:Hidx; [|discriminate].
    destruct (cached_fetch_intraday_history up now tk period interval (history_memo s))
      as [[df|e] hm]; [|discriminate].
    destruct (cached_fetch_quote up now tk (quote_memo s)) as [[q|e] qm];
      [|discriminate].
    destruct (draw_tab chart q df) as [ws|fl]; [|discriminate].
    specialize (IH {| quote_memo := qm; history_memo := hm |}).
    destruct (loop rest _) as [[ds'|fl] s3]; [|discriminate].
    cbn [fst abind]. intros [= <-]. destruct (IH ds' eq_refl) as [IH1 IH2].
    rewrite !fmap_cons. cbn [dt_view tab_ticker tab_handle fst snd].
    apply py_index_elem in Hidx. now rewrite IH1, IH2, Hidx.
Qed.

(** A failed loop was ended by a history fetch that raised, or by the
    charts of a frame that the store holds for a ticker of the list. *)
Lemma tabs_loop_drawn_failed its s fl :
  Forall (fun it : nat * nat => (it.1 < length tks)%nat) its ->
  (loop its s).1 = Failed fl ->
  (exists t e, fl = Uncaught e /\ t ∈ tks
               /\ fetch_intraday_history up t period interval = Raise e)
  \/ (exists t df, t ∈ tks
                   /\ cache_hit history_ttl now (t, period, interval)
                        (history_memo (loop its s).2) = Some df
                   /\ charts chart df = Failed fl).
Proof.
  intros Hall. revert s. induction Hall as [|[i t] rest Hi _ IH]; intros s.
  - cbn. discriminate.
  - cbn [tabs_loop_drawn]. cbn [fst] in Hi.
    destruct (lookup_lt_is_Some_2 tks i Hi) as [tk Htk].
    assert (py_index tks i = Ok tk) as Hidx by (unfold py_index; now rewrite Htk).
    rewrite Hidx.
    assert (tk ∈ tks) as Hin by (eapply list_elem_of_lookup_2, Htk).
    pose proof (cache_data_raise_inv history_ttl (history_by_key up) now
                  (tk, period, interval) (history_memo s)) as Hraise.
    pose proof (cache_data_result_cached history_ttl now (history_by_key up)
                  history_ttl_pos (tk, period, interval) (history_memo s)) as Hh.
    change (cache_data history_ttl (history_by_key up) now (tk, period, interval)
              (history_memo s))
      with (cached_fetch_intraday_history up now tk period interval (history_memo s))
      in Hraise, Hh.
    destruct (cached_fetch_intraday_history up now tk period interval (history_memo s))
      as [[df|e] hm]; cbn [fst snd] in Hraise, Hh.
    2:{ cbn. intros [= <-]. left. exists tk, e. split; [reflexivity|].
        split; [exact Hin|]. now apply Hraise. }
    pose proof (cached_fetch_quote_returns up now tk (quote_memo s)) as Hq.
    destruct (cached_fetch_quote up now tk (quote_memo s)) as [[q|e] qm];
      [|discriminate].
    destruct (draw_tab chart q df) as [ws|fl'] eqn:Hd.
    + specialize (IH {| quote_memo := qm; history_memo := hm |}).
      destruct (loop rest _) as [[ds'|fl'] s3]; cbn [fst snd abind] in *;
        [discriminate|].
      intros [= <-]. now apply IH.
    + cbn [fst snd history_memo]. intros [= <-].
      apply draw_tab_failed in Hd.
      right. exists tk, df. split; [exact Hin|]. split; [now apply Hh | exact Hd].
Qed.

(** What holds of every fetched frame and of every frame in the store
    before the loop holds of every frame in the store after it. *)
Lemma tabs_loop_drawn_frames (P : DataFrame -> Prop) its s :
  (forall t df, fetch_intraday_history up t period interval = Ok df -> P df) ->
  store_forall P (history_memo s) ->
  store_forall P (history_memo (loop its s).2).
Proof.
  intros Hf. revert s. induction its as [|[i t] rest IH]; intros s Hs; [exact Hs|].
  cbn [tabs_loop_drawn].
  destruct (py_index tks i) as [tk|e]; [|exact Hs].
  pose proof (cache_data_store_forall P history_ttl (history_by_key up) now
                (tk, period, interval) (history_memo s) Hs (Hf tk)) as Hh.
  change (cache_data history_ttl (history_by_key up) now (tk, period, interval)
            (history_memo s))
    with (cached_fetch_intraday_history up now tk period interval (history_memo s))
    in Hh.
  destruct (cached_fetch_intraday_history up now tk period interval (history_memo s))
    as [[df|e] hm]; cbn [snd] in Hh; [|exact Hh].
  destruct (cached_fetch_quote up now tk (quote_memo s)) as [[q|e] qm]; [|exact Hh].
  destruct (draw_tab chart q df) as [ws|fl]; [|exact Hh].
  specialize (IH {| quote_memo := qm; history_memo := hm |} Hh).
  now destruct (loop rest _) as [r s3].
Qed.

(** When every tab is drawn, the loop fetched what [tabs_loop] fetches. *)
Lemma tabs_loop_drawn_agrees its s ds :
  (loop its s).1 = Done ds ->
  tabs_loop up now tks period interval its s = (Ok (dt_view <$> ds), (loop its s).2).
Proof.
  revert s ds. induction its as [|[i t] rest IH]; intros s ds.
  - cbn. now intros [= <-].
  - cbn [tabs_loop_drawn tabs_loop].
    destruct (py_index tks i) as [tk|e]; [|discriminate].
    destruct (cached_fetch_intraday_history up now tk period interval (history_memo s))
      as [[df|e] hm]; [|discriminate].
    destruct (cached_fetch_quote up now tk (quote_memo s)) as [[q|e] qm];
      [|discriminate].
    destruct (draw_tab chart q df) as [ws|fl]; [|discriminate].
    specialize (IH {| quote_memo := qm; history_memo := hm |}).
    destruct (loop rest _) as [[ds'|fl] s3]; [|discriminate].
    cbn [fst snd abind] in *. intros [= <-].
    rewrite (IH ds' eq_refl). reflexivity.
Qed.

End TabsRun.

Lemma tab_indices_in_range (tks : list string) :
  Forall (fun it : nat * nat => (it.1 < length tks)%nat)
    (enumerate (seq 0 (length tks))).
Proof.
  eapply Forall_impl; [apply enumerate_index_bound|].
  intros [i t] Hi. cbn [fst] in *. now rewrite length_seq in Hi.
Qed.

Lemma tab_indices_tickers (tks : list string) :
  (fun it : nat * nat => tks !! it.1) <$> enumerate (seq 0 (length tks))
  = Some <$> tks.
Proof.
  apply list_eq. intros j. rewrite !list_lookup_fmap, enumerate_lookup.
  destruct (decide (j < length tks)%nat) as [Hlt|Hge].
  - rewrite lookup_seq_lt by exact Hlt. cbn.
    destruct (lookup_lt_is_Some_2 tks j Hlt) as [x ->]. reflexivity.
  - rewrite lookup_seq_ge by lia. cbn.
    now rewrite (lookup_ge_None_2 tks j) by lia.
Qed.

Lemma tickers_blank (w : string) :
  tickers w = [] <-> Forall (fun e => strip e = EmptyString) (split "," w).
Proof.
  rewrite tickers_entries. induction (split "," w) as [|e es IH].
  - split; [constructor | reflexivity].
  - cbn [omap list_omap]. unfold ticker_of_entry at 1.
    destruct (String.eqb_spec (strip e) EmptyString) as [He|Hne].
    + rewrite IH. split; [now constructor | now inversion 1].
    + split; [discriminate|]. inversion 1; contradiction.
Qed.

(** X11. For a watchlist of ASCII characters: when all its entries are
    blank, the empty text included, the run stops at the warning, nothing is
    fetched and both stores are left as they were, whether the clock is read
    once or at every call. No other ASCII watchlist stops the run. *)
Theorem blank_watchlist_stops :
  forall up now (fd : feed) (w : string) (r : Z) (chart : chart_type)
         (s : session) (st : run_state),
    is_ascii w = true ->
    (Forall (fun e => strip e = EmptyString) (split "," w) ->
     script_page up now w r chart s = (PageStopped, s)
     /\ script_page_at fd w r chart st = (PageStopped, st))
    /\ ((script_page up now w r chart s).1 = PageStopped ->
        Forall (fun e => strip e = EmptyString) (split "," w))
    /\ ((script_page_at fd w r chart st).1 = PageStopped ->
        Forall (fun e => strip e = EmptyString) (split "," w)).
Proof.
  intros up now fd w r chart s st _. unfold script_page, script_page_at.
  destruct (range_map chart) as [period interval]. split; [|split].
  - intros Hb. apply tickers_blank in Hb. now rewrite Hb.
  - destruct (tickers w) as [|t0 tks0] eqn:Ht; [intros _; now apply tickers_blank|].
    destruct (top_metrics_grid up now (t0 :: tks0) (quote_memo s)) as [[grid|e] qm];
      [|discriminate].
    destruct (st_tabs (t0 :: tks0)) as [tabs|e]; [|discriminate].
    destruct (tabs_loop_drawn up now (t0 :: tks0) period interval chart
                (enumerate tabs) _) as [[ds|fl] s2]; discriminate.
  - destruct (tickers w) as [|t0 tks0] eqn:Ht; [intros _; now apply tickers_blank|].
    destruct (top_metrics_grid_at fd (t0 :: tks0) st).1; [|discriminate].
    destruct (st_tabs (t0 :: tks0)) as [tabs|e]; [|discriminate].
    destruct (tabs_loop_at fd (t0 :: tks0) _ _ chart (enumerate tabs) _).1;
      discriminate.
Qed.

(** X12. Provided every frame, those the provider returns and those
    already in the store, has flat column labels without repeats, a run
    fails in two ways only: [fetch_intraday_history] raised for a ticker of
    the watchlist (the exception is the provider's or the index's), or the
    frame of a watchlist ticker is not empty and lacks a column that the
    selected chart reads. The quote fetches, the grid and the indexing
    [tickers[i]] never end a run. *)
Theorem page_failure_causes :
  forall up now (w : string) (r : Z) (chart : chart_type) (s : session) (fl : failure),
    (forall t df,
       fetch_intraday_history up t (range_map chart).1 (range_map chart).2 = Ok df ->
       NoDup (columns df)) ->
    store_forall (fun df => NoDup (columns df)) (history_memo s) ->
    (script_page up now w r chart s).1 = PageFailed fl ->
    (exists t e,
        fl = Uncaught e /\ t ∈ tickers w
        /\ fetch_intraday_history up t (range_map chart).1 (range_map chart).2
             = Raise e)
    \/ (exists t df c,
          fl = KeyError c /\ t ∈ tickers w
          /\ cache_hit history_ttl now (t, (range_map chart).1, (range_map chart).2)
               (history_memo (script_page up now w r chart s).2) = Some df
          /\ df_empty df = false
          /\ c ∈ needed_columns chart /\ c ∉ columns df).
Proof.
  intros up now w r chart s fl. unfold script_page.
  destruct (range_map chart) as [period interval]. cbn [fst snd].
  intros Hprov Hstore.
  destruct (tickers w) as [|t0 tks0] eqn:Ht; [discriminate|].
  destruct (top_metrics_grid_returns up now t0 tks0 (quote_memo s)) as (grid & Hg & _).
  destruct (top_metrics_grid up now (t0 :: tks0) (quote_memo s)) as [rg qm].
  cbn [fst] in Hg. subst rg. cbn [st_tabs].
  set (its := enumerate (seq 0 (length (t0 :: tks0)))).
  set (s1 := {| quote_memo := qm; history_memo := history_memo s |}).
  pose proof (tabs_loop_drawn_failed up now (t0 :: tks0) period interval chart its s1)
    as Hf.
  pose proof (tabs_loop_drawn_frames up now (t0 :: tks0) period interval chart
                (fun df => NoDup (columns df)) its s1 Hprov Hstore) as Hframes.
  destruct (tabs_loop_drawn up now (t0 :: tks0) period interval chart its s1)
    as [[ds|fl'] s2]; [discriminate|].
  cbn [fst snd] in *. intros [= <-].
  destruct (Hf fl' (tab_indices_in_range (t0 :: tks0)) eq_refl)
    as [Hraise|(t & df & Hin & Hhit & Hcharts)]; [now left|].
  right. destruct (cache_hit_stored _ _ _ _ _ Hhit) as (e & He & <-).
  specialize (Hframes _ _ He). cbn beta in Hframes.
  destruct (charts_failed chart (value e) fl' Hcharts) as [Hne [(c & -> & Hc & Hn)|[_ Hv]]].
  - exists t, (value e), c. split_and!; try assumption; reflexivity.
  - pose proof (label_count_NoDup "Volume" (columns (value e)) Hframes). lia.
Qed.

(** X13. A rendered page has one tab per watchlist ticker, in watchlist
    order and numbered from 0, and one grid metric for each of the first
    [min(4, n)] tickers; every tab's widgets are the drawing of the quote
    and the frame shown in that tab; and the next run is due [refresh_sec]
    after this one. *)
Theorem rendered_page_shape :
  forall up now (w : string) (r : Z) (chart : chart_type) (s : session)
         (grid : list metric) (tabs : list drawn_tab) (at_ : Z),
    (script_page up now w r chart s).1 = PageRendered grid tabs at_ ->
    at_ = now + r
    /\ (fun d => tab_ticker (dt_view d)) <$> tabs = tickers w
    /\ (fun d => tab_handle (dt_view d)) <$> tabs = seq 0 (length (tickers w))
    /\ m_ticker <$> grid = take 4 (tickers w)
    /\ (forall d, d ∈ tabs ->
          draw_tab chart (tab_quote (dt_view d)) (tab_history (dt_view d))
          = Done (dt_widgets d)).
Proof.
  intros up now w r chart s grid tabs at_. unfold script_page.
  destruct (range_map chart) as [period interval].
  destruct (tickers w) as [|t0 tks0] eqn:Ht; [discriminate|].
  destruct (top_metrics_grid_returns up now t0 tks0 (quote_memo s)) as (g & Hg & Hgt).
  destruct (top_metrics_grid up now (t0 :: tks0) (quote_memo s)) as [rg qm].
  cbn [fst] in Hg. subst rg. cbn [st_tabs].
  set (its := enumerate (seq 0 (length (t0 :: tks0)))).
  set (s1 := {| quote_memo := qm; history_memo := history_memo s |}).
  pose proof (tabs_loop_drawn_shape up now (t0 :: tks0) period interval chart its s1)
    as Hshape.
  pose proof (tabs_loop_drawn_cached up now (t0 :: tks0) period interval chart its s1)
    as Hcached.
  destruct (tabs_loop_drawn up now (t0 :: tks0) period interval chart its s1)
    as [[ds|fl'] s2]; [|discriminate].
  cbn [fst snd] in *. intros [= <- <- <-].
  destruct (Hshape ds eq_refl) as [Hticks Hhandles].
  split; [reflexivity|]. split.
  { subst its. rewrite tab_indices_tickers in Hticks.
    apply (inj (fmap Some)). rewrite <- Hticks, <- list_fmap_compose. reflexivity. }
  split; [subst its; now rewrite Hhandles, enumerate_snd|].
  split; [exact Hgt|].
  intros d Hd. now destruct (Hcached ds d eq_refl Hd) as (_ & _ & _ & Hdraw).
Qed.

(** ** One run with the clock read at every call *)

(** No entry of the store that is valid at [lo] expires before [hi]. *)
Definition no_expiry_between {K V} `{Countable K} (ttl lo hi : Z) (m : memo K V)
    : Prop :=
  forall k e, store m !! k = Some e ->
              lo - stored_at e < ttl -> hi - stored_at e < ttl.

Section Window.
Context {K V : Type} `{Countable K}.
Variables (ttl lo hi : Z).
Hypothesis window_short : hi - lo < ttl.

(** Within the window an entry is valid at one reading exactly when it is
    valid at another. *)
Lemma cache_hit_window (m : memo K V) (t : Z) (k : K) :
  no_expiry_between ttl lo hi m -> lo <= t <= hi ->
  cache_hit ttl t k m = cache_hit ttl hi k m.
Proof.
  intros Hm Ht. unfold cache_hit, is_fresh.
  destruct (store m !! k) as [e|] eqn:He; [|reflexivity].
  specialize (Hm k e He).
  destruct (Z.ltb_spec (hi - stored_at e) ttl) as [Hv|Hx].
  - now rewrite (proj2 (Z.ltb_lt _ _)) by lia.
  - now rewrite (proj2 (Z.ltb_ge _ _)) by lia.
Qed.

Lemma cache_data_no_expiry (f : K -> result V) (now : Z) (k : K) (m : memo K V) :
  no_expiry_between ttl lo hi m -> lo <= now <= hi ->
  no_expiry_between ttl lo hi (cache_data ttl f now k m).2.
Proof.
  intros Hm Hn. unfold cache_data.
  destruct (cache_hit ttl now k m); [exact Hm|].
  destruct (f k) as [v|e]; cbn [snd]; [|exact Hm].
  intros k' e'. cbn [store]. destruct (decide (k = k')) as [<-|Hne].
  - rewrite lookup_insert_eq. intros [= <-] _. cbn [stored_at]. lia.
  - rewrite lookup_insert_ne by exact Hne. apply Hm.
Qed.

(** What a call in the window returned is valid until the window ends. *)
Lemma cache_data_cached_window (f : K -> result V) (now : Z) (k : K)
    (m : memo K V) (v : V) :
  no_expiry_between ttl lo hi m -> lo <= now <= hi ->
  (cache_data ttl f now k m).1 = Ok v ->
  cache_hit ttl hi k (cache_data ttl f now k m).2 = Some v.
Proof.
  intros Hm Hn Hr. destruct (cache_hit ttl now k m) as [v0|] eqn:Hh.
  - rewrite (cache_data_hit ttl f now k m v0 Hh) in Hr |- *.
    cbn [fst snd] in *. rewrite <- (cache_hit_window m now k Hm Hn). congruence.
  - destruct (f k) as [v'|e] eqn:Hf.
    + rewrite (cache_data_miss ttl f now k m v' Hh Hf) in Hr |- *.
      cbn [fst snd] in *. injection Hr as ->.
      apply (cache_hit_fresh ttl hi k _ (mkEntry v now)).
      * cbn [store]. apply lookup_insert_eq.
      * cbn [stored_at]. lia.
    + rewrite (cache_data_miss_raise ttl f now k m e Hh Hf) in Hr. discriminate.
Qed.

(** An entry that is valid until the window ends survives every call in
    the window. *)
Lemma cache_data_kept_window (f : K -> result V) (now : Z) (k k' : K)
    (m : memo K V) (v : V) :
  no_expiry_between ttl lo hi m -> lo <= now <= hi ->
  cache_hit ttl hi k' m = Some v ->
  cache_hit ttl hi k' (cache_data ttl f now k m).2 = Some v.
Proof.
  intros Hm Hn Hh. destruct (decide (k' = k)) as [->|Hne].
  - rewrite <- (cache_hit_window m now k Hm Hn) in Hh.
    rewrite (cache_data_hit ttl f now k m v Hh). cbn [snd].
    now rewrite <- (cache_hit_window m now k Hm Hn).
  - unfold cache_hit in Hh |- *. now rewrite cache_data_frame.
Qed.

(** [fetched_once ks m m']: between [m] and [m'] the decorated function ran
    exactly once for each key of [ks] that had no entry lasting until the
    window ends, and for nothing else; the keys without such an entry
    afterwards are those that had none and were not fetched. *)
Definition fetched_once (ks : list K) (m m' : memo K V) : Prop :=
  exists new : list (Z * K),
    calls m' = calls m ++ new
    /\ NoDup new.*2
    /\ (forall k, k ∈ new.*2 <-> k ∈ ks /\ cache_hit ttl hi k m = None)
    /\ (forall k, cache_hit ttl hi k m' = None
                  <-> cache_hit ttl hi k m = None /\ k ∉ new.*2).

Lemma fetched_once_nil (m : memo K V) : fetched_once [] m m.
Proof.
  exists []. rewrite app_nil_r. split; [reflexivity|]. split; [constructor|].
  split; intros k; cbn.
  - split; [inversion 1 | intros [Hk _]; inversion Hk].
  - split; [intros Hc; split; [exact Hc | inversion 1] | tauto].
Qed.

Lemma fetched_once_call (f : K -> result V) (now : Z) (k : K) (m : memo K V)
    (v : V) :
  no_expiry_between ttl lo hi m -> lo <= now <= hi ->
  (cache_data ttl f now k m).1 = Ok v ->
  fetched_once [k] m (cache_data ttl f now k m).2.
Proof.
  intros Hm Hn Hr. pose proof (cache_hit_window m now k Hm Hn) as Hw.
  destruct (cache_hit ttl now k m) as [v0|] eqn:Hh.
  - rewrite (cache_data_hit ttl f now k m v0 Hh). cbn [snd].
    exists []. rewrite app_nil_r. split; [reflexivity|]. split; [constructor|].
    split; intros k'; cbn.
    + split; [inversion 1|]. intros [Hk Hc].
      apply list_elem_of_singleton in Hk as ->. congruence.
    + split; [intros Hc; split; [exact Hc | inversion 1] | tauto].
  - destruct (f k) as [v'|e] eqn:Hf.
    + rewrite (cache_data_miss ttl f now k m v' Hh Hf). cbn [snd calls].
      exists [(now, k)]. split; [reflexivity|].
      split; [cbn; apply NoDup_singleton|].
      split; intros k'; cbn [fmap list_fmap snd]; rewrite list_elem_of_singleton.
      * split; [intros ->; split; [reflexivity | congruence] | tauto].
      * destruct (decide (k' = k)) as [->|Hne].
        -- split; [|tauto]. intros Hc. exfalso.
           rewrite (cache_hit_fresh ttl hi k _ (mkEntry v' now)) in Hc;
             [discriminate | cbn [store]; apply lookup_insert_eq
              | cbn [stored_at]; lia].
        -- unfold cache_hit. cbn [store]. rewrite lookup_insert_ne by congruence.
           tauto.
    + rewrite (cache_data_miss_raise ttl f now k m e Hh Hf) in Hr. discriminate.
Qed.

Lemma fetched_once_app (ks ks' : list K) (m m' m'' : memo K V) :
  fetched_once ks m m' -> fetched_once ks' m' m'' ->
  fetched_once (ks ++ ks') m m''.
Proof.
  intros (n1 & Hc1 & Hd1 & Hk1 & Hl1) (n2 & Hc2 & Hd2 & Hk2 & Hl2).
  exists (n1 ++ n2). rewrite Hc2, Hc1, app_assoc. split; [reflexivity|].
  rewrite fmap_app. split.
  - apply NoDup_app. split; [exact Hd1|]. split; [|exact Hd2].
    intros k Hin1 Hin2. apply Hk2 in Hin2 as [_ Hcold]. apply Hl1 in Hcold.
    tauto.
  - split; intros k; rewrite elem_of_app.
    + rewrite Hk1, Hk2, Hl1, elem_of_app.
      destruct (decide (k ∈ n1.*2)) as [Hin|Hout]; [|tauto].
      apply Hk1 in Hin. tauto.
    + rewrite Hl2, Hl1. tauto.
Qed.

End Window.

Section RunAt.
Variables (fd : feed) (lo hi : Z).
Hypothesis window_short : hi - lo < quote_ttl.

Lemma window_short_history : hi - lo < history_ttl.
Proof. unfold quote_ttl in window_short. unfold history_ttl. lia. Qed.

(** The readings of the calls numbered from [a] to below [b] lie in the
    window. *)
Definition readings_within (a b : nat) : Prop :=
  forall i, (a <= i < b)%nat -> lo <= reading fd i <= hi.

Definition stores_stable (st : run_state) : Prop :=
  no_expiry_between quote_ttl lo hi (quote_memo (rs_session st))
  /\ no_expiry_between history_ttl lo hi (history_memo (rs_session st)).

(** The quote and the frame a store holds for a key until the window ends. *)
Definition held_quote (st : run_state) (t : string) : option quote :=
  cache_hit quote_ttl hi t (quote_memo (rs_session st)).

Definition held_frame (st : run_state) (k : string * string * string)
    : option DataFrame :=
  cache_hit history_ttl hi k (history_memo (rs_session st)).

Definition keeps (st st' : run_state) : Prop :=
  (forall t q, held_quote st t = Some q -> held_quote st' t = Some q)
  /\ (forall k df, held_frame st k = Some df -> held_frame st' k = Some df).

Lemma keeps_refl st : keeps st st.
Proof. split; intros ? ?; exact id. Qed.

Lemma keeps_trans st1 st2 st3 : keeps st1 st2 -> keeps st2 st3 -> keeps st1 st3.
Proof. intros [Hq Hh] [Hq' Hh']. split; intros ? ? H0; [apply Hq', Hq, H0 | apply Hh', Hh, H0]. Qed.

Lemma quote_call_window (t : string) (st : run_state) :
  lo <= reading fd (rs_tick st) <= hi -> stores_stable st ->
  stores_stable (quote_call fd t st).2
  /\ keeps st (quote_call fd t st).2
  /\ (forall q, (quote_call fd t st).1 = Ok q ->
                held_quote (quote_call fd t st).2 t = Some q).
Proof.
  intros Hn [Sq Sh]. unfold quote_call, cached_fetch_quote, stores_stable, keeps,
    held_quote, held_frame. cbn [fst snd rs_session quote_memo history_memo].
  split; [split; [|exact Sh]|split; [split|]].
  - now apply (cache_data_no_expiry quote_ttl lo hi window_short).
  - intros t' q. now apply (cache_data_kept_window quote_ttl lo hi).
  - intros k df. exact id.
  - intros q. now apply (cache_data_cached_window quote_ttl lo hi window_short).
Qed.

Lemma history_call_window (t period interval : string) (st : run_state) :
  lo <= reading fd (rs_tick st) <= hi -> stores_stable st ->
  stores_stable (history_call fd t period interval st).2
  /\ keeps st (history_call fd t period interval st).2
  /\ (forall df, (history_call fd t period interval st).1 = Ok df ->
                 held_frame (history_call fd t period interval st).2
                   (t, period, interval) = Some df).
Proof.
  pose proof window_short_history as Hw.
  intros Hn [Sq Sh]. unfold history_call, cached_fetch_intraday_history,
    stores_stable, keeps, held_quote, held_frame.
  cbn [fst snd rs_session quote_memo history_memo].
  split; [split; [exact Sq|]|split; [split|]].
  - now apply (cache_data_no_expiry history_ttl lo hi Hw).
  - intros t' q. exact id.
  - intros k df. now apply (cache_data_kept_window history_ttl lo hi).
  - intros df. now apply (cache_data_cached_window history_ttl lo hi Hw).
Qed.

Lemma metrics_loop_at_window cols its st :
  (rs_tick st <= rs_tick (metrics_loop_at fd cols its st).2)%nat
  /\ (readings_within (rs_tick st) (rs_tick (metrics_loop_at fd cols its st).2) ->
      stores_stable st ->
      stores_stable (metrics_loop_at fd cols its st).2
      /\ keeps st (metrics_loop_at fd cols its st).2
      /\ (forall ms c, (metrics_loop_at fd cols its st).1 = Ok ms -> c ∈ ms ->
                       held_quote (metrics_loop_at fd cols its st).2 (m_ticker c)
                       = Some (m_quote c))).
Proof.
  revert st. induction its as [|[i t] rest IH]; intros st.
  - cbn. split; [lia|]. intros _ Hs. split; [exact Hs|]. split; [apply keeps_refl|].
    intros ms c [= <-] Hin. inversion Hin.
  - cbn [metrics_loop_at].
    pose proof (quote_call_window t st) as Hcall.
    assert (rs_tick (quote_call fd t st).2 = S (rs_tick st)) as Htick by reflexivity.
    destruct (quote_call fd t st).1 as [q|e] eqn:Hq; cbn [rbind].
    2:{ cbn [fst snd]. split; [lia|]. intros Hw Hs.
        destruct Hcall as (S1 & K1 & _); [apply Hw; lia | exact Hs|].
        split; [exact S1|]. split; [exact K1|]. discriminate. }
    destruct (metric_cell cols i t q) as [cell|e] eqn:Hcell.
    2:{ cbn [fst snd]. split; [lia|]. intros Hw Hs.
        destruct Hcall as (S1 & K1 & _); [apply Hw; lia | exact Hs|].
        split; [exact S1|]. split; [exact K1|]. discriminate. }
    destruct (IH (quote_call fd t st).2) as [Hle IHw].
    cbn [fst snd]. split; [lia|]. intros Hw Hs.
    destruct Hcall as (S1 & K1 & C1); [apply Hw; lia | exact Hs|].
    destruct IHw as (S2 & K2 & C2); [intros j Hj; apply Hw; lia | exact S1|].
    split; [exact S2|]. split; [eapply keeps_trans; eassumption|].
    intros ms c Hms Hin.
    destruct (metrics_loop_at fd cols rest (quote_call fd t st).2).1 as [cs|e] eqn:Hl;
      [|discriminate].
    cbn [rbind] in Hms. injection Hms as <-.
    apply metric_cell_fields in Hcell as [Ht Hqc].
    apply elem_of_cons in Hin as [->|Hin].
    + rewrite Ht, Hqc. apply K2. now apply C1.
    + now apply (C2 cs).
Qed.

Lemma tabs_loop_at_window tks period interval chart its st :
  (rs_tick st <= rs_tick (tabs_loop_at fd tks period interval chart its st).2)%nat
  /\ (readings_within (rs_tick st)
        (rs_tick (tabs_loop_at fd tks period interval chart its st).2) ->
      stores_stable st ->
      stores_stable (tabs_loop_at fd tks period interval chart its st).2
      /\ keeps st (tabs_loop_at fd tks period interval chart its st).2
      /\ (forall ds d,
            (tabs_loop_at fd tks period interval chart its st).1 = Done ds ->
            d ∈ ds ->
            held_quote (tabs_loop_at fd tks period interval chart its st).2
              (tab_ticker (dt_view d)) = Some (tab_quote (dt_view d))
            /\ held_frame (tabs_loop_at fd tks period interval chart its st).2
                 (tab_ticker (dt_view d), period, interval)
               = Some (tab_history (dt_view d))
            /\ draw_tab chart (tab_quote (dt_view d)) (tab_history (dt_view d))
               = Done (dt_widgets d))).
Proof.
  revert st. induction its as [|[i t] rest IH]; intros st.
  - cbn. split; [lia|]. intros _ Hs. split; [exact Hs|]. split; [apply keeps_refl|].
    intros ds d [= <-] Hin. inversion Hin.
  - cbn [tabs_loop_at].
    destruct (py_index tks i) as [tk|e].
    2:{ cbn [fst snd]. split; [lia|]. intros _ Hs. split; [exact Hs|].
        split; [apply keeps_refl | discriminate]. }
    pose proof (history_call_window tk period interval st) as Hhist.
    assert (rs_tick (history_call fd tk period interval st).2 = S (rs_tick st))
      as Htick1 by reflexivity.
    set (st1 := (history_call fd tk period interval st).2) in *.
    destruct (history_call fd tk period interval st).1 as [df|e] eqn:Hdf.
    2:{ cbn [fst snd]. split; [lia|]. intros Hw Hs.
        destruct Hhist as (S1 & K1 & _); [apply Hw; lia | exact Hs|].
        split; [exact S1|]. split; [exact K1 | discriminate]. }
    pose proof (quote_call_window tk st1) as Hquote.
    assert (rs_tick (quote_call fd tk st1).2 = S (rs_tick st1)) as Htick2
      by reflexivity.
    set (st2 := (quote_call fd tk st1).2) in *.
    destruct (quote_call fd tk st1).1 as [q|e] eqn:Hq.
    2:{ cbn [fst snd]. split; [lia|]. intros Hw Hs.
        destruct Hhist as (S1 & K1 & _); [apply Hw; lia | exact Hs|].
        destruct Hquote as (S2 & K2 & _); [apply Hw; lia | exact S1|].
        split; [exact S2|]. split; [eapply keeps_trans; eassumption | discriminate]. }
    destruct (draw_tab chart q df) as [ws|fl] eqn:Hd.
    2:{ cbn [fst snd]. split; [lia|]. intros Hw Hs.
        destruct Hhist as (S1 & K1 & _); [apply Hw; lia | exact Hs|].
        destruct Hquote as (S2 & K2 & _); [apply Hw; lia | exact S1|].
        split; [exact S2|]. split; [eapply keeps_trans; eassumption | discriminate]. }
    destruct (IH st2) as [Hle IHw].
    cbn [fst snd]. split; [lia|]. intros Hw Hs.
    destruct Hhist as (S1 & K1 & C1); [apply Hw; lia | exact Hs|].
    destruct Hquote as (S2 & K2 & C2); [apply Hw; lia | exact S1|].
    destruct IHw as (S3 & K3 & C3); [intros j Hj; apply Hw; lia | exact S2|].
    split; [exact S3|].
    split; [eapply keeps_trans; [exact K1|]; eapply keeps_trans; eassumption|].
    intros ds d Hds Hin.
    destruct (tabs_loop_at fd tks period interval chart rest st2).1 as [ds'|fl] eqn:Hl;
      [|discriminate].
    cbn [abind] in Hds. injection Hds as <-.
    apply elem_of_cons in Hin as [->|Hin].
    + cbn [dt_view dt_widgets tab_ticker tab_quote tab_history].
      split; [apply K3; now apply C2|].
      split; [|exact Hd]. apply K3, K2. now apply C1.
    + now apply (C3 ds').
Qed.

Lemma quote_call_fetches (t : string) (st : run_state) (q : quote) :
  lo <= reading fd (rs_tick st) <= hi -> stores_stable st ->
  (quote_call fd t st).1 = Ok q ->
  fetched_once quote_ttl hi [t] (quote_memo (rs_session st))
    (quote_memo (rs_session (quote_call fd t st).2))
  /\ history_memo (rs_session (quote_call fd t st).2) = history_memo (rs_session st).
Proof.
  intros Hn [Sq _] Hr. split; [|reflexivity].
  exact (fetched_once_call quote_ttl lo hi window_short _ _ t _ q Sq Hn Hr).
Qed.

Lemma history_call_fetches (t period interval : string) (st : run_state)
    (df : DataFrame) :
  lo <= reading fd (rs_tick st) <= hi -> stores_stable st ->
  (history_call fd t period interval st).1 = Ok df ->
  fetched_once history_ttl hi [(t, period, interval)] (history_memo (rs_session st))
    (history_memo (rs_session (history_call fd t period interval st).2))
  /\ quote_memo (rs_session (history_call fd t period interval st).2)
     = quote_memo (rs_session st).
Proof.
  intros Hn [_ Sh] Hr. split; [|reflexivity].
  exact (fetched_once_call history_ttl lo hi window_short_history _ _
           (t, period, interval) _ df Sh Hn Hr).
Qed.

Lemma metrics_loop_at_fetches cols its st ms :
  readings_within (rs_tick st) (rs_tick (metrics_loop_at fd cols its st).2) ->
  stores_stable st ->
  (metrics_loop_at fd cols its st).1 = Ok ms ->
  m_ticker <$> ms = its.*2
  /\ fetched_once quote_ttl hi its.*2 (quote_memo (rs_session st))
       (quote_memo (rs_session (metrics_loop_at fd cols its st).2))
  /\ history_memo (rs_session (metrics_loop_at fd cols its st).2)
     = history_memo (rs_session st).
Proof.
  revert st ms. induction its as [|[i t] rest IH]; intros st ms.
  - cbn. intros _ _ [= <-]. split; [reflexivity|].
    split; [apply fetched_once_nil | reflexivity].
  - cbn [metrics_loop_at].
    pose proof (quote_call_window t st) as Hcall.
    pose proof (quote_call_fetches t st) as Hfetch.
    assert (rs_tick (quote_call fd t st).2 = S (rs_tick st)) as Htick by reflexivity.
    destruct (quote_call fd t st).1 as [q|e] eqn:Hq; cbn [rbind]; [|discriminate].
    destruct (metric_cell cols i t q) as [cell|e] eqn:Hcell; [|discriminate].
    destruct (metrics_loop_at_window cols rest (quote_call fd t st).2) as [Hle _].
    cbn [fst snd]. intros Hw Hs Hms.
    destruct Hcall as (S1 & _ & _); [apply Hw; lia | exact Hs|].
    destruct (Hfetch q) as [F1 E1]; [apply Hw; lia | exact Hs | reflexivity|].
    destruct (metrics_loop_at fd cols rest (quote_call fd t st).2).1 as [cs|e] eqn:Hl;
      [|discriminate].
    cbn [rbind] in Hms. injection Hms as <-.
    destruct (IH (quote_call fd t st).2 cs) as (Hshape & F2 & E2);
      [intros j Hj; apply Hw; lia | exact S1 | exact Hl|].
    apply metric_cell_fields in Hcell as [Ht _].
    split; [rewrite !fmap_cons, Hshape, Ht; reflexivity|].
    split; [|now rewrite E2].
    rewrite fmap_cons. cbn [snd].
    exact (fetched_once_app quote_ttl hi [t] rest.*2 _ _ _ F1 F2).
Qed.

Lemma tabs_loop_at_fetches tks period interval chart its st ds :
  readings_within (rs_tick st)
    (rs_tick (tabs_loop_at fd tks period interval chart its st).2) ->
  stores_stable st ->
  (tabs_loop_at fd tks period interval chart its st).1 = Done ds ->
  (fun d => Some (tab_ticker (dt_view d))) <$> ds = (fun it => tks !! it.1) <$> its
  /\ fetched_once quote_ttl hi ((fun d => tab_ticker (dt_view d)) <$> ds)
       (quote_memo (rs_session st))
       (quote_memo (rs_session (tabs_loop_at fd tks period interval chart its st).2))
  /\ fetched_once history_ttl hi
       ((fun d => (tab_ticker (dt_view d), period, interval)) <$> ds)
       (history_memo (rs_session st))
       (history_memo (rs_session (tabs_loop_at fd tks period interval chart its st).2)).
Proof.
  revert st ds. induction its as [|[i t] rest IH]; intros st ds.
  - cbn. intros _ _ [= <-]. split; [reflexivity|]. split; apply fetched_once_nil.
  - cbn [tabs_loop_at].
    destruct (py_index tks i) as [tk|e] eqn:Hidx; [|discriminate].
    pose proof (history_call_window tk period interval st) as Hhist.
    pose proof (history_call_fetches tk period interval st) as Hhf.
    assert (rs_tick (history_call fd tk period interval st).2 = S (rs_tick st))
      as Htick1 by reflexivity.
    set (st1 := (history_call fd tk period interval st).2) in *.
    destruct (history_call fd tk period interval st).1 as [df|e] eqn:Hdf;
      [|discriminate].
    pose proof (quote_call_window tk st1) as Hquote.
    pose proof (quote_call_fetches tk st1) as Hqf.
    assert (rs_tick (quote_call fd tk st1).2 = S (rs_tick st1)) as Htick2
      by reflexivity.
    set (st2 := (quote_call fd tk st1).2) in *.
    destruct (quote_call fd tk st1).1 as [q|e] eqn:Hq; [|discriminate].
    destruct (draw_tab chart q df) as [ws|fl] eqn:Hd; [|discriminate].
    destruct (tabs_loop_at_window tks period interval chart rest st2) as [Hle _].
    cbn [fst snd]. intros Hw Hs Hds.
    destruct Hhist as (S1 & _ & _); [apply Hw; lia | exact Hs|].
    destruct (Hhf df) as [Fh1 Eq1]; [apply Hw; lia | exact Hs | reflexivity|].
    destruct Hquote as (S2 & _ & _); [apply Hw; lia | exact S1|].
    destruct (Hqf q) as [Fq2 Eh2]; [apply Hw; lia | exact S1 | reflexivity|].
    destruct (tabs_loop_at fd tks period interval chart rest st2).1 as [ds'|fl] eqn:Hl;
      [|discriminate].
    cbn [abind] in Hds. injection Hds as <-.
    destruct (IH st2 ds') as (Hshape & Fq3 & Fh3);
      [intros j Hj; apply Hw; lia | exact S2 | exact Hl|].
    rewrite !fmap_cons. cbn [dt_view tab_ticker fst].
    apply py_index_elem in Hidx.
    split; [now rewrite Hshape, Hidx|]. split.
    + rewrite Eq1 in Fq2.
      exact (fetched_once_app quote_ttl hi [tk] _ _ _ _ Fq2 Fq3).
    + rewrite <- Eh2 in Fh1.
      exact (fetched_once_app history_ttl hi [(tk, period, interval)] _ _ _ _ Fh1 Fh3).
Qed.

End RunAt.

(** X14. Take a run in which the clock is read at every decorated call.
    If all readings of the run lie within an interval shorter than the
    quote time to live, and no entry of either store that is valid when
    the interval starts expires before it ends, then the numbers of the
    rendered page agree: the grid metric of a ticker shows the same quote
    as every tab of that ticker, and two tabs of the same ticker show the
    same quote, the same frame and the same widgets, whatever the provider
    answers at each call; and what a tab shows is what the two stores hold
    for its ticker, valid until the interval ends, when the run is over. *)
Theorem rendered_page_consistent :
  forall (fd : feed) (w : string) (r : Z) (chart : chart_type) (st : run_state)
         (lo hi : Z) (grid : list metric) (tabs : list drawn_tab) (at_ : Z),
    (script_page_at fd w r chart st).1 = PageRendered grid tabs at_ ->
    (forall i, (rs_tick st <= i < rs_tick (script_page_at fd w r chart st).2)%nat ->
               lo <= reading fd i <= hi) ->
    hi - lo < quote_ttl ->
    no_expiry_between quote_ttl lo hi (quote_memo (rs_session st)) ->
    no_expiry_between history_ttl lo hi (history_memo (rs_session st)) ->
    (forall c d, c ∈ grid -> d ∈ tabs -> m_ticker c = tab_ticker (dt_view d) ->
                 m_quote c = tab_quote (dt_view d))
    /\ (forall d d', d ∈ tabs -> d' ∈ tabs ->
                     tab_ticker (dt_view d) = tab_ticker (dt_view d') ->
                     tab_quote (dt_view d) = tab_quote (dt_view d')
                     /\ tab_history (dt_view d) = tab_history (dt_view d')
                     /\ dt_widgets d = dt_widgets d')
    /\ (forall d, d ∈ tabs ->
          cache_hit quote_ttl hi (tab_ticker (dt_view d))
            (quote_memo (rs_session (script_page_at fd w r chart st).2))
          = Some (tab_quote (dt_view d))
          /\ cache_hit history_ttl hi
               (tab_ticker (dt_view d), (range_map chart).1, (range_map chart).2)
               (history_memo (rs_session (script_page_at fd w r chart st).2))
             = Some (tab_history (dt_view d))).
Proof.
  intros fd w r chart st lo hi grid tabs at_. unfold script_page_at.
  destruct (tickers w) as [|t0 tks0] eqn:Ht; [discriminate|].
  set (tks := t0 :: tks0).
  unfold top_metrics_grid_at.
  destruct (st_columns (Nat.min 4 (length tks))) as [cols|e]; [|discriminate].
  set (its := enumerate (take 4 tks)).
  intros Hpage Hw Hshort Sq Sh.
  destruct (metrics_loop_at_window fd lo hi Hshort cols its st) as [Hle1 Hgrid].
  set (st1 := (metrics_loop_at fd cols its st).2) in *.
  destruct (metrics_loop_at fd cols its st).1 as [g|e] eqn:Hg; [|discriminate].
  cbn [st_tabs tks] in Hpage, Hw |- *. fold tks in Hpage, Hw |- *.
  set (tabits := enumerate (seq 0 (length tks))) in *.
  destruct (tabs_loop_at_window fd lo hi Hshort tks (range_map chart).1
              (range_map chart).2 chart tabits st1) as [Hle2 Htabs].
  set (st2 := (tabs_loop_at fd tks (range_map chart).1 (range_map chart).2 chart
                 tabits st1).2) in *.
  destruct (tabs_loop_at fd tks (range_map chart).1 (range_map chart).2 chart
              tabits st1).1 as [ds|fl] eqn:Hds; [|discriminate].
  cbn [fst snd] in Hpage, Hw |- *. injection Hpage as <- <- _.
  destruct Hgrid as (S1 & K1 & C1);
    [intros j Hj; apply Hw; lia | split; assumption|].
  destruct Htabs as (S2 & K2 & C2); [intros j Hj; apply Hw; lia | exact S1|].
  split; [|split].
  3:{ intros d Hd. destruct (C2 ds d eq_refl Hd) as (Hq & Hh & _).
      split; [exact Hq | exact Hh]. }
  - intros c d Hc Hd Heq. destruct (C2 ds d eq_refl Hd) as (Hq & _ & _).
    pose proof (proj1 K2 _ _ (C1 g c eq_refl Hc)) as Hgq.
    rewrite Heq in Hgq. congruence.
  - intros d d' Hd Hd' Heq.
    destruct (C2 ds d eq_refl Hd) as (Hq & Hh & Hdraw).
    destruct (C2 ds d' eq_refl Hd') as (Hq' & Hh' & Hdraw').
    rewrite Heq in Hq, Hh.
    assert (tab_quote (dt_view d) = tab_quote (dt_view d')) as Eq by congruence.
    assert (tab_history (dt_view d) = tab_history (dt_view d')) as Eh by congruence.
    split; [exact Eq|]. split; [exact Eh|]. rewrite Eq, Eh in Hdraw. congruence.
Qed.

(** X15. Take a run in which the clock is read at every decorated call,
    all readings lie within an interval shorter than the quote time to live,
    and no entry of either store that is valid when the interval starts
    expires before it ends. When the page is rendered, the run has called
    the provider for quotes exactly once for each distinct ticker of the
    watchlist that had no quote lasting until the interval ends, and for
    nothing else; likewise for the history of each distinct ticker under the
    period and interval of the chart mode. The log of each store is the old
    log followed by these calls. *)
Theorem one_fetch_per_ticker :
  forall (fd : feed) (w : string) (r : Z) (chart : chart_type) (st : run_state)
         (lo hi : Z) (grid : list metric) (tabs : list drawn_tab) (at_ : Z),
    (script_page_at fd w r chart st).1 = PageRendered grid tabs at_ ->
    (forall i, (rs_tick st <= i < rs_tick (script_page_at fd w r chart st).2)%nat ->
               lo <= reading fd i <= hi) ->
    hi - lo < quote_ttl ->
    no_expiry_between quote_ttl lo hi (quote_memo (rs_session st)) ->
    no_expiry_between history_ttl lo hi (history_memo (rs_session st)) ->
    (exists new : list (Z * string),
        calls (quote_memo (rs_session (script_page_at fd w r chart st).2))
        = calls (quote_memo (rs_session st)) ++ new
        /\ NoDup new.*2
        /\ (forall t, t ∈ new.*2 <->
              t ∈ tickers w
              /\ cache_hit quote_ttl hi t (quote_memo (rs_session st)) = None))
    /\ (exists new : list (Z * (string * string * string)),
          calls (history_memo (rs_session (script_page_at fd w r chart st).2))
          = calls (history_memo (rs_session st)) ++ new
          /\ NoDup new.*2
          /\ (forall k, k ∈ new.*2 <->
                (exists t, t ∈ tickers w
                           /\ k = (t, (range_map chart).1, (range_map chart).2))
                /\ cache_hit history_ttl hi k (history_memo (rs_session st)) = None)).
Proof.
  intros fd w r chart st lo hi grid tabs at_. unfold script_page_at.
  destruct (tickers w) as [|t0 tks0] eqn:Ht; [discriminate|].
  set (tks := t0 :: tks0).
  unfold top_metrics_grid_at.
  destruct (st_columns (Nat.min 4 (length tks))) as [cols|e]; [|discriminate].
  set (its := enumerate (take 4 tks)).
  intros Hpage Hw Hshort Sq Sh.
  destruct (metrics_loop_at_window fd lo hi Hshort cols its st) as [Hle1 Hgrid].
  pose proof (metrics_loop_at_fetches fd lo hi Hshort cols its st) as Hgf.
  set (st1 := (metrics_loop_at fd cols its st).2) in *.
  destruct (metrics_loop_at fd cols its st).1 as [g|e] eqn:Hg; [|discriminate].
  cbn [st_tabs tks] in Hpage, Hw |- *. fold tks in Hpage, Hw |- *.
  set (tabits := enumerate (seq 0 (length tks))) in *.
  destruct (tabs_loop_at_window fd lo hi Hshort tks (range_map chart).1
              (range_map chart).2 chart tabits st1) as [Hle2 _].
  pose proof (tabs_loop_at_fetches fd lo hi Hshort tks (range_map chart).1
                (range_map chart).2 chart tabits st1) as Htf.
  set (st2 := (tabs_loop_at fd tks (range_map chart).1 (range_map chart).2 chart
                 tabits st1).2) in *.
  destruct (tabs_loop_at fd tks (range_map chart).1 (range_map chart).2 chart
              tabits st1).1 as [ds|fl] eqn:Hds; [|discriminate].
  cbn [fst snd] in Hpage, Hw |- *. clear Hpage.
  destruct Hgrid as (S1 & _ & _);
    [intros j Hj; apply Hw; lia | split; assumption|].
  destruct (Hgf g) as (_ & Fq1 & Eh1);
    [intros j Hj; apply Hw; lia | split; assumption | reflexivity|].
  destruct (Htf ds) as (Hshape & Fq2 & Fh2);
    [intros j Hj; apply Hw; lia | exact S1 | reflexivity|].
  assert ((fun d => tab_ticker (dt_view d)) <$> ds = tks) as Hticks.
  { subst tabits. rewrite tab_indices_tickers in Hshape.
    apply (inj (fmap Some)). rewrite <- Hshape, <- list_fmap_compose. reflexivity. }
  split.
  - rewrite Hticks in Fq2. subst its. rewrite enumerate_snd in Fq1.
    destruct (fetched_once_app quote_ttl hi _ _ _ _ _ Fq1 Fq2)
      as (new & Hc & Hd & Hk & _).
    exists new. split; [exact Hc|]. split; [exact Hd|].
    intros t. rewrite Hk, elem_of_app. split; [|tauto].
    intros [[Hin|Hin] Hcold]; [|tauto].
    split; [|exact Hcold]. rewrite <- (take_drop 4 tks).
    apply elem_of_app. left. exact Hin.
  - rewrite Eh1 in Fh2. destruct Fh2 as (new & Hc & Hd & Hk & _).
    exists new. split; [exact Hc|]. split; [exact Hd|].
    intros k. rewrite Hk, <- Hticks, list_elem_of_fmap.
    split; intros [(x & Hx1 & Hx2) Hcold]; (split; [|exact Hcold]).
    + exists (tab_ticker (dt_view x)). split; [|exact Hx1].
      apply list_elem_of_fmap. exists x. split; [reflexivity | exact Hx2].
    + apply list_elem_of_fmap in Hx1 as (d & -> & Hd'). exists d.
      split; [exact Hx2 | exact Hd'].
Qed.

(** ** The two models of a run agree

    When every call reads the same time and gets the same provider, the run
    with a clock reading per call is the run at one reading. *)

Lemma session_eq (a b : session) :
  quote_memo a = quote_memo b -> history_memo a = history_memo b -> a = b.
Proof. destruct a, b. cbn. congruence. Qed.

Lemma metrics_loop_at_constant up now cols its st :
  (metrics_loop_at (constant_feed up now) cols its st).1
  = (metrics_loop up now cols its (quote_memo (rs_session st))).1
  /\ quote_memo (rs_session (metrics_loop_at (constant_feed up now) cols its st).2)
     = (metrics_loop up now cols its (quote_memo (rs_session st))).2
  /\ history_memo (rs_session (metrics_loop_at (constant_feed up now) cols its st).2)
     = history_memo (rs_session st).
Proof.
  revert st. induction its as [|[i t] rest IH]; intros st.
  - cbn. auto.
  - cbn [metrics_loop_at metrics_loop]. unfold quote_call.
    cbn [constant_feed reading answers fst snd].
    destruct (cached_fetch_quote up now t (quote_memo (rs_session st))) as [rq m1].
    cbn [fst snd].
    destruct (q <-- rq ;; metric_cell cols i t q) as [c|e]; [|cbn; auto].
    specialize (IH {| rs_session := {| quote_memo := m1;
                                       history_memo := history_memo (rs_session st) |};
                      rs_tick := S (rs_tick st) |}).
    cbn [rs_session quote_memo history_memo] in IH.
    destruct (metrics_loop up now cols rest m1) as [rr m2].
    destruct IH as (I1 & I2 & I3). cbn [fst snd] in *. rewrite I1. auto.
Qed.

Lemma tabs_loop_at_constant up now tks period interval chart its st :
  (tabs_loop_at (constant_feed up now) tks period interval chart its st).1
  = (tabs_loop_drawn up now tks period interval chart its (rs_session st)).1
  /\ rs_session (tabs_loop_at (constant_feed up now) tks period interval chart its st).2
     = (tabs_loop_drawn up now tks period interval chart its (rs_session st)).2.
Proof.
  revert st. induction its as [|[i t] rest IH]; intros st.
  - cbn. auto.
  - cbn [tabs_loop_at tabs_loop_drawn].
    destruct (py_index tks i) as [tk|e]; [|cbn; auto].
    unfold history_call, quote_call.
    cbn [constant_feed reading answers fst snd rs_session rs_tick quote_memo
         history_memo].
    destruct (cached_fetch_intraday_history up now tk period interval
                (history_memo (rs_session st))) as [[df|e] hm];
      cbn [fst snd]; [|auto].
    destruct (cached_fetch_quote up now tk (quote_memo (rs_session st)))
      as [[q|e] qm]; cbn [fst snd]; [|auto].
    destruct (draw_tab chart q df) as [ws|fl]; [|auto].
    specialize (IH {| rs_session := {| quote_memo := qm; history_memo := hm |};
                      rs_tick := S (S (rs_tick st)) |}).
    cbn [rs_session] in IH.
    destruct (tabs_loop_drawn up now tks period interval chart rest
                {| quote_memo := qm; history_memo := hm |}) as [rr s3].
    destruct IH as [I1 I2]. cbn [fst snd] in *. rewrite I1. auto.
Qed.

(** The run at one reading is the run with a clock in which every call
    reads [now] and is answered by [up]. *)
Lemma script_page_at_constant up now w r chart st :
  (script_page_at (constant_feed up now) w r chart st).1
  = (script_page up now w r chart (rs_session st)).1
  /\ rs_session (script_page_at (constant_feed up now) w r chart st).2
     = (script_page up now w r chart (rs_session st)).2.
Proof.
  unfold script_page_at, script_page, top_metrics_grid_at, top_metrics_grid.
  destruct (range_map chart) as [period interval] eqn:Hrange.
  cbn [fst snd].
  destruct (tickers w) as [|t0 tks0]; [auto|].
  destruct (st_columns (Nat.min 4 (length (t0 :: tks0)))) as [cols|e];
    [|cbn [fst snd]; split; [reflexivity | now apply session_eq]].
  destruct (metrics_loop_at_constant up now cols (enumerate (take 4 (t0 :: tks0))) st)
    as (G1 & G2 & G3).
  destruct (metrics_loop up now cols (enumerate (take 4 (t0 :: tks0)))
              (quote_memo (rs_session st))) as [rg qm].
  cbn [fst snd] in G1, G2. rewrite G1.
  set (g := metrics_loop_at (constant_feed up now) cols
              (enumerate (take 4 (t0 :: tks0))) st) in *.
  assert (rs_session g.2
          = {| quote_memo := qm; history_memo := history_memo (rs_session st) |})
    as Hs1 by now apply session_eq.
  destruct rg as [grid|e]; [|auto].
  destruct (st_tabs (t0 :: tks0)) as [tabs|e]; [|auto].
  destruct (tabs_loop_at_constant up now (t0 :: tks0) period interval chart
              (enumerate tabs) g.2) as [T1 T2].
  rewrite Hs1 in T1, T2.
  destruct (tabs_loop_drawn up now (t0 :: tks0) period interval chart
              (enumerate tabs) _) as [rt s2].
  cbn [fst snd] in T1, T2. rewrite T1.
  destruct rt as [drawn|fl]; cbn [fst snd]; auto.
Qed.

(** When the page is rendered, the run fetched exactly what
    [script_run] describes: the same grid, the same data per tab, the same
    rerun time and the same stores after it. *)
Theorem rendered_page_agrees_with_run :
  forall up now (w : string) (r : Z) (chart : chart_type) (s : session)
         (grid : list metric) (tabs : list drawn_tab) (at_ : Z),
    (script_page up now w r chart s).1 = PageRendered grid tabs at_ ->
    script_run up now w r chart s
    = (Rendered grid (dt_view <$> tabs) at_, (script_page up now w r chart s).2).
Proof.
  intros up now w r chart s grid tabs at_. unfold script_page, script_run.
  destruct (range_map chart) as [period interval].
  destruct (tickers w) as [|t0 tks0] eqn:Ht; [discriminate|].
  destruct (top_metrics_grid up now (t0 :: tks0) (quote_memo s)) as [[g|e] qm];
    [|discriminate].
  cbn [st_tabs].
  set (its := enumerate (seq 0 (length (t0 :: tks0)))).
  set (s1 := {| quote_memo := qm; history_memo := history_memo s |}).
  pose proof (tabs_loop_drawn_agrees up now (t0 :: tks0) period interval chart its s1)
    as Hag.
  destruct (tabs_loop_drawn up now (t0 :: tks0) period interval chart its s1)
    as [[ds|fl'] s2]; [|discriminate].
  cbn [fst snd] in *. intros [= <- <- <-]. now rewrite (Hag ds eq_refl).
Qed.

End Dashboard.

Arguments Done {A} a.
Arguments Failed {A} f.

(** ** Watchlist: parsing what was parsed *)

(** Whether a character occurs in a string. *)
Fixpoint has_char (c : ascii) (s : string) : bool :=
  match s with
  | EmptyString => false
  | String d r => Ascii.eqb d c || has_char c r
  end.

(** A ticker as the parser produces it. *)
Definition normal_ticker (t : string) : Prop :=
  t <> EmptyString /\ strip t = t /\ upper t = t /\ has_char "," t = false.

Lemma to_upper_comma (c : ascii) : Ascii.eqb (to_upper c) "," = Ascii.eqb c ",".
Proof. destruct c as [[] [] [] [] [] [] [] []]; reflexivity. Qed.

Lemma upper_has_comma (s : string) : has_char "," (upper s) = has_char "," s.
Proof.
  induction s as [|c r IH]; [reflexivity|].
  cbn [upper has_char]. now rewrite to_upper_comma, IH.
Qed.

Lemma lstrip_has_char (c : ascii) (s : string) :
  has_char c s = false -> has_char c (lstrip s) = false.
Proof.
  induction s as [|d r IH]; [reflexivity|]. cbn [lstrip].
  destruct (is_space d); [|exact id].
  cbn [has_char]. intros Hh. apply orb_false_iff in Hh as [_ Hh]. now apply IH.
Qed.

Lemma rstrip_has_char (c : ascii) (s : string) :
  has_char c s = false -> has_char c (rstrip s) = false.
Proof.
  induction s as [|d r IH]; [reflexivity|]. cbn [rstrip has_char].
  intros Hh. apply orb_false_iff in Hh as [Hd Hr]. specialize (IH Hr).
  destruct (rstrip r) as [|e r'].
  - destruct (is_space d); [reflexivity|]. cbn [has_char]. now rewrite Hd.
  - cbn [has_char] in IH |- *. now rewrite Hd, IH.
Qed.

Lemma split_pieces_no_sep (sep : ascii) (s : string) :
  Forall (fun p => has_char sep p = false) (split sep s).
Proof.
  induction s as [|c r IH]; cbn [split]; [repeat constructor|].
  destruct (Ascii.eqb c sep) eqn:Hc; [constructor; [reflexivity | exact IH]|].
  destruct (split sep r) as [|p ps]; [repeat constructor; cbn; now rewrite Hc|].
  inversion IH as [|? ? Hp Hps]; subst. constructor; [|exact Hps].
  cbn [has_char]. now rewrite Hc, Hp.
Qed.

Lemma split_no_sep (sep : ascii) (s : string) :
  has_char sep s = false -> split sep s = [s].
Proof.
  induction s as [|c r IH]; [reflexivity|]. cbn [has_char split].
  intros Hh. apply orb_false_iff in Hh as [Hc Hr]. now rewrite Hc, (IH Hr).
Qed.

Lemma split_join (sep : ascii) (l : list string) :
  l <> [] -> Forall (fun p => has_char sep p = false) l ->
  split sep (join (String sep EmptyString) l) = l.
Proof.
  induction l as [|x l IH]; [contradiction|]. intros _ Hall.
  inversion Hall as [|? ? Hx Hl]; subst.
  destruct l as [|y l].
  - cbn [join]. now apply split_no_sep.
  - change (join (String sep EmptyString) (x :: y :: l))
      with (x ++ String sep (join (String sep EmptyString) (y :: l)))%string.
    rewrite split_app, (split_no_sep sep x Hx), IH by (discriminate || assumption).
    reflexivity.
Qed.

Lemma tickers_normal (w t : string) : t ∈ tickers w -> normal_ticker t.
Proof.
  intros Ht. destruct (tickers_elem w t Ht) as (p & Hp & Hne & ->).
  split; [intros He; now apply Hne, upper_empty|].
  split; [now rewrite strip_upper, strip_idem|].
  split; [apply upper_idem|].
  rewrite upper_has_comma. unfold strip.
  apply rstrip_has_char, lstrip_has_char.
  pose proof (split_pieces_no_sep "," w) as Hall.
  rewrite Forall_forall in Hall. now apply Hall.
Qed.

Lemma omap_ticker_of_entry_normal (l : list string) :
  Forall normal_ticker l -> omap ticker_of_entry l = l.
Proof.
  induction 1 as [|t l (Hne & Hs & Hu & _) _ IH]; [reflexivity|].
  cbn [omap list_omap]. unfold ticker_of_entry at 1. rewrite Hs.
  destruct (String.eqb_spec t EmptyString) as [He|_]; [contradiction|].
  now rewrite Hu, IH.
Qed.

(** X16. Parsing is a round trip on its own results: a list of tickers
    that are non-empty, trimmed, upper-case and comma-free, joined with
    commas, parses back to itself; so the parsed watchlist, written out
    with commas and parsed again, is unchanged. *)
Theorem tickers_round_trip :
  (forall l : list string, Forall normal_ticker l -> tickers (join "," l) = l)
  /\ (forall w : string, tickers (join "," (tickers w)) = tickers w).
Proof.
  assert (forall l : list string, Forall normal_ticker l -> tickers (join "," l) = l)
    as Hnormal.
  { intros l Hall. destruct l as [|x l]; [reflexivity|].
    rewrite tickers_entries, split_join.
    - now apply omap_ticker_of_entry_normal.
    - discriminate.
    - eapply Forall_impl; [exact Hall|]. now intros t (_ & _ & _ & Hc). }
  split; [exact Hnormal|].
  intros w. apply Hnormal. apply Forall_forall. intros t. apply tickers_normal.
Qed.

(** * Worked examples *)

Lemma unavailable_quote_differs : unavailable_quote <> quote_aapl.
Proof. intros H. apply (f_equal currency) in H. discriminate H. Qed.

(** C1, as stated, fails. AAPL has an entry written at time 0; at time 20
    it has expired and the provider is down. The decorated [fetch_quote]
    does not return the prior entry: it returns the unavailable quote, which
    is a different value, and the store now holds that in place of the prior
    entry. *)
Lemma stale_quote_is_overwritten :
  store memo_aapl !! "AAPL"%string = Some (mkEntry quote_aapl 0)
  /\ raises (fetch_quote_try float_of_str_sample provider_down "AAPL")
  /\ (cached_fetch_quote float_of_str_sample provider_down 20 "AAPL" memo_aapl).1
       <> Ok quote_aapl
  /\ store (cached_fetch_quote float_of_str_sample provider_down 20 "AAPL"
              memo_aapl).2 !! "AAPL"%string
       <> Some (mkEntry quote_aapl 0).
Proof.
  assert (cached_fetch_quote float_of_str_sample provider_down 20 "AAPL" memo_aapl
          = (Ok unavailable_quote,
             {| store := <["AAPL"%string := mkEntry unavailable_quote 20]>
                           (store memo_aapl);
                calls := [(20, "AAPL"%string)] |})) as Hrun.
  { unfold cached_fetch_quote.
    rewrite (cache_data_miss quote_ttl _ 20 "AAPL"%string memo_aapl
               unavailable_quote); [reflexivity| |reflexivity].
    apply (cache_hit_stale quote_ttl 20 "AAPL"%string memo_aapl
             (mkEntry quote_aapl 0)); [|cbn; unfold quote_ttl; lia].
    apply lookup_singleton_eq. }
  split; [apply lookup_singleton_eq|].
  split; [eexists; reflexivity|].
  rewrite Hrun. cbn [fst snd store]. split.
  - intros H. apply unavailable_quote_differs. congruence.
  - rewrite lookup_insert_eq. intros H. apply unavailable_quote_differs.
    congruence.
Qed.


(** C2 does not hold for the history fetcher. With the provider down,
    [fetch_intraday_history] raises the provider's exception, the decorated
    function passes it on, and the run of the script is aborted by it;
    [fetch_quote], on the same provider, catches it and returns the
    unavailable quote. *)
Theorem history_fetch_error_escapes :
  fetch_intraday_history provider_down "AAPL" "1d" "1m" =
    Raise (ProviderError "timeout")
  /\ (cached_fetch_intraday_history provider_down 0 "AAPL" "1d" "1m"
        memo_empty).1 = Raise (ProviderError "timeout")
  /\ fetch_quote float_of_str_sample provider_down "AAPL" = Ok unavailable_quote
  /\ (script_run float_of_str_sample provider_down 0 "AAPL" 10 Line_1m
        session_empty).1 = Crashed (ProviderError "timeout").
Proof. repeat split; reflexivity. Qed.

(** [fetch_quote] on a malformed [open] and on an absent [open]. *)
Lemma fetch_quote_all_or_nothing_witness :
  fetch_quote float_of_str_sample provider_malformed_open "AAPL" =
    Ok unavailable_quote
  /\ fetch_quote float_of_str_sample provider_absent_open "AAPL" =
       Ok {| last_price := 189.5%float; open := np_nan;
             previous_close := 187.25%float;
             currency := PyStr "USD"; exchange := PyStr "NMS" |}.
Proof.
  destruct (fetch_quote_all_or_nothing float_of_str_sample)
    as (_ & _ & _ & _ & Hbad & Habsent & _).
  split.
  - apply (Hbad provider_malformed_open "AAPL"%string info_malformed_open
             "open"%string (PyStr "abc")).
    + reflexivity.
    + unfold numeric_keys. apply elem_of_cons. right. apply elem_of_cons. now left.
    + reflexivity.
    + discriminate.
    + exists ValueError. reflexivity.
  - apply (Habsent provider_absent_open "AAPL"%string info_absent_open
             (Some 189.5%float) None (Some 187.25%float)
             (PyStr "USD") (PyStr "NMS")); reflexivity.
Defined.

(** The outage of the counterexample, through the amended statement. *)
Lemma failed_fetch_is_stored_witness :
  cached_fetch_quote float_of_str_sample provider_down 20 "AAPL" memo_aapl =
    (Ok unavailable_quote,
     {| store := <["AAPL"%string := mkEntry unavailable_quote 20]> (store memo_aapl);
        calls := calls memo_aapl ++ [(20, "AAPL"%string)] |})
  /\ cached_fetch_intraday_history provider_malformed_open 40 "AAPL" "1d" "1m"
       memo_line =
       (Ok pd_DataFrame,
        {| store := <[("AAPL", "1d", "1m")%string := mkEntry pd_DataFrame 40]>
                      (store memo_line);
           calls := calls memo_line ++ [(40, ("AAPL", "1d", "1m")%string)] |}).
Proof.
  destruct (failed_fetch_is_stored float_of_str_sample) as (Hq & Hh & Hstale).
  split.
  - apply Hq.
    + apply (Hstale _ _ _ _ quote_ttl 20 "AAPL"%string memo_aapl
               (mkEntry quote_aapl 0)); [apply lookup_singleton_eq|].
      cbn. unfold quote_ttl. lia.
    + eexists. reflexivity.
  - apply Hh.
    + apply (Hstale _ _ _ _ history_ttl 40 ("AAPL", "1d", "1m")%string memo_line
               (mkEntry (frame_with (Some America_New_York)) 0));
        [apply lookup_singleton_eq|].
      cbn. unfold history_ttl. lia.
    + left. reflexivity.
Defined.

Lemma pct_change_contract_witness :
  pct_change (PyFloat 189.5%float) (PyFloat 187.25%float) =
    Ok (PyFloat ((189.5 - 187.25) / 187.25 * 100)%float)
  /\ pct_change (PyFloat 189.5%float) (PyFloat np_nan) = Ok (PyFloat np_nan)
  /\ returns (pct_change PyNone PyNone) = true.
Proof.
  destruct pct_change_contract as (Hundef & Hdef & Hret & _).
  split; [apply Hdef; reflexivity|].
  split; [apply Hundef; reflexivity|].
  apply Hret; reflexivity.
Defined.


(** The same two bars, fetched naive and fetched in UTC. *)
Lemma history_timestamps_new_york_witness :
  exists df1 df2,
    fetch_intraday_history (provider_frame None) "AAPL" "1d" "1m" = Ok df1
    /\ fetch_intraday_history (provider_frame (Some UTC)) "AAPL" "1d" "1m" = Ok df2
    /\ df1 = df2
    /\ utcoffsets db_fixed (index df1) = utcoffsets db_fixed (index df2)
    /\ utcoffsets db_fixed (index df1) =
         map (fun x => Some (db_fixed America_New_York x)) sample_stamps.
Proof.
  destruct history_timestamps_new_york as (_ & _ & Hsame).
  apply (Hsame db_fixed (provider_frame None) (provider_frame (Some UTC))
           "AAPL"%string "1d"%string "1m"%string UTC sample_stamps
           ["Close"%string] sample_rows);
    [reflexivity | reflexivity | discriminate | discriminate].
Defined.

Lemma no_rows_gives_empty_frame_witness :
  fetch_intraday_history provider_absent_open "ZZZZ" "1d" "1m" = Ok pd_DataFrame
  /\ fetch_intraday_history provider_down "ZZZZ" "1d" "1m" <> Ok pd_DataFrame.
Proof.
  destruct no_rows_gives_empty_frame as (Hnone & _ & _ & Hraise).
  split.
  - apply Hnone. reflexivity.
  - apply (Hraise provider_down _ _ _ (ProviderError "timeout")). reflexivity.
Defined.

(** Two reads of AAPL at times 5 and 10 against the entry written at 0, with
    the provider down: both are hits and nothing is fetched. Two calls at
    times 100 and 110 on an empty store: the first fetches and stores, the
    second, made while the provider is down, returns what was stored. *)
Lemma cache_hit_within_ttl_witness :
  cached_fetch_quote float_of_str_sample provider_down 5 "AAPL" memo_aapl =
    (Ok quote_aapl, memo_aapl)
  /\ cached_fetch_quote float_of_str_sample provider_down 10 "AAPL"
       (cached_fetch_quote float_of_str_sample provider_down 5 "AAPL" memo_aapl).2 =
       (Ok quote_aapl, memo_aapl)
  /\ (runs (cached_fetch_quote float_of_str_sample provider_absent_open 110 "AAPL"
              (cached_fetch_quote float_of_str_sample provider_absent_open 100
                 "AAPL" memo_empty).2).2 <= 1)%nat
  /\ (runs (cached_fetch_intraday_history (provider_frame None) 125 "AAPL" "1d" "1m"
              (cached_fetch_intraday_history (provider_frame None) 100
                 "AAPL" "1d" "1m" memo_empty).2).2 <= 1)%nat
  /\ (exists q,
        fetch_quote float_of_str_sample provider_absent_open "AAPL" = Ok q
        /\ cached_fetch_quote float_of_str_sample provider_absent_open 100 "AAPL"
             memo_empty =
             (Ok q, {| store := <["AAPL"%string := mkEntry q 100]> ∅;
                       calls := [(100, "AAPL"%string)] |})
        /\ cached_fetch_quote float_of_str_sample provider_down 110 "AAPL"
             (cached_fetch_quote float_of_str_sample provider_absent_open 100
                "AAPL" memo_empty).2 =
             (Ok q, (cached_fetch_quote float_of_str_sample provider_absent_open 100
                       "AAPL" memo_empty).2)).
Proof.
  destruct (cache_hit_within_ttl float_of_str_sample)
    as (_ & _ & _ & Hq & _ & Hq2 & Hh2 & Hq3 & _).
  split; [|split; [|split; [|split]]].
  - apply (Hq provider_down provider_down 5 10 "AAPL"%string memo_aapl
             (mkEntry quote_aapl 0));
      [apply lookup_singleton_eq | reflexivity | reflexivity].
  - apply (Hq provider_down provider_down 5 10 "AAPL"%string memo_aapl
             (mkEntry quote_aapl 0));
      [apply lookup_singleton_eq | reflexivity | reflexivity].
  - apply (Hq2 provider_absent_open provider_absent_open 100 110 "AAPL"%string
             memo_empty). reflexivity.
  - apply (Hh2 (provider_frame None) (provider_frame None) 100 125
             "AAPL"%string "1d"%string "1m"%string memo_empty);
      reflexivity.
  - apply (Hq3 provider_absent_open provider_down 100 110 "AAPL"%string memo_empty);
      reflexivity.
Defined.

(** A Candlestick fetch for AAPL leaves the Line entry of AAPL in place. *)
Lemma history_cache_keyed_by_triple_witness :
  store (cached_fetch_intraday_history (provider_frame None) 100 "AAPL" "5d" "5m"
           memo_line).2 !! ("AAPL", "1d", "1m")%string =
    Some (mkEntry (frame_with (Some America_New_York)) 0).
Proof.
  destruct (history_cache_keyed_by_triple float_of_str_sample) as (Hframe & _).
  rewrite Hframe; [apply lookup_singleton_eq | discriminate].
Defined.


(** A watchlist with a repeated ticker, drawn as lines from a provider
    whose frames have a [Close] column only. *)
Definition sample_page : page * session :=
  script_page float_of_str_sample (provider_frame None) 100
    "aapl, msft ,, msft" 10 Line_1m session_empty.

(** The same run in candlestick mode. *)
Definition sample_page_candles : page * session :=
  script_page float_of_str_sample (provider_frame None) 100
    "aapl, msft ,, msft" 10 Candlestick_5m session_empty.

Lemma sample_page_rendered :
  sample_page.1 = PageRendered (page_grid sample_page.1) (page_tabs sample_page.1)
                    (page_rerun_at sample_page.1).
Proof. vm_compute. reflexivity. Qed.

Lemma fetched_charts_in_new_york_witness :
  exists st,
    DatetimeIndex (Some America_New_York) sample_stamps
    = DatetimeIndex (Some America_New_York) st.
Proof.
  apply (fetched_charts_in_new_york (provider_frame None) "AAPL" "1d" "1m" Line_1m
           (frame_with (Some America_New_York))
           [Scatter (DatetimeIndex (Some America_New_York) sample_stamps)
              [189.5%float; 189.75%float]]
           (Scatter (DatetimeIndex (Some America_New_York) sample_stamps)
              [189.5%float; 189.75%float])).
  - reflexivity.
  - reflexivity.
  - constructor.
  - reflexivity.
Defined.

(** In candlestick mode the same frames lack [Open]: the run fails. *)
Lemma page_failure_causes_witness :
  (exists t e,
      KeyError "Open" = Uncaught e /\ t ∈ tickers "aapl, msft ,, msft"
      /\ fetch_intraday_history (provider_frame None) t
           (range_map Candlestick_5m).1 (range_map Candlestick_5m).2 = Raise e)
  \/ (exists t df c,
        KeyError "Open" = KeyError c /\ t ∈ tickers "aapl, msft ,, msft"
        /\ cache_hit history_ttl 100
             (t, (range_map Candlestick_5m).1, (range_map Candlestick_5m).2)
             (history_memo sample_page_candles.2) = Some df
        /\ df_empty df = false
        /\ c ∈ needed_columns Candlestick_5m /\ c ∉ columns df).
Proof.
  apply (page_failure_causes float_of_str_sample (provider_frame None) 100
           "aapl, msft ,, msft" 10 Candlestick_5m session_empty (KeyError "Open")).
  - intros t df Hf. cbn in Hf. injection Hf as <-. cbn. apply NoDup_singleton.
  - intros k e Hl. cbn in Hl. rewrite lookup_empty in Hl. discriminate.
  - vm_compute. reflexivity.
Defined.

Lemma rendered_page_shape_witness :
  page_rerun_at sample_page.1 = 100 + 10
  /\ (fun d => tab_ticker (dt_view d)) <$> page_tabs sample_page.1
     = tickers "aapl, msft ,, msft"
  /\ (fun d => tab_handle (dt_view d)) <$> page_tabs sample_page.1
     = seq 0 (length (tickers "aapl, msft ,, msft"))
  /\ m_ticker <$> page_grid sample_page.1 = take 4 (tickers "aapl, msft ,, msft")
  /\ (forall d, d ∈ page_tabs sample_page.1 ->
        draw_tab Line_1m (tab_quote (dt_view d)) (tab_history (dt_view d))
        = Done (dt_widgets d)).
Proof.
  apply (rendered_page_shape float_of_str_sample (provider_frame None) 100
           "aapl, msft ,, msft" 10 Line_1m session_empty).
  exact sample_page_rendered.
Defined.

(** A run in which the clock advances by one at every decorated call. *)
Definition sample_feed : feed :=
  mkFeed (fun n => 100 + Z.of_nat n) (fun _ => provider_frame None).

Definition sample_page_at : page * run_state :=
  script_page_at float_of_str_sample sample_feed "aapl, msft ,, msft" 10 Line_1m
    (mkRunState session_empty 0).

Lemma sample_page_at_rendered :
  sample_page_at.1
  = PageRendered (page_grid sample_page_at.1) (page_tabs sample_page_at.1)
      (page_rerun_at sample_page_at.1).
Proof. vm_compute. reflexivity. Qed.

(** The run makes nine decorated calls: three for the grid, two per tab. *)
Lemma sample_page_at_ticks : rs_tick sample_page_at.2 = 9%nat.
Proof. vm_compute. reflexivity. Qed.

Lemma sample_feed_within (i : nat) :
  (0 <= i < rs_tick sample_page_at.2)%nat -> 100 <= reading sample_feed i <= 108.
Proof. rewrite sample_page_at_ticks. cbn [reading sample_feed]. lia. Qed.

Lemma memo_empty_no_expiry {K V} `{Countable K} (ttl lo hi : Z) :
  no_expiry_between ttl lo hi (memo_empty : memo K V).
Proof. intros k e Hl. cbn in Hl. rewrite lookup_empty in Hl. discriminate. Qed.

Lemma blank_watchlist_stops_witness :
  is_ascii " , ," = true
  /\ script_page float_of_str_sample provider_down 100 " , ," 10 Line_1m session_empty
     = (PageStopped, session_empty)
  /\ script_page_at float_of_str_sample sample_feed " , ," 10 Line_1m
       (mkRunState session_empty 0)
     = (PageStopped, mkRunState session_empty 0).
Proof.
  split; [reflexivity|].
  apply (blank_watchlist_stops float_of_str_sample provider_down 100 sample_feed
           " , ," 10 Line_1m session_empty (mkRunState session_empty 0) eq_refl).
  repeat constructor.
Defined.

Lemma rendered_page_consistent_witness :
  (forall c d, c ∈ page_grid sample_page_at.1 -> d ∈ page_tabs sample_page_at.1 ->
               m_ticker c = tab_ticker (dt_view d) ->
               m_quote c = tab_quote (dt_view d))
  /\ (forall d d', d ∈ page_tabs sample_page_at.1 -> d' ∈ page_tabs sample_page_at.1 ->
                   tab_ticker (dt_view d) = tab_ticker (dt_view d') ->
                   tab_quote (dt_view d) = tab_quote (dt_view d')
                   /\ tab_history (dt_view d) = tab_history (dt_view d')
                   /\ dt_widgets d = dt_widgets d')
  /\ (forall d, d ∈ page_tabs sample_page_at.1 ->
        cache_hit quote_ttl 108 (tab_ticker (dt_view d))
          (quote_memo (rs_session sample_page_at.2))
        = Some (tab_quote (dt_view d))
        /\ cache_hit history_ttl 108
             (tab_ticker (dt_view d), (range_map Line_1m).1, (range_map Line_1m).2)
             (history_memo (rs_session sample_page_at.2))
           = Some (tab_history (dt_view d))).
Proof.
  apply (rendered_page_consistent float_of_str_sample sample_feed
           "aapl, msft ,, msft" 10 Line_1m (mkRunState session_empty 0) 100 108
           (page_grid sample_page_at.1) (page_tabs sample_page_at.1)
           (page_rerun_at sample_page_at.1)).
  - exact sample_page_at_rendered.
  - exact sample_feed_within.
  - unfold quote_ttl. lia.
  - apply memo_empty_no_expiry.
  - apply memo_empty_no_expiry.
Defined.

(** With empty stores the run fetches the quote and the history of AAPL and
    of MSFT once each, although MSFT is listed twice and every ticker is read
    by the grid and by its tab. *)
Lemma one_fetch_per_ticker_witness :
  (exists new : list (Z * string),
      calls (quote_memo (rs_session sample_page_at.2))
      = calls (quote_memo session_empty) ++ new
      /\ NoDup new.*2
      /\ (forall t, t ∈ new.*2 <->
            t ∈ tickers "aapl, msft ,, msft"
            /\ cache_hit quote_ttl 108 t (quote_memo session_empty) = None))
  /\ (exists new : list (Z * (string * string * string)),
        calls (history_memo (rs_session sample_page_at.2))
        = calls (history_memo session_empty) ++ new
        /\ NoDup new.*2
        /\ (forall k, k ∈ new.*2 <->
              (exists t, t ∈ tickers "aapl, msft ,, msft"
                         /\ k = (t, (range_map Line_1m).1, (range_map Line_1m).2))
              /\ cache_hit history_ttl 108 k (history_memo session_empty) = None)).
Proof.
  apply (one_fetch_per_ticker float_of_str_sample sample_feed
           "aapl, msft ,, msft" 10 Line_1m (mkRunState session_empty 0) 100 108
           (page_grid sample_page_at.1) (page_tabs sample_page_at.1)
           (page_rerun_at sample_page_at.1)).
  - exact sample_page_at_rendered.
  - exact sample_feed_within.
  - unfold quote_ttl. lia.
  - apply memo_empty_no_expiry.
  - apply memo_empty_no_expiry.
Defined.

Lemma rendered_page_agrees_with_run_witness :
  script_run float_of_str_sample (provider_frame None) 100
    "aapl, msft ,, msft" 10 Line_1m session_empty
  = (Rendered (page_grid sample_page.1) (dt_view <$> page_tabs sample_page.1)
       (page_rerun_at sample_page.1), sample_page.2).
Proof.
  apply (rendered_page_agrees_with_run float_of_str_sample (provider_frame None) 100
           "aapl, msft ,, msft" 10 Line_1m session_empty).
  exact sample_page_rendered.
Defined.

(** * Smart home login: properties *)

Module SmartHomeFacts.
Import SmartHome.

(** The credentials a form carries for an account of [a]. *)
Definition credentials_match (f a : gmap string string) (u : string) : Prop :=
  f !! "username"%string = Some u
  /\ exists p, f !! "password"%string = Some p /\ a !! u = Some p.

Lemma login_cases (f : gmap string string) (st : state) :
  (exists u, credentials_match f (users st) u
             /\ login f st =
                  (Redirect "/",
                   {| users := users st;
                      session := <["user"%string := u]> (session st) |}))
  \/ ((forall u, ~ credentials_match f (users st) u)
      /\ login f st = (invalid_login, st)).
Proof.
  unfold login, credentials_match.
  destruct (f !! "username"%string) as [u|] eqn:Hu.
  - destruct (users st !! u) as [stored|] eqn:Hs.
    + case_bool_decide as Hp.
      * left. exists u. split; [|reflexivity].
        split; [reflexivity|]. exists stored. now split.
      * right. split; [|reflexivity].
        intros u' [[= <-] (p & Hp' & Hs')]. apply Hp. congruence.
    + right. split; [|reflexivity].
      intros u' [[= <-] (p & _ & Hs')]. congruence.
  - right. split; [|reflexivity]. intros u' [Hu' _]. discriminate.
Qed.

Lemma py_in_true (k : option string) (d : gmap string string) :
  py_in k d = true <-> exists u, k = Some u /\ is_Some (d !! u).
Proof.
  destruct k as [u|]; cbn.
  - rewrite bool_decide_eq_true. split; [eauto|]. now intros (u' & [= <-] & H).
  - split; [discriminate|]. now intros (u' & [=] & _).
Qed.

Lemma py_not_false (v : option string) :
  py_not v = false <-> exists s, v = Some s /\ s <> EmptyString.
Proof.
  destruct v as [s|]; cbn.
  - destruct (String.eqb_spec s EmptyString) as [->|Hne].
    + split; [discriminate|]. intros (s' & [= <-] & H). now contradiction H.
    + split; [eauto|reflexivity].
  - split; [discriminate|]. now intros (s' & [=] & _).
Qed.

(** A form field that was not sent or was sent empty. *)
Definition missing_or_empty (v : option string) : Prop :=
  v = None \/ v = Some EmptyString.

Lemma py_not_true (v : option string) : py_not v = true <-> missing_or_empty v.
Proof.
  unfold missing_or_empty. destruct v as [s|]; cbn.
  - destruct (String.eqb_spec s EmptyString) as [->|Hne].
    + split; auto.
    + split; [discriminate|]. intros [[=]|[= ->]]. now contradiction Hne.
  - split; auto.
Qed.

Lemma py_in_false (k : option string) (d : gmap string string) :
  py_in k d = false <-> forall u, k = Some u -> d !! u = None.
Proof.
  destruct k as [u|]; cbn.
  - rewrite bool_decide_eq_false, <- eq_None_not_Some.
    split; [now intros H u' [= <-] | auto].
  - split; [now intros _ u' [=] | reflexivity].
Qed.

(** What a [POST] to [register] does, by the state of the form. *)
Inductive register_outcome (f : gmap string string) (st : state)
    : response * state -> Prop :=
  | reg_taken u :
      f !! "username"%string = Some u -> is_Some (users st !! u) ->
      register_outcome f st (username_taken, st)
  | reg_incomplete :
      (forall u, f !! "username"%string = Some u -> users st !! u = None) ->
      missing_or_empty (f !! "username"%string)
      \/ missing_or_empty (f !! "password"%string) ->
      register_outcome f st (fill_all_fields, st)
  | reg_created u p :
      f !! "username"%string = Some u -> f !! "password"%string = Some p ->
      u <> EmptyString -> p <> EmptyString -> users st !! u = None ->
      register_outcome f st
        (Redirect "/",
         {| users := <[u := p]> (users st);
            session := <["user"%string := u]> (session st) |}).

Lemma register_post_cases (f : gmap string string) (st : state) :
  register_outcome f st (register POST f st).
Proof.
  unfold register.
  destruct (py_in (f !! "username"%string) (users st)) eqn:Hin.
  - apply py_in_true in Hin as (u & Hu & Hs). now apply (reg_taken f st u).
  - destruct (py_not (f !! "username"%string) || py_not (f !! "password"%string))
      eqn:Hnot.
    + apply reg_incomplete; [now apply py_in_false|].
      apply orb_true_iff in Hnot as [H|H]; apply py_not_true in H; auto.
    + apply orb_false_iff in Hnot as [Hnu Hnp].
      apply py_not_false in Hnu as (u & Hu & Hune).
      apply py_not_false in Hnp as (p & Hp & Hpne).
      rewrite Hu, Hp. apply reg_created; try assumption.
      rewrite Hu in Hin. cbn in Hin. apply bool_decide_eq_false in Hin.
      destruct (users st !! u) eqn:Hl; [|reflexivity].
      exfalso. apply Hin. eauto.
Qed.

(** What one request does to the two dicts: the accounts stay or gain one
    fresh account with non-empty name and password; the session stays,
    loses its user, or is bound to a user whose password the form carries. *)
Lemma dispatch_effect (r : request) (st : state) :
  (users (dispatch r st).2 = users st
   \/ exists u p,
        users st !! u = None /\ u <> EmptyString /\ p <> EmptyString
        /\ path r = "/register"%string /\ method r = POST
        /\ form r !! "username"%string = Some u
        /\ form r !! "password"%string = Some p
        /\ users (dispatch r st).2 = <[u := p]> (users st))
  /\ (session (dispatch r st).2 = session st
      \/ session (dispatch r st).2 = delete "user"%string (session st)
      \/ exists u,
           method r = POST
           /\ credentials_match (form r) (users (dispatch r st).2) u
           /\ session (dispatch r st).2 = <["user"%string := u]> (session st)).
Proof.
  unfold dispatch.
  destruct (String.eqb_spec (path r) "/") as [Hp|_].
  { destruct (method r); [unfold home; destruct (session st !! _)|]; cbn; auto. }
  destruct (String.eqb_spec (path r) "/login") as [Hp|_].
  { destruct (method r) eqn:Hm; [cbn; auto|].
    destruct (login_cases (form r) st) as [(u & Hc & ->)|[_ ->]]; cbn; [|auto].
    split; [auto|]. right. right. exists u. auto. }
  destruct (String.eqb_spec (path r) "/register") as [Hp|_].
  { destruct (method r) eqn:Hm; [cbn; auto|].
    destruct (register_post_cases (form r) st) as [u Hu Hs| |u p Hu Hp' Hun Hpn Hf];
      cbn; [auto|auto|].
    split.
    - right. exists u, p. split_and!; first [assumption | reflexivity].
    - right. right. exists u. split; [reflexivity|]. split; [|reflexivity].
      split; [exact Hu|]. exists p. split; [exact Hp'|]. apply lookup_insert_eq. }
  destruct (String.eqb_spec (path r) "/logout") as [Hp|_].
  { destruct (method r); cbn; auto. }
  cbn. auto.
Qed.

Lemma dispatch_users_subseteq (r : request) (st : state) :
  users st ⊆ users (dispatch r st).2.
Proof.
  destruct (dispatch_effect r st) as [[->|(u & p & Hf & _ & _ & _ & _ & _ & _ & ->)] _].
  - reflexivity.
  - now apply insert_subseteq.
Qed.

Lemma serve_accounts (c : string) (r : request) (sv : server) :
  accounts (serve c r sv).2 =
    users (dispatch r {| users := accounts sv; session := session_of c sv |}).2.
Proof. unfold serve. now destruct (dispatch r _). Qed.

Lemma serve_sessions (c : string) (r : request) (sv : server) :
  sessions (serve c r sv).2 =
    <[c := session (dispatch r {| users := accounts sv;
                                  session := session_of c sv |}).2]> (sessions sv).
Proof. unfold serve. now destruct (dispatch r _). Qed.

Lemma serve_response (c : string) (r : request) (sv : server) :
  (serve c r sv).1 =
    (dispatch r {| users := accounts sv; session := session_of c sv |}).1.
Proof. unfold serve. now destruct (dispatch r _). Qed.

Lemma session_of_serve (c : string) (r : request) (sv : server) :
  session_of c (serve c r sv).2 =
    session (dispatch r {| users := accounts sv; session := session_of c sv |}).2.
Proof. unfold session_of. now rewrite serve_sessions, lookup_insert_eq. Qed.

Lemma session_of_serve_other (c c' : string) (r : request) (sv : server) :
  c' <> c -> session_of c' (serve c r sv).2 = session_of c' sv.
Proof.
  intros Hne. unfold session_of. rewrite serve_sessions.
  now rewrite lookup_insert_ne.
Qed.

Lemma serve_accounts_subseteq (c : string) (r : request) (sv : server) :
  accounts sv ⊆ accounts (serve c r sv).2.
Proof.
  rewrite serve_accounts.
  apply (dispatch_users_subseteq r {| users := accounts sv; session := session_of c sv |}).
Qed.

Lemma serve_all_accounts_subseteq (rs : list (string * request)) (sv : server) :
  accounts sv ⊆ accounts (serve_all rs sv).
Proof.
  revert sv. induction rs as [|[c r] rest IH]; intros sv; cbn [serve_all].
  - reflexivity.
  - etrans; [apply (serve_accounts_subseteq c r)|apply IH].
Qed.

(** X1. [POST /login] lets a request in exactly when its form names an
    account and carries that account's password: the session is then bound
    to that user and the accounts are untouched. In every other case, a
    missing field included, the answer is the login page with its error and
    nothing changes, not even a session that was already logged in.
    [GET /login] is refused with 405. *)
Theorem login_accepts_matching_credentials_only :
  forall (f : gmap string string) (st : state),
    ((exists u, credentials_match f (users st) u
                /\ dispatch (mkRequest "/login" POST f) st =
                     (Redirect "/",
                      {| users := users st;
                         session := <["user"%string := u]> (session st) |}))
     \/ ((forall u, ~ credentials_match f (users st) u)
         /\ dispatch (mkRequest "/login" POST f) st = (invalid_login, st)))
    /\ dispatch (mkRequest "/login" GET f) st = (Abort 405, st).
Proof.
  intros f st. split; [|reflexivity].
  change (dispatch (mkRequest "/login" POST f) st) with (login f st).
  destruct (login_cases f st) as [(u & Hc & Hl)|[Hn Hl]]; [left|right].
  - exists u. now split.
  - now split.
Qed.

(** X2. [POST /register] has three outcomes, tried in this order: a
    username that is already an account gives "already taken" (even with an
    empty password); otherwise a missing or empty field gives "fill all
    fields"; otherwise the account is created with that password and the
    session is bound to the new user. The two error outcomes change
    nothing. [GET /register] shows the blank form and changes nothing. *)
Theorem register_outcomes :
  forall (f : gmap string string) (st : state),
    register_outcome f st (dispatch (mkRequest "/register" POST f) st)
    /\ dispatch (mkRequest "/register" GET f) st = (Render register_page ∅, st).
Proof.
  intros f st. split; [|reflexivity].
  change (dispatch (mkRequest "/register" POST f) st) with (register POST f st).
  apply register_post_cases.
Qed.

(** X3. No sequence of requests, from any clients, removes an account or
    changes the password of an existing one: the accounts before are a
    sub-map of the accounts after. *)
Theorem accounts_only_grow :
  forall (rs : list (string * request)) (sv : server) (u p : string),
    accounts sv !! u = Some p -> accounts (serve_all rs sv) !! u = Some p.
Proof.
  intros rs sv u p Hu.
  eapply lookup_weaken; [exact Hu | apply serve_all_accounts_subseteq].
Qed.

(** Every account has a non-empty name and a non-empty password. *)
Definition nonempty_credentials (a : gmap string string) : Prop :=
  forall u p, a !! u = Some p -> u <> EmptyString /\ p <> EmptyString.

Lemma serve_nonempty_credentials (c : string) (r : request) (sv : server) :
  nonempty_credentials (accounts sv) ->
  nonempty_credentials (accounts (serve c r sv).2).
Proof.
  intros Hne. rewrite serve_accounts.
  destruct (dispatch_effect r {| users := accounts sv; session := session_of c sv |})
    as [[->|(u & p & _ & Hu & Hp & _ & _ & _ & _ & ->)] _]; [exact Hne|].
  intros u' p' Hl. cbn [users] in Hl.
  destruct (decide (u = u')) as [<-|Hd].
  - rewrite lookup_insert_eq in Hl. injection Hl as <-. now split.
  - rewrite lookup_insert_ne in Hl by exact Hd. now apply Hne.
Qed.

(** X4. If every account has a non-empty name and a non-empty password,
    this is still so after any sequence of requests: [register] never
    stores an empty name or an empty password. *)
Theorem credentials_stay_nonempty :
  forall (rs : list (string * request)) (sv : server),
    nonempty_credentials (accounts sv) ->
    nonempty_credentials (accounts (serve_all rs sv)).
Proof.
  intros rs. induction rs as [|[c r] rest IH]; intros sv Hne; cbn [serve_all].
  - exact Hne.
  - apply IH. now apply serve_nonempty_credentials.
Qed.

(** Every session that is logged in names an account. *)
Definition sessions_registered (sv : server) : Prop :=
  forall c u, logged_in (session_of c sv) = Some u -> is_Some (accounts sv !! u).

Lemma serve_sessions_registered (c : string) (r : request) (sv : server) :
  sessions_registered sv -> sessions_registered (serve c r sv).2.
Proof.
  intros Hreg c' u Hu.
  destruct (decide (c' = c)) as [->|Hne].
  - rewrite session_of_serve in Hu. rewrite serve_accounts.
    set (st := {| users := accounts sv; session := session_of c sv |}) in *.
    destruct (dispatch_effect r st) as [_ [Hs|[Hs|(u' & _ & Hc & Hs)]]];
      rewrite Hs in Hu; unfold logged_in in Hu.
    + destruct (Hreg c u Hu) as [p Hp]. exists p.
      eapply lookup_weaken; [exact Hp | apply (dispatch_users_subseteq r st)].
    + rewrite lookup_delete_eq in Hu. discriminate.
    + rewrite lookup_insert_eq in Hu. injection Hu as <-.
      destruct Hc as (_ & p & _ & Hp). now exists p.
  - rewrite session_of_serve_other in Hu by exact Hne.
    destruct (Hreg c' u Hu) as [p Hp]. exists p.
    eapply lookup_weaken; [exact Hp | apply serve_accounts_subseteq].
Qed.

(** X5. Started as the module starts it, the application never has a
    session logged in as a user that is not an account, whatever requests
    arrive from whatever clients. *)
Theorem sessions_stay_registered :
  forall (rs : list (string * request)), sessions_registered (serve_all rs boot).
Proof.
  assert (forall rs sv, sessions_registered sv -> sessions_registered (serve_all rs sv))
    as Hpres.
  { intros rs. induction rs as [|[c r] rest IH]; intros sv Hreg; cbn [serve_all].
    - exact Hreg.
    - apply IH. now apply serve_sessions_registered. }
  intros rs. apply Hpres. intros c u Hu.
  unfold logged_in, session_of, boot in Hu. cbn in Hu.
  rewrite lookup_empty in Hu. cbn in Hu. rewrite lookup_empty in Hu. discriminate.
Qed.

(** X6. Credentials that [POST /register] accepted keep working: after
    any later requests by any clients, [POST /login] with the same form,
    from any client, is let in and binds that client's session to the
    registered name. *)
Theorem registered_credentials_keep_working :
  forall (sv : server) (c c' : string) (f : gmap string string)
         (rs : list (string * request)),
    (serve c (mkRequest "/register" POST f) sv).1 = Redirect "/" ->
    (serve c' (mkRequest "/login" POST f)
       (serve_all rs (serve c (mkRequest "/register" POST f) sv).2)).1 = Redirect "/"
    /\ logged_in
         (session_of c'
            (serve c' (mkRequest "/login" POST f)
               (serve_all rs (serve c (mkRequest "/register" POST f) sv).2)).2)
       = f !! "username"%string.
Proof.
  intros sv c c' f rs Hreg.
  set (sv1 := (serve c (mkRequest "/register" POST f) sv).2) in *.
  assert (exists u p, f !! "username"%string = Some u
                      /\ f !! "password"%string = Some p
                      /\ accounts sv1 !! u = Some p) as (u & p & Hu & Hp & Ha).
  { subst sv1. rewrite serve_accounts. rewrite serve_response in Hreg.
    set (st := {| users := accounts sv; session := session_of c sv |}) in *.
    change (dispatch (mkRequest "/register" POST f) st) with (register POST f st)
      in Hreg |- *.
    destruct (register_post_cases f st) as [u Hu Hs| |u p Hu Hp Hun Hpn Hf];
      cbn in Hreg; try discriminate.
    exists u, p. split; [exact Hu|]. split; [exact Hp|]. cbn. apply lookup_insert_eq. }
  set (sv2 := serve_all rs sv1).
  assert (accounts sv2 !! u = Some p) as Ha2.
  { eapply lookup_weaken; [exact Ha | apply serve_all_accounts_subseteq]. }
  rewrite serve_response, session_of_serve.
  set (st := {| users := accounts sv2; session := session_of c' sv2 |}).
  change (dispatch (mkRequest "/login" POST f) st) with (login f st).
  destruct (login_cases f st) as [(u' & (Hu' & _) & ->)|[Hn _]].
  - cbn. split; [reflexivity|]. unfold logged_in. now rewrite lookup_insert_eq.
  - exfalso. apply (Hn u). split; [exact Hu|]. exists p. now split.
Qed.

(** X7. A request binds a client's session to a user it was not bound to
    before only if it is a [POST] whose form carries that user's name and
    the password that the account has after the request; and no request of
    one client, of whatever kind, changes the session of another. *)
Theorem session_bound_only_with_password :
  forall (sv : server) (c : string) (r : request),
    (forall u,
       logged_in (session_of c (serve c r sv).2) = Some u ->
       logged_in (session_of c sv) <> Some u ->
       method r = POST
       /\ credentials_match (form r) (accounts (serve c r sv).2) u)
    /\ (forall c', c' <> c -> session_of c' (serve c r sv).2 = session_of c' sv).
Proof.
  intros sv c r.
  split; [|intros c' Hne; now apply session_of_serve_other].
  intros u Hafter Hbefore.
  rewrite session_of_serve in Hafter. rewrite serve_accounts.
  set (st := {| users := accounts sv; session := session_of c sv |}) in *.
  destruct (dispatch_effect r st) as [_ [Hs|[Hs|(u' & Hm & Hc & Hs)]]];
    rewrite Hs in Hafter; unfold logged_in in Hafter, Hbefore.
  - contradiction.
  - rewrite lookup_delete_eq in Hafter. discriminate.
  - rewrite lookup_insert_eq in Hafter. injection Hafter as <-. now split.
Qed.

(** X8. [GET /logout] always leaves the client logged out, whether it
    was logged in or not; the accounts and the other clients' sessions are
    untouched, and the home page then shows the login form. *)
Theorem logout_logs_out :
  forall (sv : server) (c : string),
    (serve c (mkRequest "/logout" GET ∅) sv).1 = Redirect "/"
    /\ logged_in (session_of c (serve c (mkRequest "/logout" GET ∅) sv).2) = None
    /\ accounts (serve c (mkRequest "/logout" GET ∅) sv).2 = accounts sv
    /\ (forall c', c' <> c ->
          session_of c' (serve c (mkRequest "/logout" GET ∅) sv).2 = session_of c' sv)
    /\ (serve c (mkRequest "/" GET ∅) (serve c (mkRequest "/logout" GET ∅) sv).2).1
       = Render login_page ∅.
Proof.
  intros sv c.
  split; [reflexivity|].
  assert (logged_in (session_of c (serve c (mkRequest "/logout" GET ∅) sv).2) = None)
    as Hout.
  { rewrite session_of_serve. unfold logged_in. cbn. apply lookup_delete_eq. }
  split; [exact Hout|]. split; [reflexivity|].
  split; [intros c' Hne; now apply session_of_serve_other|].
  rewrite serve_response.
  change (dispatch (mkRequest "/" GET ∅) ?st) with (home st).
  unfold home. cbn [session]. unfold logged_in in Hout. now rewrite Hout.
Qed.

Lemma USERS_nonempty_credentials : nonempty_credentials (accounts boot).
Proof.
  intros u p Hl. cbn [accounts boot] in Hl. unfold USERS in Hl.
  apply lookup_insert_Some in Hl as [[<- <-]|[_ Hl]]; [split; discriminate|].
  apply lookup_singleton_Some in Hl as [<- <-]. split; discriminate.
Qed.

Lemma accounts_only_grow_witness :
  accounts (serve_all busy_day boot) !! "admin"%string = Some "1234"%string.
Proof. apply (accounts_only_grow busy_day boot). reflexivity. Defined.

Lemma credentials_stay_nonempty_witness :
  nonempty_credentials
    (accounts (serve_all (("alice"%string, mkRequest "/register" POST alice_form)
                            :: busy_day) boot)).
Proof. apply credentials_stay_nonempty. exact USERS_nonempty_credentials. Defined.

Lemma registered_credentials_keep_working_witness :
  (serve "phone" (mkRequest "/login" POST alice_form)
     (serve_all busy_day
        (serve "alice" (mkRequest "/register" POST alice_form) boot).2)).1
    = Redirect "/"
  /\ logged_in
       (session_of "phone"
          (serve "phone" (mkRequest "/login" POST alice_form)
             (serve_all busy_day
                (serve "alice" (mkRequest "/register" POST alice_form) boot).2)).2)
     = alice_form !! "username"%string.
Proof.
  apply (registered_credentials_keep_working boot "alice" "phone" alice_form busy_day).
  reflexivity.
Defined.

Lemma session_bound_only_with_password_witness :
  (method (mkRequest "/login" POST admin_form) = POST
   /\ credentials_match admin_form
        (accounts (serve "desk" (mkRequest "/login" POST admin_form) boot).2) "admin")
  /\ session_of "phone"
       (serve "desk" (mkRequest "/logout" GET ∅)
          (serve "phone" (mkRequest "/login" POST admin_form) boot).2).2
     = session_of "phone" (serve "phone" (mkRequest "/login" POST admin_form) boot).2.
Proof.
  split.
  - destruct (session_bound_only_with_password boot "desk"
                (mkRequest "/login" POST admin_form)) as [Hbind _].
    apply (Hbind "admin"%string); [reflexivity | discriminate].
  - destruct (session_bound_only_with_password
                (serve "phone" (mkRequest "/login" POST admin_form) boot).2 "desk"
                (mkRequest "/logout" GET ∅)) as [_ Hother].
    apply Hother. discriminate.
Defined.

End SmartHomeFacts.
